(** * Gaussian naive Bayes classifier (src/lib/naive_bayes/gaussian.ts)

    A shallow embedding of the [GaussianNB] class and of the library
    calls it makes, followed by the properties of the classifier.

    - [IEEE]: the two number formats involved.  A JavaScript number is an
      IEEE 754 binary64 value; the tensors of the class have dtype
      float32, so every element lives in a [Float32Array] and is an IEEE
      754 binary32 value.  Both are [spec_float]s of the standard
      library, with its operations at the matching precision.
    - [JS]: the parts of the language the class relies on: exceptions,
      [Math], the strings of labels, [Set], [Array.prototype.sort],
      the property names that an object inherits, [reduce] and lodash's
      [zip].
    - [TF]: the tensor operations of tfjs, as its CPU backend evaluates
      them: values are read from the typed array as numbers, the kernel
      computes on numbers, and the result is stored back as float32.
    - [Ops]: the helpers imported from [../ops].
    - [GaussianNB]: the class itself, method by method, generic in the
      type [T] of the class labels as the source is.  [Math.exp] is a
      parameter of the methods that predict.
    - [Spec]: the parameters and the densities as the specification words
      them, to compare the class with.
    - [Reference], [Examples]: an exponential to run the classifier with,
      and the training sets the properties are tried on.

    The lemmas follow the definitions: rounding, the catalog, the tensor
    operations, fitting, prediction and checkpoints, and then the
    properties of the classifier.  A second round of lemmas (batches and
    the iterator, checkpoints, the order and the signs of numbers, the
    class that is selected) leads to further properties, which come
    last. *)

From stdpp Require Import gmap strings list sorting.
From Stdlib Require Import ZArith Lia.
From Stdlib Require Import Floats.SpecFloat.
From Stdlib Require Import DecimalString DecimalZ.

(* ===================================================================== *)
(** * Numbers *)
(* ===================================================================== *)

Module IEEE.
#[local] Open Scope Z_scope.

(** A JavaScript number: binary64. *)
Definition number : Type := spec_float.

(** An element of a [Float32Array]: binary32. *)
Definition float32 : Type := spec_float.

Definition is_number (x : number) : bool := valid_binary 53 1024 x.
Definition is_float32 (x : float32) : bool := valid_binary 24 128 x.

(** Storing a number into a [Float32Array] rounds it to the nearest
    binary32 value, ties to even (this is [Math.fround]). *)
Definition fround (x : number) : float32 :=
  match x with
  | S754_finite s m e => binary_round 24 128 s m e
  | _ => x
  end.

(** Reading an element of a [Float32Array] gives the same value as a
    number; only the representation changes. *)
Definition widen (x : float32) : number :=
  match x with
  | S754_finite s m e => binary_round 53 1024 s m e
  | _ => x
  end.

Definition add : number -> number -> number := SFadd 53 1024.
Definition sub : number -> number -> number := SFsub 53 1024.
Definition mul : number -> number -> number := SFmul 53 1024.
Definition div : number -> number -> number := SFdiv 53 1024.

(** [a > b]; false as soon as one side is NaN. *)
Definition gt (a b : number) : bool := SFltb b a.

(** [a === b] on numbers: NaN differs from itself, the zeros agree. *)
Definition strict_eq (a b : number) : bool := SFeqb a b.

(** An integer literal, or an array length, as a number. *)
Definition of_Z (z : Z) : number := binary_normalize 53 1024 z 0 false.
Definition of_nat (n : nat) : number := of_Z (Z.of_nat n).

Definition NaN : number := S754_nan.
Definition zero : number := S754_zero false.
Definition one : number := of_Z 1.

(** The float32 nearest to the fraction [p / q]. *)
Definition ratio (p q : Z) : float32 := fround (div (of_Z p) (of_Z q)).

Definition is_zero (x : spec_float) : bool :=
  match x with S754_zero _ => true | _ => false end.

Definition is_infinity (x : spec_float) : bool :=
  match x with S754_infinity _ => true | _ => false end.

(** Neither NaN nor an infinity. *)
(** The sign bit of a number: [Some true] for the negative ones and for
    [-0]; NaN has none that can be observed. *)
Definition sign (x : spec_float) : option bool :=
  match x with
  | S754_nan => None
  | S754_zero s | S754_infinity s | S754_finite s _ _ => Some s
  end.

Definition is_finite (x : spec_float) : bool :=
  match x with S754_zero _ | S754_finite _ _ _ => true | _ => false end.

End IEEE.

(* ===================================================================== *)
(** * The language *)
(* ===================================================================== *)

Module JS.
Import IEEE.
#[local] Open Scope Z_scope.

(** ** Exceptions *)

(** What went wrong with a training set, for the validation helpers of
    [../ops]. *)
Inductive invalid_input : Type :=
| EmptyInput
| LengthMismatch
| RaggedMatrix.

Inductive exn : Type :=
| TypeError
  (** raised by the engine: a property of [undefined] was read *)
| Error (message : string)
  (** [throw new Error(message)] *)
| TensorError
  (** raised inside tfjs: values that are no matrix, shapes that do not
      broadcast, an empty list of tensors to stack *)
| InvalidInputError (why : invalid_input)
  (** raised by the validation helpers of [../ops] *).

Inductive result (A : Type) : Type :=
| Ok (a : A)
| Throw (e : exn).
Arguments Ok {A} a.
Arguments Throw {A} e.

Definition bind {A B} (r : result A) (k : A -> result B) : result B :=
  match r with
  | Ok a => k a
  | Throw e => Throw e
  end.

Notation "'let*' x ':=' r 'in' k" := (bind r (fun x => k))
  (at level 10, x pattern, r at level 100, k at level 200).

(** [xs.map(f)] for a callback that may throw: left to right, and the
    first exception ends the loop. *)
Fixpoint map_throwing {A B} (f : A -> result B) (xs : list A) : result (list B) :=
  match xs with
  | [] => Ok []
  | x :: xs' =>
      let* y := f x in
      let* ys := map_throwing f xs' in
      Ok (y :: ys)
  end.

(** Reading a property of a value that may be [undefined] ([None]). *)
Definition defined {A} (v : option A) : result A :=
  match v with
  | Some a => Ok a
  | None => Throw TypeError
  end.

(** ** Math *)

(** [Math.PI], the binary64 number nearest to pi. *)
Definition Math_PI : number := S754_finite false 0x1921FB54442D18 (-51).

Definition Math_sqrt : number -> number := SFsqrt 53 1024.

(** [Math.pow(x, 2)].  ECMA-262 leaves the accuracy of [Math.pow] to
    the engine; the square is taken to be the correctly rounded one,
    which is what [x * x] gives. *)
Definition Math_pow_2 (x : number) : number := mul x x.

(** ** Labels and their strings *)

(** The class is generic in the type of the class labels,
    [T extends number | string].  Of a label the class uses its
    identity in a [Set] (SameValueZero, which is the equality of [T]
    here) and its string: [category.toString()] names the group of a
    row, and [sort()] compares the strings of the labels, which for a
    number and for a string are what [toString()] returns. *)
Class ToString (T : Type) := toString : T -> string.
#[global] Hint Mode ToString ! : typeclass_instances.

(** The decimal digits of an integer, with a minus sign for a negative
    one. *)
Definition decimal (n : Z) : string := NilEmpty.string_of_int (Z.to_int n).

(** [T = number], for labels that are integers of magnitude below 2^53:
    there [Number.prototype.toString] prints the decimal digits.  The
    examples use such labels. *)
#[export] Instance number_toString : ToString Z := decimal.

(** [T = string]. *)
#[export] Instance string_toString : ToString string := fun s => s.

(** [T = number | string]. *)
#[export] Instance number_or_string_toString : ToString (Z + string) :=
  fun c => match c with inl n => toString n | inr s => s end.

(** The names of the properties of [Object.prototype], which every
    object created by [{}] inherits: all of them hold a function, but for
    [__proto__], which holds [Object.prototype] itself. *)
Definition Object_prototype_names : list string :=
  ["constructor"; "__defineGetter__"; "__defineSetter__"; "hasOwnProperty";
   "__lookupGetter__"; "__lookupSetter__"; "isPrototypeOf";
   "propertyIsEnumerable"; "toString"; "valueOf"; "__proto__";
   "toLocaleString"].

Section Labels.
Context {T : Type} {T_eq : EqDecision T} {T_str : ToString T}.

(** ** Set *)

(** [[...new Set(y)]]: the distinct values of [y], each at the place
    of its first occurrence. *)
Definition Set_add (s : list T) (v : T) : list T :=
  if bool_decide (v ∈ s) then s else s ++ [v].

Definition Set_values (y : list T) : list T :=
  fold_left Set_add y [].

(** ** Array.prototype.sort *)

(** [sort()] without a comparator orders the elements by their
    strings, compared code unit by code unit, and is stable: elements
    with one string keep their order.  [String.ltb] is that comparison
    on strings that hold one code unit per character. *)
Fixpoint sort_insert (x : T) (sorted : list T) : list T :=
  match sorted with
  | [] => [x]
  | h :: t =>
      if String.ltb (toString x) (toString h)
      then x :: h :: t
      else h :: sort_insert x t
  end.

Definition sort (l : list T) : list T :=
  fold_left (fun sorted x => sort_insert x sorted) l [].

(** [a] comes before [b] in the order that [sort()] uses. *)
Definition before (a b : T) : Prop :=
  String.ltb (toString a) (toString b) = true.

(** Different labels of [l] have different strings, as the labels of
    one type have: numbers alone, or strings alone. *)
Definition distinct_strings (l : list T) : Prop :=
  forall a b, a ∈ l -> b ∈ l -> toString a = toString b -> a = b.

(** No label of [l] has the name of a property of [Object.prototype]
    as its string. *)
Definition no_inherited_name (l : list T) : Prop :=
  Forall (fun c => toString c ∉ Object_prototype_names) l.

#[export] Instance no_inherited_name_dec (l : list T) : Decision (no_inherited_name l) :=
  Forall_dec (fun c => toString c ∉ Object_prototype_names) l.

End Labels.

(** ** Arrays *)

(** [xs.reduce(f, init)] for a callback that may throw. *)
Definition reduce {A B} (f : B -> A -> result B) (xs : list A) (init : B)
    : result B :=
  fold_left (fun acc x => let* b := acc in f b x) xs (Ok init).

(** lodash's [zip(xs, ys)]: the pairs of elements at the same index,
    up to the longer array; what the shorter one lacks is
    [undefined]. *)
Fixpoint zip {A B} (xs : list A) (ys : list B) : list (option A * option B) :=
  match xs with
  | [] => map (fun y => (None, Some y)) ys
  | x :: xs' =>
      match ys with
      | [] => map (fun x => (Some x, None)) xs
      | y :: ys' => (Some x, Some y) :: zip xs' ys'
      end
  end.

(** ** Template literals *)

Definition length_to_string (n : nat) : string := decimal (Z.of_nat n).

End JS.

(* ===================================================================== *)
(** * Tensors *)
(* ===================================================================== *)

Module TF.
Import IEEE JS.

(** A tensor of dtype float32 and rank 1. *)
Definition Tensor1D : Type := list float32.

(** A tensor of dtype float32 and rank 2, as the list of its rows.  The
    functions that build one ([tensor2d], [stack]) make sure that there
    is at least one row and that all rows have one length. *)
Definition Tensor2D : Type := list (list float32).

Definition rectangular {A} (rows : list (list A)) : bool :=
  match rows with
  | [] => false
  | r0 :: _ => forallb (fun r => Nat.eqb (length r) (length r0)) rows
  end.

(** [t.shape]. *)
Definition shape (t : Tensor2D) : nat * nat := (length t, length (hd [] t)).

(** All rows of [t] have length [f]. *)
Definition rows_of_length (f : nat) {A} (t : list (list A)) : Prop :=
  Forall (fun row => length row = f) t.

(** All elements of [t] are binary32 values. *)
Definition all_float32 (t : Tensor2D) : Prop :=
  Forall (Forall (fun x => is_float32 x = true)) t.

(** [tf.scalar(v)]. *)
Definition scalar (v : number) : float32 := fround v.

(** [tf.tensor1d(values, 'float32')]. *)
Definition tensor1d (values : list number) : Tensor1D := map fround values.

(** [tf.tensor2d(values)]: the shape is inferred from the nested array,
    and values that are not a matrix are refused. *)
Definition tensor2d (values : list (list number)) : result Tensor2D :=
  if rectangular values then Ok (map (map fround) values) else Throw TensorError.

(** [[...t.dataSync()]]: the elements in row-major order, as numbers. *)
Definition dataSync (t : Tensor2D) : list number := map widen (concat t).

(** [t.clone()]: tensors are immutable, a clone has the same contents. *)
Definition clone (t : Tensor2D) : Tensor2D := t.

(** Ranks below 2 take part in an elementwise operation as if their
    shape were padded with 1 on the left. *)
Definition of_scalar (s : float32) : Tensor2D := [[s]].
Definition of_1d (v : Tensor1D) : Tensor2D := [v].

(** Broadcasting along one dimension: equal sizes pair up, and a size
    of 1 is stretched to the other one. *)
Definition broadcast {A B C} (f : A -> B -> result C)
    (a : list A) (b : list B) : result (list C) :=
  if Nat.eqb (length a) (length b)
  then map_throwing (fun xy => f (fst xy) (snd xy)) (zip_with pair a b)
  else match a, b with
       | [x], _ => map_throwing (f x) b
       | _, [y] => map_throwing (fun x => f x y) a
       | _, _ => Throw TensorError
       end.

(** The kernel of an elementwise operation on float32 data. *)
Definition kernel2 (f : number -> number -> number) (x y : float32) : float32 :=
  fround (f (widen x) (widen y)).
Definition kernel1 (f : number -> number) (x : float32) : float32 :=
  fround (f (widen x)).

Definition binary_op (f : number -> number -> number)
    (a b : Tensor2D) : result Tensor2D :=
  broadcast (broadcast (fun x y => Ok (kernel2 f x y))) a b.

Definition unary_op (f : number -> number) (a : Tensor2D) : Tensor2D :=
  map (map (kernel1 f)) a.

Definition tf_sub := binary_op sub.
Definition tf_mul := binary_op mul.
Definition tf_div := binary_op div.
(** [t.pow(tf.scalar(2))]. *)
Definition tf_pow_2 := unary_op Math_pow_2.
Definition tf_square := unary_op (fun x => mul x x).
Definition tf_sqrt := unary_op Math_sqrt.
Definition tf_exp (Math_exp : number -> number) := unary_op Math_exp.

(** Column [j] of a matrix. *)
Definition column (j : nat) (rows : Tensor2D) : list float32 :=
  map (fun r => nth j r NaN) rows.

(** The sum kernel: [let sum = 0; for (...) sum += vals[i]], the
    accumulator being a number, stored as float32 at the end. *)
Definition reduce_sum (vals : list float32) : float32 :=
  fround (fold_left (fun acc v => add acc (widen v)) vals zero).

(** [t.sum(0)]. *)
Definition sum_0 (t : Tensor2D) : Tensor1D :=
  map (fun j => reduce_sum (column j t)) (seq 0 (snd (shape t))).

(** [t.mean(0)]: every element is divided by the number of rows, then
    the quotients are summed. *)
Definition mean_0 (t : Tensor2D) : result Tensor1D :=
  let reduceSizeScalar := scalar (of_nat (length t)) in
  let* res := tf_div t (of_scalar reduceSizeScalar) in
  Ok (sum_0 res).

(** [tf.moments(x, [0])]. *)
Definition moments (x : Tensor2D) : result (Tensor1D * Tensor1D) :=
  let* mean := mean_0 x in
  let* dev := tf_sub x (of_1d mean) in
  let devSquared := tf_square dev in
  let* variance := mean_0 devSquared in
  Ok (mean, variance).

(** [tf.stack(tensors)] for tensors of rank 1. *)
Definition stack (tensors : list Tensor1D) : result Tensor2D :=
  if rectangular tensors then Ok tensors else Throw TensorError.

(** The product kernel: [let prod = 1; for (...) prod *= vals[i]]. *)
Definition reduce_prod (vals : list float32) : float32 :=
  fround (fold_left (fun acc v => mul acc (widen v)) vals one).

(** [t.prod(1)]. *)
Definition prod_1 (t : Tensor2D) : Tensor1D := map reduce_prod t.

(** The argMax kernel:
    [let max = vals[0]; let maxIndex = 0;
     for (j ...) { if (vals[j] > max) { max = vals[j]; maxIndex = j; } }].
    The state of the loop is [(max, maxIndex, j)]. *)
Definition argMax_step (st : number * nat * nat) (value : number)
    : number * nat * nat :=
  let '(max, maxIndex, j) := st in
  if gt value max then (value, j, S j) else (max, maxIndex, S j).

(** [t.argMax().dataSync()[0]]. *)
Definition argMax (t : Tensor1D) : nat :=
  let vals := map widen t in
  snd (fst (fold_left argMax_step vals (hd NaN vals, 0%nat, 0%nat))).

End TF.

(* ===================================================================== *)
(** * The helpers of [../ops] *)
(* ===================================================================== *)

Module Ops.
Import IEEE JS TF.

(** Modelled from the spec: [validateFitInputs] of [../ops] is not
    among the sources.  The spec asks for [X] and [y] to be non-empty
    and of equal length and for [X] to be rectangular, with rows of one
    length greater than 0, and has a violation fail with an
    [InvalidInputError] that tells which constraint failed. *)
Definition validateFitInputs {T} (X : list (list number)) (y : list T)
    : result unit :=
  match X, y with
  | [], _ | _, [] => Throw (InvalidInputError EmptyInput)
  | row :: _, _ :: _ =>
      if negb (Nat.eqb (length X) (length y))
      then Throw (InvalidInputError LengthMismatch)
      else if negb (rectangular X)
      then Throw (InvalidInputError RaggedMatrix)
      else if Nat.eqb (length row) 0
      then Throw (InvalidInputError EmptyInput)
      else Ok tt
  end.

(** Modelled from the spec: [validateMatrix2D] of [../ops] is not among
    the sources.  The spec describes the validation helpers as shape
    and emptiness checks: a batch must be a non-empty matrix. *)
Definition validateMatrix2D (X : list (list number)) : result unit :=
  match X with
  | [] => Throw (InvalidInputError EmptyInput)
  | _ :: _ =>
      if rectangular X then Ok tt else Throw (InvalidInputError RaggedMatrix)
  end.

(** Modelled from the spec: [reshape] of [../ops] is not among the
    sources.  The spec has the export give the parameters in
    dense-array form: the flat values are cut into [rows] rows of
    [cols] values. *)
Definition reshape {A} (flat : list A) (sizes : nat * nat) : list (list A) :=
  let '(rows, cols) := sizes in
  map (fun i => take cols (drop (i * cols) flat)) (seq 0 rows).

End Ops.

(* ===================================================================== *)
(** * The class *)
(* ===================================================================== *)

(** The object returned by [fitModel]. *)
Module FitModel.
Import JS TF.
Record t (T : Type) : Type := {
  classCategories : list T;
  mean : Tensor2D;
  variance : Tensor2D
}.
Arguments classCategories {T}.
Arguments mean {T}.
Arguments variance {T}.
End FitModel.

(** The checkpoint written by [toJSON] and read by [fromJSON].  The
    declared type of [classCategories] is [T[]]; at run time the field of
    an instance that was never fitted is [undefined], and both methods
    pass it on as it is. *)
Module ModelState.
Import IEEE JS.
Record t (T : Type) : Type := {
  classCategories : option (list T);
  mean : list (list number);
  variance : list (list number)
}.
Arguments classCategories {T}.
Arguments mean {T}.
Arguments variance {T}.
End ModelState.

Module GaussianNB.
Import IEEE JS TF Ops.

(** [class GaussianNB<T extends number | string = number>] and its
    private fields.  None of them has an initialiser: they are
    [undefined] ([None]) until [fit] or [fromJSON] assigns them. *)
Record t (T : Type) : Type := {
  classCategories : option (list T);
  mean : option Tensor2D;
  variance : option Tensor2D
}.
Arguments classCategories {T}.
Arguments mean {T}.
Arguments variance {T}.

(** [new GaussianNB()]. *)
Definition new {T : Type} : t T :=
  {| classCategories := None; mean := None; variance := None |}.

Definition SQRT_2PI : number := Math_sqrt (mul Math_PI (of_Z 2)).

(** What [groups[key]] holds: an array of rows, created by the callback
    of [fitModel], or what the object inherits under that name from
    [Object.prototype]. *)
Inductive property : Type :=
| Rows (rows : list (option (list number)))
| Inherited.

(** [groups[key]] for an object [groups] created by [{}]: its own
    properties first, then those of [Object.prototype]. *)
Definition get (groups : gmap string (list (option (list number)))) (key : string)
    : option property :=
  match groups !! key with
  | Some rows => Some (Rows rows)
  | None =>
      if bool_decide (key ∈ Object_prototype_names) then Some Inherited else None
  end.

(** [separatedByCategory[key] as number[][]], handed to [tf.tensor2d]:
    a missing group, an inherited property or a missing row is no
    matrix. *)
Definition as_matrix (group : option property) : result (list (list number)) :=
  match group with
  | Some (Rows rows) =>
      map_throwing (fun row =>
        match row with Some r => Ok r | None => Throw TensorError end) rows
  | Some Inherited | None => Throw TensorError
  end.

Definition dimension_message (numFeatures summaryLength : nat) : string :=
  "Prediction input " +:+ length_to_string numFeatures
    +:+ " length must be equal or less than summary length "
    +:+ length_to_string summaryLength.

(** The generator object that [predictIterator(X)] returns: suspended,
    holding what is left of its source [X], or completed. *)
Inductive generator : Type :=
| Suspended (source : list (list number))
| Completed.

(** [predictIterator(X)]: calling a generator function runs none of its
    body. *)
Definition predictIterator (X : list (list number)) : generator := Suspended X.

Section Class.
Context {T : Type} {T_eq : EqDecision T} {T_str : ToString T}.

(** A method that may assign fields: it runs on an instance and leaves
    a result, or an exception, and the instance as it is then. *)
Definition method (A : Type) : Type := t T -> result A * t T.

Definition lift {A} (r : result A) : method A := fun this => (r, this).

Definition seq_method {A B} (m : method A) (k : A -> method B) : method B :=
  fun this =>
    match m this with
    | (Ok a, this') => k a this'
    | (Throw e, this') => (Throw e, this')
    end.

Notation "x <- m ;; k" := (seq_method m (fun x => k))
  (at level 100, m at next level, right associativity).

Definition set_classCategories (v : option (list T)) : method unit :=
  fun this =>
    (Ok tt, {| classCategories := v; mean := mean this; variance := variance this |}).

Definition set_mean (v : Tensor2D) : method unit :=
  fun this =>
    (Ok tt, {| classCategories := classCategories this; mean := Some v;
               variance := variance this |}).

Definition set_variance (v : Tensor2D) : method unit :=
  fun this =>
    (Ok tt, {| classCategories := classCategories this; mean := mean this;
               variance := Some v |}).

(** The callback of the [reduce] in [fitModel]:
    [groups[category.toString()] = groups[category.toString()] || [];
     groups[category.toString()].push(row); return groups].
    Whatever [groups[key]] holds is truthy, so the array [[]] is taken
    only for a name that [groups] does not have, own or inherited.  An
    inherited property is assigned to [groups] as its own and has no
    [push]: calling it raises a TypeError, and the [reduce] ends. *)
Definition group_step
    (groups : gmap string (list (option (list number))))
    (pair : option (list number) * option T)
    : result (gmap string (list (option (list number)))) :=
  let '(row, category) := pair in
  let* category := defined category in
  let key := toString category in
  match get groups key with
  | Some (Rows rows) => Ok (<[key := rows ++ [row]]> groups)
  | Some Inherited => Throw TypeError
  | None => Ok (<[key := [] ++ [row]]> groups)
  end.

(** The rows that the [reduce] pushes under [key], for arrays of equal
    length. *)
Definition rows_under (key : string) (pairs : list (list number * T))
    : list (list number) :=
  map fst (filter (fun p => toString (snd p) = key) pairs).

(** [fitModel]. *)
Definition fitModel (X : list (list number)) (y : list T)
    : result (FitModel.t T) :=
  let classCategories := sort (Set_values y) in
  let* separatedByCategory := reduce group_step (zip X y) ∅ in
  let* momentStack :=
    map_throwing (fun category : T =>
      let* values := as_matrix (get separatedByCategory (toString category)) in
      let* classFeatures := tensor2d values in
      moments classFeatures) classCategories in
  let* mean := stack (map fst momentStack) in
  let* variance := stack (map snd momentStack) in
  Ok {| FitModel.classCategories := classCategories;
        FitModel.mean := mean;
        FitModel.variance := variance |}.

(** [fit]. *)
Definition fit (X : list (list number)) (y : list T) : method unit :=
  _ <- lift (validateFitInputs X y) ;;
  r <- lift (fitModel X y) ;;
  _ <- set_classCategories (Some (FitModel.classCategories r)) ;;
  _ <- set_mean (FitModel.mean r) ;;
  set_variance (FitModel.variance r).

(** [model]. *)
Definition model (this : t T)
    : option (list T) * option Tensor2D * option Tensor2D :=
  (classCategories this, mean this, variance this).

(** [fromJSON]. *)
Definition fromJSON (modelState : ModelState.t T) : method unit :=
  _ <- set_classCategories (ModelState.classCategories modelState) ;;
  m <- lift (tensor2d (ModelState.mean modelState)) ;;
  _ <- set_mean m ;;
  v <- lift (tensor2d (ModelState.variance modelState)) ;;
  set_variance v.

(** [toJSON]; it assigns nothing. *)
Definition toJSON (this : t T) : result (ModelState.t T) :=
  let classCategories := classCategories this in
  let* this_mean := defined (mean this) in
  let mean := reshape (dataSync this_mean) (shape this_mean) in
  let* this_variance := defined (variance this) in
  let variance := reshape (dataSync this_variance) (shape this_variance) in
  Ok {| ModelState.classCategories := classCategories;
        ModelState.mean := mean;
        ModelState.variance := variance |}.

Section Predict.
(** [Math.exp].  ECMA-262 fixes its value at NaN, at the zeros and at
    the infinities and leaves the rest to the engine, so the class is
    embedded for any such function. *)
Variable Math_exp : number -> number.

(** The tensor [probabilityArray] of [singlePredict]: one row per
    class, one density per feature. *)
Definition probabilityArray (mean variance : Tensor2D) (matrixX : Tensor1D)
    : result Tensor2D :=
  let* centred := tf_sub (of_1d matrixX) mean in
  let* meanValPow := tf_mul (tf_pow_2 centred) (of_scalar (scalar (of_Z (-1)))) in
  let* twice := tf_mul variance (of_scalar (scalar (of_Z 2))) in
  let* quotient := tf_div meanValPow twice in
  let exponent := tf_exp Math_exp quotient in
  let* innerDiv := tf_mul (of_scalar (scalar SQRT_2PI)) (tf_sqrt variance) in
  let* coefficient := tf_div (of_scalar (scalar (of_Z 1))) innerDiv in
  tf_mul coefficient exponent.

(** [singlePredict]; it assigns nothing.  The result is [undefined]
    ([None]) when the selected index is no index of
    [classCategories]. *)
Definition singlePredict (this : t T) (X : list number) : result (option T) :=
  let matrixX := tensor1d X in
  let numFeatures := length matrixX in
  let* this_mean := defined (mean this) in
  let summaryLength := snd (shape this_mean) in
  if negb (Nat.eqb numFeatures summaryLength)
  then Throw (Error (dimension_message numFeatures summaryLength))
  else
    let mean := clone this_mean in
    let* this_variance := defined (variance this) in
    let variance := clone this_variance in
    let* probabilityArray := probabilityArray mean variance matrixX in
    let selectionIndex := argMax (prod_1 probabilityArray) in
    let* categories := defined (classCategories this) in
    Ok (categories !! selectionIndex).

(** [predict]. *)
Definition predict (X : list (list number)) : method (list (option T)) :=
  fun this =>
    (let* _ := validateMatrix2D X in
     map_throwing (singlePredict this) X, this).

(** [predictIterator], one [next()] at a time: the generator pulls
    one row from [X] and yields its label; [None] when [X] is
    exhausted. *)
Definition predictIterator_next (this : t T) (X : list (list number))
    : option (result (option T) * list (list number)) :=
  match X with
  | [] => None
  | x :: rest => Some (singlePredict this x, rest)
  end.

(** [g.next()]: the body runs up to the next [yield]; [Ok None] is
    [{ done: true }].  The fields are read when the body runs, so the
    instance is the one at the time of the call.  An exception of
    [singlePredict] leaves the body, and the generator is completed. *)
Definition next (this : t T) (g : generator)
    : result (option (option T)) * generator :=
  match g with
  | Completed => (Ok None, Completed)
  | Suspended X =>
      match predictIterator_next this X with
      | None => (Ok None, Completed)
      | Some (Ok label, rest) => (Ok (Some label), Suspended rest)
      | Some (Throw e, _) => (Throw e, Completed)
      end
  end.

(** What [n] calls of [g.next()] in a row return, on an instance that
    is not assigned to in between. *)
Fixpoint calls (this : t T) (n : nat) (g : generator)
    : list (result (option (option T))) :=
  match n with
  | O => []
  | S n' => let '(r, g') := next this g in r :: calls this n' g'
  end.

End Predict.

End Class.

End GaussianNB.

(* ===================================================================== *)
(** * The parameters, as the specification words them *)
(* ===================================================================== *)

(** For each class, and for each feature column on its own, the sample
    mean and the population variance over the training rows of that
    class.  The arithmetic is that of the tensor backend: a mean divides
    every value by the size of the group and adds the quotients up. *)
Module Spec.
Import IEEE JS TF.

(** The number of feature columns of a training set. *)
Definition numFeatures (X : list (list number)) : nat := length (hd [] X).

Section Labels.
Context {T : Type} {T_eq : EqDecision T} {T_str : ToString T}.


(** The training rows whose label has the string of [c], in their
    order, as float32 data. *)
Definition class_rows (X : list (list number)) (y : list T) (c : T)
    : list (list float32) :=
  map (fun p => map fround (fst p))
      (filter (fun p => toString (snd p) = toString c) (zip_with pair X y)).

End Labels.

(** The mean of a group of values: the divisor is the size of the
    group. *)
Definition sample_mean (values : list float32) : float32 :=
  let size := scalar (of_nat (length values)) in
  reduce_sum (map (fun v => kernel2 div v size) values).

(** The population variance of a group of values: the mean of the
    squared deviations from the mean, the divisor being the size of the
    group again. *)
Definition population_variance (values : list float32) : float32 :=
  let m := sample_mean values in
  sample_mean (map (fun v => kernel1 (fun d => mul d d) (kernel2 sub v m)) values).

(** One row per class of [catalog], in its order; one entry per feature
    column. *)
Section Parameters.
Context {T : Type} {T_eq : EqDecision T} {T_str : ToString T}.

Definition per_class (moment : list float32 -> float32)
    (X : list (list number)) (y : list T) (catalog : list T)
    : list (list float32) :=
  map (fun c =>
         map (fun j => moment (column j (class_rows X y c)))
             (seq 0 (numFeatures X)))
      catalog.

Definition mean_matrix := per_class sample_mean.
Definition variance_matrix := per_class population_variance.

End Parameters.

(** The Gaussian density of the value [x] of a feature under the mean
    [m] and the variance [v] of a class:
    [1 / (sqrt(2 pi) * sqrt(v)) * exp(-(x - m)^2 / (2 * v))],
    in the arithmetic of the tensor backend. *)
Section Density.
Variable Math_exp : number -> number.

Definition coefficient (v : float32) : float32 :=
  kernel2 div (scalar (of_Z 1))
    (kernel2 mul (scalar GaussianNB.SQRT_2PI) (kernel1 Math_sqrt v)).

Definition exponent (x m v : float32) : float32 :=
  kernel1 Math_exp
    (kernel2 div
       (kernel2 mul (kernel1 Math_pow_2 (kernel2 sub x m)) (scalar (of_Z (-1))))
       (kernel2 mul v (scalar (of_Z 2)))).

Definition density (x m v : float32) : float32 :=
  kernel2 mul (coefficient v) (exponent x m v).

(** The densities of the row [x] under one class, feature by feature. *)
Definition row_densities (x mrow vrow : list float32) : list float32 :=
  zip_with (fun xm v => density (fst xm) (snd xm) v) (zip_with pair x mrow) vrow.

End Density.

(** The failures that the specification tells apart. *)
Inductive failure : Type :=
| InvalidInput
| DimensionMismatch
| UnfittedModel.

(** The failure that an exception of the class stands for.  The source
    declares no error classes of its own: the rejection of a row of the
    wrong length is its one [throw new Error].  The [TypeError] of the
    engine and the errors of tfjs stand for none of the three: the
    class never raises them itself. *)
Definition failure_of (e : exn) : option failure :=
  match e with
  | InvalidInputError _ => Some InvalidInput
  | Error _ => Some DimensionMismatch
  | TypeError | TensorError => None
  end.

(** Entry [j] of row [i] of a matrix. *)
Definition entry {A} (t : list (list A)) (i j : nat) : option A :=
  match t !! i with
  | Some row => row !! j
  | None => None
  end.

End Spec.

(* ===================================================================== *)
(** * A reference exponential *)
(* ===================================================================== *)

(** An instance of [Math.exp] to run the classifier with: the
    exponential series in integer arithmetic, 256 bits wide, rounded to
    binary64 at the end. *)
Module Reference.
Import IEEE.
#[local] Open Scope Z_scope.

(** Working precision, in bits. *)
Definition bits : Z := 256.

(** [sum_{i >= first} r^i / i!] in fixed point, [r] being [R / 2^bits]
    and [term] the term before [first]. *)
Fixpoint series (fuel : nat) (first : Z) (R term acc : Z) : Z :=
  match fuel with
  | O => acc
  | S fuel' =>
      let term' := Z.shiftr (term * R) bits / first in
      series fuel' (first + 1) R term' (acc + term')
  end.

(** [(M * 2^E)^(2^j)], the mantissa being cut back to [bits] bits after
    each squaring. *)
Fixpoint square_repeatedly (j : nat) (M E : Z) : Z * Z :=
  match j with
  | O => (M, E)
  | S j' =>
      let M2 := M * M in
      let excess := Z.max 0 (Z.log2 M2 - bits) in
      square_repeatedly j' (Z.shiftr M2 excess) (2 * E + excess)
  end.

Definition Math_exp (x : number) : number :=
  match x with
  | S754_nan => S754_nan
  | S754_zero _ => one
  | S754_infinity false => S754_infinity false
  | S754_infinity true => S754_zero false
  | S754_finite s m e =>
      let magnitude := Zpos (digits2_pos m) + e in
      if 11 <? magnitude
      then (if s then S754_zero false else S754_infinity false)
      else
        (* x = r * 2^j with |r| < 2^-8 *)
        let j := Z.max 0 (magnitude + 8) in
        let R := cond_Zopp s (Z.shiftl (Zpos m) (e - j + bits)) in
        let unit := Z.shiftl 1 bits in
        let t := series 40 1 R unit unit in
        let '(M, E) := square_repeatedly (Z.to_nat j) t (- bits) in
        binary_normalize 53 1024 M E false
  end.

End Reference.

(* ===================================================================== *)
(** * Worked examples *)
(* ===================================================================== *)

Module Examples.
Import IEEE JS.
#[local] Open Scope Z_scope.

(** The training set of the class's documentation. *)
Definition X : list (list number) :=
  [[of_Z 1; of_Z 20]; [of_Z 2; of_Z 21]; [of_Z 3; of_Z 22]; [of_Z 4; of_Z 22]].
Definition y : list Z := [1; 0; 1; 0].

(** One feature, and a class with a single training row. *)
Definition X_single : list (list number) := [[of_Z 1]; [of_Z 2]; [of_Z 3]].
Definition y_single : list Z := [0; 0; 1].

(** Labels of one and of two digits. *)
Definition X_digits : list (list number) := [[of_Z 1]; [of_Z 2]].
Definition y_digits : list Z := [10; 9].

(** The classifier after [fit] on [X] and [y]. *)
Definition fitted : GaussianNB.t Z :=
  {| GaussianNB.classCategories := Some [0; 1];
     GaussianNB.mean := Some [[ratio 3 1; ratio 43 2]; [ratio 2 1; ratio 21 1]];
     GaussianNB.variance := Some [[ratio 1 1; ratio 1 4]; [ratio 1 1; ratio 1 1]] |}.

(** The classifier after [fit] on [X_single] and [y_single]. *)
Definition fitted_single : GaussianNB.t Z :=
  {| GaussianNB.classCategories := Some [0; 1];
     GaussianNB.mean := Some [[ratio 3 2]; [ratio 3 1]];
     GaussianNB.variance := Some [[ratio 1 4]; [zero]] |}.

(** The same rows, the single training row being that of the first
    class. *)
Definition y_single_first : list Z := [0; 1; 1].
Definition fitted_single_first : GaussianNB.t Z :=
  {| GaussianNB.classCategories := Some [0; 1];
     GaussianNB.mean := Some [[ratio 1 1]; [ratio 5 2]];
     GaussianNB.variance := Some [[zero]; [ratio 1 4]] |}.

(** A single training row whose feature, 2^200, is beyond the range of
    float32. *)
Definition X_huge : list (list number) := [[of_Z (2 ^ 200)]].
Definition y_huge : list Z := [0].
Definition fitted_huge : GaussianNB.t Z :=
  {| GaussianNB.classCategories := Some [0];
     GaussianNB.mean := Some [[S754_infinity false]];
     GaussianNB.variance := Some [[NaN]] |}.

(** What [fitModel] returns on [X_digits], for [y_digits] and for the
    same labels in the other order. *)
Definition model_digits : FitModel.t Z :=
  {| FitModel.classCategories := [10; 9];
     FitModel.mean := [[ratio 1 1]; [ratio 2 1]];
     FitModel.variance := [[zero]; [zero]] |}.
Definition model_digits_swapped : FitModel.t Z :=
  {| FitModel.classCategories := [10; 9];
     FitModel.mean := [[ratio 2 1]; [ratio 1 1]];
     FitModel.variance := [[zero]; [zero]] |}.

(** A checkpoint whose mean has one column and whose variance has two. *)
Definition mismatched : ModelState.t Z :=
  {| ModelState.classCategories := Some [0];
     ModelState.mean := [[of_Z 1]];
     ModelState.variance := [[of_Z 1; of_Z 2]] |}.

(** A checkpoint whose mean is no matrix, with labels of its own. *)
Definition no_mean : ModelState.t Z :=
  {| ModelState.classCategories := Some [7; 8];
     ModelState.mean := [];
     ModelState.variance := [[of_Z 1]] |}.

(** A checkpoint with two classes and no label. *)
Definition no_labels : ModelState.t Z :=
  {| ModelState.classCategories := Some [];
     ModelState.mean := [[of_Z 1]; [of_Z 5]];
     ModelState.variance := [[of_Z 1]; [of_Z 1]] |}.

Definition restored_no_labels : GaussianNB.t Z :=
  {| GaussianNB.classCategories := Some [];
     GaussianNB.mean := Some [[ratio 1 1]; [ratio 5 1]];
     GaussianNB.variance := Some [[ratio 1 1]; [ratio 1 1]] |}.

(** A checkpoint without a catalog, and the instance restored from
    it. *)
Definition no_catalog : ModelState.t Z :=
  {| ModelState.classCategories := None;
     ModelState.mean := [[of_Z 1]];
     ModelState.variance := [[of_Z 1]] |}.
Definition restored_no_catalog : GaussianNB.t Z :=
  {| GaussianNB.classCategories := None;
     GaussianNB.mean := Some [[ratio 1 1]];
     GaussianNB.variance := Some [[ratio 1 1]] |}.

(** Two training rows under the number 1 and the string "1", in both
    orders, and what [fit] and [fitModel] leave. *)
Definition X_mixed : list (list number) := [[of_Z 1]; [of_Z 5]].
Definition y_mixed : list (Z + string) := [inl 1; inr "1"%string].
Definition y_mixed_swapped : list (Z + string) := [inr "1"%string; inl 1].
Definition fitted_mixed : GaussianNB.t (Z + string) :=
  {| GaussianNB.classCategories := Some [inl 1; inr "1"%string];
     GaussianNB.mean := Some [[ratio 3 1]; [ratio 3 1]];
     GaussianNB.variance := Some [[ratio 4 1]; [ratio 4 1]] |}.
Definition model_mixed : FitModel.t (Z + string) :=
  {| FitModel.classCategories := [inl 1; inr "1"%string];
     FitModel.mean := [[ratio 3 1]; [ratio 3 1]];
     FitModel.variance := [[ratio 4 1]; [ratio 4 1]] |}.
Definition model_mixed_swapped : FitModel.t (Z + string) :=
  {| FitModel.classCategories := [inr "1"%string; inl 1];
     FitModel.mean := [[ratio 3 1]; [ratio 3 1]];
     FitModel.variance := [[ratio 4 1]; [ratio 4 1]] |}.


End Examples.

(* ===================================================================== *)
(** * Rounding *)
(* ===================================================================== *)

(** What the proofs below need to know about [binary_round]: its result
    is a number of the format, a number of the format is left as it is,
    and so is a number divided by one. *)
Module Rounding.
#[local] Open Scope Z_scope.

(** ** The number of digits of a mantissa *)

Lemma digits2_pos_bounds (p : positive) :
  2 ^ (Zpos (digits2_pos p) - 1) <= Zpos p < 2 ^ Zpos (digits2_pos p).
Proof.
  induction p as [p IH|p IH|]; cbn [digits2_pos].
  - rewrite Pos2Z.inj_succ, Z.pow_succ_r by lia.
    replace (Z.succ (Zpos (digits2_pos p)) - 1) with (Z.succ (Zpos (digits2_pos p) - 1)) by lia.
    rewrite Z.pow_succ_r by lia. lia.
  - rewrite Pos2Z.inj_succ, Z.pow_succ_r by lia.
    replace (Z.succ (Zpos (digits2_pos p)) - 1) with (Z.succ (Zpos (digits2_pos p) - 1)) by lia.
    rewrite Z.pow_succ_r by lia. lia.
  - cbn. lia.
Qed.

Lemma Zdigits2_bounds (m : Z) :
  0 < m -> 2 ^ (Zdigits2 m - 1) <= m < 2 ^ Zdigits2 m.
Proof.
  destruct m as [|p|p]; try lia. intros _. apply digits2_pos_bounds.
Qed.

Lemma Zdigits2_pos (m : Z) : 0 < m -> 0 < Zdigits2 m.
Proof. destruct m; cbn; lia. Qed.

Lemma Zdigits2_unique (m d : Z) :
  2 ^ (d - 1) <= m < 2 ^ d -> 0 < d -> Zdigits2 m = d.
Proof.
  intros Hb Hd.
  assert (Hm : 0 < m) by (pose proof (Z.pow_pos_nonneg 2 (d - 1)); lia).
  pose proof (Zdigits2_bounds m Hm) as Hb'.
  pose proof (Zdigits2_pos m Hm) as Hp.
  destruct (Z.lt_trichotomy (Zdigits2 m) d) as [Hlt|[Heq|Hgt]]; [|exact Heq|].
  - assert (2 ^ Zdigits2 m <= 2 ^ (d - 1)) by (apply Z.pow_le_mono_r; lia). lia.
  - assert (2 ^ d <= 2 ^ (Zdigits2 m - 1)) by (apply Z.pow_le_mono_r; lia). lia.
Qed.

(** ** Shifting a mantissa to the right *)

Lemma iter_pos_nat {A} (f : A -> A) (p : positive) (x : A) :
  iter_pos f p x = Nat.iter (Pos.to_nat p) f x.
Proof.
  revert x; induction p as [p IH|p IH|]; intros x; cbn [iter_pos].
  - rewrite !IH, Pos2Nat.inj_xI.
    replace (S (2 * Pos.to_nat p)) with (Pos.to_nat p + S (Pos.to_nat p))%nat by lia.
    rewrite Nat.iter_add, Nat.iter_succ_r. reflexivity.
  - rewrite !IH, Pos2Nat.inj_xO.
    replace (2 * Pos.to_nat p)%nat with (Pos.to_nat p + Pos.to_nat p)%nat by lia.
    rewrite Nat.iter_add. reflexivity.
  - reflexivity.
Qed.

Lemma shr_1_m (mrs : shr_record) :
  0 <= shr_m mrs -> shr_m (shr_1 mrs) = shr_m mrs / 2.
Proof.
  destruct mrs as [m r s]; cbn [shr_m]; intros Hm.
  destruct m as [|[p|p|]|p]; cbn [shr_1 shr_m]; try lia; try reflexivity.
  - apply Z.div_unique with (r := 1); lia.
  - apply Z.div_unique with (r := 0); lia.
Qed.

Lemma iter_shr_1_m (n : nat) (mrs : shr_record) :
  0 <= shr_m mrs ->
  shr_m (Nat.iter n shr_1 mrs) = shr_m mrs / 2 ^ Z.of_nat n.
Proof.
  intros Hm. induction n as [|n IH].
  - cbn. now rewrite Z.div_1_r.
  - rewrite Nat.iter_succ, shr_1_m.
    + rewrite IH, Nat2Z.inj_succ, Z.pow_succ_r by lia.
      rewrite Z.div_div by lia. f_equal. lia.
    + rewrite IH. apply Z.div_pos; lia.
Qed.

Lemma shr_1_double (q : Z) :
  0 <= q ->
  shr_1 (Build_shr_record (2 * q) false false) = Build_shr_record q false false.
Proof. destruct q; intros; try lia; reflexivity. Qed.

Lemma iter_shr_1_exact (n : nat) (m : Z) :
  0 <= m ->
  Nat.iter n shr_1 (Build_shr_record (m * 2 ^ Z.of_nat n) false false)
  = Build_shr_record m false false.
Proof.
  intros Hm. induction n as [|n IH].
  - cbn. f_equal. lia.
  - rewrite Nat.iter_succ_r.
    replace (m * 2 ^ Z.of_nat (S n)) with (2 * (m * 2 ^ Z.of_nat n))
      by (rewrite Nat2Z.inj_succ, Z.pow_succ_r; lia).
    rewrite shr_1_double by lia. exact IH.
Qed.

Lemma shr_m_nonneg (m : Z) (e n : Z) l :
  0 <= m -> shr_m (fst (shr (shr_record_of_loc m l) e n)) = m / 2 ^ Z.max 0 n.
Proof.
  intros Hm.
  assert (Hr : shr_m (shr_record_of_loc m l) = m) by (destruct l as [|[]]; reflexivity).
  destruct n as [|p|p]; cbn [shr fst Z.max].
  - now rewrite Hr, Z.div_1_r.
  - rewrite iter_pos_nat, iter_shr_1_m by lia.
    rewrite Hr, positive_nat_Z. reflexivity.
  - now rewrite Hr, Z.div_1_r.
Qed.

Lemma shr_snd (mrs : shr_record) (e n : Z) :
  snd (shr mrs e n) = e + Z.max 0 n.
Proof. destruct n; cbn; lia. Qed.

Lemma round_nearest_even_range (m : Z) l :
  round_nearest_even m l = m \/ round_nearest_even m l = m + 1.
Proof.
  destruct l as [|[]]; cbn; auto. destruct (Z.even m); auto.
Qed.

Lemma Pos_iter_xO (m k : positive) :
  Zpos (Pos.iter xO m k) = Zpos m * 2 ^ Zpos k.
Proof.
  induction k as [|k IH] using Pos.peano_ind.
  - cbn. lia.
  - rewrite Pos.iter_succ, Pos2Z.inj_xO, IH, Pos2Z.inj_succ, Z.pow_succ_r by lia. lia.
Qed.

Lemma shr_spec (m e n : Z) l :
  0 <= m ->
  exists mrs, shr (shr_record_of_loc m l) e n = (mrs, e + Z.max 0 n)
              /\ shr_m mrs = m / 2 ^ Z.max 0 n.
Proof.
  intros Hm. exists (fst (shr (shr_record_of_loc m l) e n)). split.
  - rewrite <- shr_snd with (mrs := shr_record_of_loc m l). now destruct (shr _ _ _).
  - now apply shr_m_nonneg.
Qed.

(** ** Rounding in one format *)

Section Format.
Variables prec emax : Z.
Hypothesis Hprec : 0 < prec.
Hypothesis Hemax : prec < emax.

Lemma finalize_valid (s : bool) (m E : Z) :
  0 <= m <= 2 ^ prec -> emin prec emax <= E ->
  (E = emin prec emax \/ 2 ^ (prec - 1) <= m) ->
  valid_binary prec emax
    (let '(mrs, e) := shr_fexp prec emax m E loc_Exact in
     match shr_m mrs with
     | Z0 => S754_zero s
     | Zpos p => if e <=? emax - prec then S754_finite s p e else S754_infinity s
     | Zneg _ => S754_nan
     end) = true.
Proof.
  intros Hm HE Hcase. unfold shr_fexp.
  destruct (shr_spec m E (fexp prec emax (Zdigits2 m + E) - E) loc_Exact) as (mrs & -> & Hmrs);
    [lia|].
  destruct (Z.eq_dec m 0) as [->|Hm0].
  { rewrite Z.div_0_l in Hmrs by (apply Z.pow_nonzero; lia). now rewrite Hmrs. }
  assert (Hmpos : 0 < m) by lia.
  pose proof (Zdigits2_bounds m Hmpos) as Hd.
  pose proof (Zdigits2_pos m Hmpos) as Hdpos.
  set (d := Zdigits2 m) in *.
  assert (Hdle : d <= prec + 1).
  { destruct (Z_le_gt_dec d (prec + 1)) as [|Hgt]; [assumption|].
    assert (2 ^ (prec + 1) <= 2 ^ (d - 1)) by (apply Z.pow_le_mono_r; lia).
    assert (2 ^ prec < 2 ^ (prec + 1)) by (apply Z.pow_lt_mono_r; lia). lia. }
  unfold fexp, emin in *.
  destruct (Z.eq_dec d (prec + 1)) as [Hd1|Hd1].
  - (* the mantissa is exactly 2^prec: one more shift *)
    assert (Hm2 : m = 2 ^ prec) by (rewrite Hd1 in Hd; replace (prec + 1 - 1) with prec in Hd by lia; lia).
    replace (Z.max (d + E - prec) (3 - emax - prec) - E) with 1 in * by lia.
    cbn [Z.max] in Hmrs. rewrite Z.pow_1_r in Hmrs.
    assert (Hv : shr_m mrs = 2 ^ (prec - 1)).
    { rewrite Hmrs, Hm2. replace prec with (Z.succ (prec - 1)) at 1 by lia.
      rewrite Z.pow_succ_r by lia. rewrite Z.mul_comm, Z.div_mul by lia. reflexivity. }
    assert (Hpos : 0 < 2 ^ (prec - 1)) by (apply Z.pow_pos_nonneg; lia).
    destruct (shr_m mrs) as [|p|p] eqn:Ep; try lia.
    destruct (E + Z.max 0 1 <=? emax - prec) eqn:Eb; [|reflexivity].
    cbn [valid_binary]. unfold bounded, canonical_mantissa. rewrite Eb, andb_true_r.
    apply Z.eqb_eq. change (Z.pos (digits2_pos p)) with (Zdigits2 (Zpos p)).
    rewrite (Zdigits2_unique (Zpos p) prec); unfold fexp, emin; try lia.
    rewrite Hv. split; [lia|]. apply Z.pow_lt_mono_r; lia.
  - assert (Hdp : d <= prec) by lia.
    assert (Hcan : Z.max (d + E - prec) (3 - emax - prec) = E).
    { destruct Hcase as [->|Hlow]; [lia|].
      assert (prec <= d); [|lia].
      destruct (Z_le_gt_dec prec d) as [|Hgt]; [assumption|].
      assert (2 ^ d <= 2 ^ (prec - 1)) by (apply Z.pow_le_mono_r; lia). lia. }
    rewrite Hcan, Z.sub_diag in *. cbn [Z.max] in Hmrs. rewrite Z.pow_0_r, Z.div_1_r in Hmrs.
    rewrite Hmrs. destruct m as [|p|p] eqn:Ep; try lia.
    destruct (E + Z.max 0 0 <=? emax - prec) eqn:Eb; [|reflexivity].
    cbn [valid_binary]. unfold bounded, canonical_mantissa. rewrite Eb, andb_true_r.
    apply Z.eqb_eq. change (Z.pos (digits2_pos p)) with (Zdigits2 (Zpos p)).
    fold d. unfold fexp, emin. cbn [Z.max]. lia.
Qed.

Lemma binary_round_aux_valid (s : bool) (mx ex : Z) lx :
  0 <= mx -> ex <= fexp prec emax (Zdigits2 mx + ex) ->
  valid_binary prec emax (binary_round_aux prec emax s mx ex lx) = true.
Proof.
  intros Hm He. unfold binary_round_aux, shr_fexp at 1.
  set (n := fexp prec emax (Zdigits2 mx + ex) - ex).
  destruct (shr_spec mx ex n lx Hm) as (mrs & -> & Hmrs).
  assert (Hn : Z.max 0 n = n) by (unfold n; lia).
  rewrite Hn in *.
  set (m2 := round_nearest_even (shr_m mrs) (loc_of_shr_record mrs)).
  assert (Hm1 : 0 <= shr_m mrs) by (rewrite Hmrs; apply Z.div_pos; lia).
  assert (Hm2 : m2 = shr_m mrs \/ m2 = shr_m mrs + 1) by apply round_nearest_even_range.
  assert (Hpn : 0 < 2 ^ n) by (apply Z.pow_pos_nonneg; unfold n; lia).
  apply finalize_valid.
  - (* the rounded mantissa has at most prec digits, up to the carry *)
    split; [lia|].
    enough (shr_m mrs < 2 ^ prec) by lia.
    rewrite Hmrs.
    destruct (Z.eq_dec mx 0) as [->|Hm0].
    { rewrite Z.div_0_l by lia. apply Z.pow_pos_nonneg; lia. }
    pose proof (Zdigits2_bounds mx ltac:(lia)) as Hd.
    apply Z.div_lt_upper_bound; [lia|].
    rewrite <- Z.pow_add_r by (unfold n; lia).
    eapply Z.lt_le_trans; [apply Hd|].
    apply Z.pow_le_mono_r; [lia|]. unfold n, fexp. lia.
  - unfold n, fexp. lia.
  - unfold n, fexp in *.
    destruct (Z.max_spec (Zdigits2 mx + ex - prec) (emin prec emax)) as [[_ Hmax]|[Hge Hmax]];
      rewrite Hmax in *; [left; lia|right].
    assert (Hmx : 0 < mx).
    { destruct mx as [|p|p]; try lia. cbn [Zdigits2] in *. unfold emin in *. lia. }
    pose proof (Zdigits2_bounds mx Hmx) as Hd.
    enough (2 ^ (prec - 1) <= shr_m mrs) by lia.
    rewrite Hmrs. apply Z.div_le_lower_bound; [lia|].
    rewrite <- Z.pow_add_r by lia.
    replace (Zdigits2 mx + ex - prec - ex + (prec - 1)) with (Zdigits2 mx - 1) by lia.
    apply Hd.
Qed.

Lemma shl_align_spec (m : positive) (e e' : Z) :
  exists k, 0 <= k /\ e - k <= e'
    /\ (e' < e -> e - k = e') /\ (e <= e' -> k = 0)
    /\ Zpos (fst (shl_align m e e')) = Zpos m * 2 ^ k
    /\ snd (shl_align m e e') = e - k.
Proof.
  unfold shl_align. destruct (e' - e) as [|p|p] eqn:E.
  - exists 0. cbn. lia.
  - exists 0. cbn. lia.
  - exists (Zpos p). cbn [fst snd]. rewrite Pos_iter_xO. lia.
Qed.

Lemma Zdigits2_shift (m k : Z) :
  0 < m -> 0 <= k -> Zdigits2 (m * 2 ^ k) = Zdigits2 m + k.
Proof.
  intros Hm Hk. pose proof (Zdigits2_bounds m Hm) as Hd.
  pose proof (Zdigits2_pos m Hm) as Hp.
  assert (0 < 2 ^ k) by (apply Z.pow_pos_nonneg; lia).
  apply Zdigits2_unique; [|lia].
  replace (Zdigits2 m + k - 1) with (Zdigits2 m - 1 + k) by lia.
  rewrite !Z.pow_add_r by lia. nia.
Qed.

Theorem binary_round_valid (s : bool) (m : positive) (e : Z) :
  valid_binary prec emax (binary_round prec emax s m e) = true.
Proof.
  unfold binary_round.
  destruct (shl_align_spec m e (fexp prec emax (Zpos (digits2_pos m) + e)))
    as (k & Hk & Hle & _ & _ & Hm & He).
  destruct (shl_align m e _) as [mz ez]. cbn [fst snd] in *.
  apply binary_round_aux_valid; [lia|].
  rewrite Hm, Zdigits2_shift by lia. subst ez. cbn [Zdigits2].
  replace (Z.pos (digits2_pos m) + k + (e - k)) with (Z.pos (digits2_pos m) + e) by lia.
  exact Hle.
Qed.

Lemma bounded_inv (m : positive) (e : Z) :
  bounded prec emax m e = true ->
  fexp prec emax (Zpos (digits2_pos m) + e) = e /\ e <= emax - prec.
Proof.
  unfold bounded, canonical_mantissa. rewrite andb_true_iff, Z.eqb_eq, Z.leb_le. tauto.
Qed.

Lemma binary_round_aux_exact (s : bool) (m : positive) (e k : Z) :
  bounded prec emax m e = true -> 0 <= k ->
  binary_round_aux prec emax s (Zpos m * 2 ^ k) (e - k) loc_Exact = S754_finite s m e.
Proof.
  intros Hb Hk. apply bounded_inv in Hb as [Hcan Hmax].
  unfold binary_round_aux, shr_fexp at 1.
  rewrite Zdigits2_shift by lia. cbn [Zdigits2].
  replace (Z.pos (digits2_pos m) + k + (e - k)) with (Z.pos (digits2_pos m) + e) by lia.
  rewrite Hcan. replace (e - (e - k)) with k by lia.
  assert (Hshr : shr (shr_record_of_loc (Zpos m * 2 ^ k) loc_Exact) (e - k) k
                 = (Build_shr_record (Zpos m) false false, e)).
  { destruct k as [|p|p]; try lia.
    - cbn [shr shr_record_of_loc]. rewrite Z.pow_0_r, Z.mul_1_r. f_equal. lia.
    - cbn [shr shr_record_of_loc]. rewrite iter_pos_nat.
      rewrite <- (positive_nat_Z p) at 1. rewrite iter_shr_1_exact by lia.
      f_equal. lia. }
  rewrite Hshr. cbn [shr_m loc_of_shr_record round_nearest_even].
  unfold shr_fexp. cbn [Zdigits2]. rewrite Hcan, Z.sub_diag.
  cbn [shr shr_record_of_loc shr_m].
  apply Z.leb_le in Hmax. now rewrite Hmax.
Qed.

Lemma div_eucl_exact (a b : Z) : 0 < b -> Z.div_eucl (a * b) b = (a, 0).
Proof.
  intros Hb. pose proof (Z.div_mul a b ltac:(lia)) as Hq.
  pose proof (Z.mod_mul a b ltac:(lia)) as Hr.
  unfold Z.div, Z.modulo in *. destruct (Z.div_eucl (a * b) b). cbn in *. congruence.
Qed.

(** Dividing a representable number by one is exact. *)
Lemma SFdiv_one (s : bool) (m one : positive) (e : Z) :
  bounded prec emax m e = true ->
  Zpos one = 2 ^ (prec - 1) ->
  SFdiv prec emax (S754_finite s m e) (S754_finite false one (1 - prec))
  = S754_finite s m e.
Proof.
  intros Hb Hone. pose proof Hb as Hb'. apply bounded_inv in Hb' as [Hcan Hmax].
  cbn [SFdiv]. unfold SFdiv_core_binary.
  assert (Hd1 : Zdigits2 (Zpos one) = prec).
  { apply Zdigits2_unique; [|lia]. rewrite Hone. split; [lia|]. apply Z.pow_lt_mono_r; lia. }
  rewrite Hd1. cbn [Zdigits2].
  set (d := Z.pos (digits2_pos m)) in *.
  assert (He' : Z.min (fexp prec emax (d + e - (prec + (1 - prec)))) (e - (1 - prec))
                = fexp prec emax (d + e - 1)).
  { replace (d + e - (prec + (1 - prec))) with (d + e - 1) by lia.
    unfold fexp in *. lia. }
  rewrite He'. set (e' := fexp prec emax (d + e - 1)).
  assert (Hk : 0 <= e - e') by (unfold e', fexp in *; lia).
  assert (Hm' : match e - (1 - prec) - e' with
                | Z.pos _ => Z.shiftl (Z.pos m) (e - (1 - prec) - e')
                | 0 => Z.pos m
                | Z.neg _ => 0
                end = (Z.pos m * 2 ^ (e - e')) * Zpos one).
  { rewrite Hone, <- Z.mul_assoc, <- Z.pow_add_r by lia.
    replace (e - e' + (prec - 1)) with (e - (1 - prec) - e') by lia.
    destruct (e - (1 - prec) - e') as [|p|p] eqn:E; try lia.
    - rewrite Z.shiftl_mul_pow2 by lia. reflexivity. }
  rewrite Hm', div_eucl_exact by lia.
  replace (new_location (Z.pos one) 0) with loc_Exact
    by (unfold new_location, new_location_even, new_location_odd; now destruct (Z.even _)).
  cbn [xorb]. rewrite xorb_false_r.
  generalize (binary_round_aux_exact s m e (e - e') Hb Hk).
  replace (e - (e - e')) with e' by lia. trivial.
Qed.
End Format.

(** Widening to a larger format and rounding back returns the number. *)
Lemma round_trip_formats (p1 E1 p2 E2 : Z) (s : bool) (m : positive) (e : Z) :
  0 < p1 -> p1 < E1 -> p1 <= p2 -> E1 <= E2 ->
  bounded p1 E1 m e = true ->
  exists m' e', binary_round p2 E2 s m e = S754_finite s m' e'
                /\ binary_round p1 E1 s m' e' = S754_finite s m e.
Proof.
  intros Hp1 HE1 Hp HE Hb. pose proof Hb as Hb'.
  apply bounded_inv in Hb' as [Hcan Hmax].
  set (d := Zpos (digits2_pos m)) in *.
  assert (Hd : 0 < d) by (unfold d; lia).
  unfold binary_round at 1.
  destruct (shl_align_spec m e (fexp p2 E2 (d + e))) as (k & Hk & Hle & Hlt & Hge & Hm & He).
  fold d. destruct (shl_align m e _) as [mz ez]. cbn [fst snd] in *.
  assert (Hez : ez = fexp p2 E2 (d + e)) by (unfold fexp, emin in *; lia).
  assert (Hdz : Zpos (digits2_pos mz) = d + k).
  { change (Zdigits2 (Zpos mz) = d + k). rewrite Hm, Zdigits2_shift by lia. reflexivity. }
  exists mz, ez. split.
  - replace (Zpos mz) with (Zpos mz * 2 ^ 0) by (rewrite Z.pow_0_r; lia).
    replace ez with (ez - 0) at 1 by lia.
    apply binary_round_aux_exact; try lia.
    unfold bounded, canonical_mantissa. rewrite andb_true_iff, Z.eqb_eq, Z.leb_le.
    rewrite Hdz. replace (d + k + ez) with (d + e) by lia.
    split; [congruence|]. unfold fexp, emin in *. lia.
  - unfold binary_round. rewrite Hdz. replace (d + k + ez) with (d + e) by lia.
    rewrite Hcan. unfold shl_align. replace (e - ez) with k by lia.
    destruct k as [|p|p] eqn:Ek; try lia.
    + replace ez with e by lia. replace mz with m by lia.
      replace (Zpos m) with (Zpos m * 2 ^ 0) by (rewrite Z.pow_0_r; lia).
      replace e with (e - 0) at 1 by lia.
      apply binary_round_aux_exact; try lia. exact Hb.
    + rewrite Hm, He. apply binary_round_aux_exact; try lia. exact Hb.
Qed.

End Rounding.

Import IEEE JS TF Ops.

(* ===================================================================== *)
(** * Labels, sets and sorting *)
(* ===================================================================== *)

Module JSFacts.
Import JS.

(** ** The strings of integers *)

Lemma decimal_inj (a b : Z) : decimal a = decimal b -> a = b.
Proof.
  unfold decimal. intros H.
  assert (Hd : Z.to_int a = Z.to_int b).
  { apply (f_equal NilEmpty.int_of_string) in H.
    rewrite !NilEmpty.isi in H. congruence. }
  rewrite <- (DecimalZ.of_to a), <- (DecimalZ.of_to b). now rewrite Hd.
Qed.

(** Integer labels have different strings. *)
Lemma distinct_strings_number (l : list Z) : distinct_strings l.
Proof. intros a b _ _. apply decimal_inj. Qed.

(** So have string labels. *)
Lemma distinct_strings_string (l : list string) : distinct_strings l.
Proof. now intros a b _ _. Qed.

(** ** The order of strings *)

Lemma ascii_compare_refl (c : Ascii.ascii) : Ascii.compare c c = Eq.
Proof. unfold Ascii.compare. apply N.compare_refl. Qed.

Lemma ascii_compare_trans (a b c : Ascii.ascii) :
  Ascii.compare a b = Lt -> Ascii.compare b c = Lt -> Ascii.compare a c = Lt.
Proof. unfold Ascii.compare. rewrite !N.compare_lt_iff. lia. Qed.

Lemma string_compare_refl (s : string) : String.compare s s = Eq.
Proof. induction s as [|c s IH]; cbn; [reflexivity|]. now rewrite ascii_compare_refl. Qed.

Lemma string_compare_trans (s1 s2 s3 : string) :
  String.compare s1 s2 = Lt -> String.compare s2 s3 = Lt -> String.compare s1 s3 = Lt.
Proof.
  revert s2 s3; induction s1 as [|c1 s1 IH]; intros [|c2 s2] [|c3 s3]; cbn; try congruence.
  destruct (Ascii.compare c1 c2) eqn:E12; try congruence.
  - apply Ascii.compare_eq_iff in E12 as ->.
    destruct (Ascii.compare c2 c3); try congruence. apply IH.
  - intros _. destruct (Ascii.compare c2 c3) eqn:E23; try congruence.
    + apply Ascii.compare_eq_iff in E23 as <-. now rewrite E12.
    + intros _. now rewrite (ascii_compare_trans _ _ _ E12 E23).
Qed.

Section Labels.
Context {T : Type} {T_eq : EqDecision T} {T_str : ToString T}.
#[local] Abbreviation Label := T.

Lemma before_compare (a b : Label) :
  before a b <-> String.compare (toString a) (toString b) = Lt.
Proof. unfold before, String.ltb. destruct (String.compare _ _); split; congruence. Qed.

#[export] Instance before_irreflexive : Irreflexive (before (T:=T)).
Proof. intros a H. apply before_compare in H. rewrite string_compare_refl in H. discriminate. Qed.

#[export] Instance before_transitive : Transitive (before (T:=T)).
Proof. intros a b c. rewrite !before_compare. apply string_compare_trans. Qed.

#[export] Instance before_antisymm : AntiSymm Logic.eq (before (T:=T)).
Proof. intros a b H1 H2. destruct (irreflexivity before a). now transitivity b. Qed.

Lemma before_total (a b : Label) :
  toString a <> toString b -> before a b \/ before b a.
Proof.
  intros Hne. rewrite !before_compare.
  destruct (String.compare (toString a) (toString b)) eqn:E; auto.
  - now apply String.compare_eq_iff in E.
  - right. rewrite String.compare_antisym, E. reflexivity.
Qed.

Lemma distinct_strings_incl (l l' : list Label) :
  (forall c, c ∈ l' -> c ∈ l) -> distinct_strings l -> distinct_strings l'.
Proof. intros Hincl H a b Ha Hb. apply H; now apply Hincl. Qed.

(** ** Set *)

Lemma Set_values_spec (y acc : list Label) :
  NoDup acc ->
  NoDup (fold_left Set_add y acc)
  /\ forall c, c ∈ fold_left Set_add y acc <-> c ∈ acc \/ c ∈ y.
Proof.
  revert acc; induction y as [|v y IH]; intros acc Hacc; cbn [fold_left].
  - split; [assumption|]. intros c. rewrite elem_of_nil. tauto.
  - unfold Set_add at 2 4. case_bool_decide as Hv.
    + destruct (IH acc Hacc) as [Hn Hin]. split; [assumption|].
      intros c. rewrite Hin, elem_of_cons. split; [tauto|].
      intros [?|[->|?]]; auto.
    + assert (Hacc' : NoDup (acc ++ [v])).
      { apply NoDup_app. split_and!; [assumption| |apply NoDup_singleton].
        intros x Hx ->%list_elem_of_singleton. contradiction. }
      destruct (IH _ Hacc') as [Hn Hin]. split; [assumption|].
      intros c. rewrite Hin, elem_of_app, list_elem_of_singleton, elem_of_cons. tauto.
Qed.

Lemma NoDup_Set_values (y : list Label) : NoDup (Set_values y).
Proof. apply Set_values_spec, NoDup_nil_2. Qed.

Lemma elem_of_Set_values (y : list Label) (c : Label) : c ∈ Set_values y <-> c ∈ y.
Proof.
  unfold Set_values. destruct (Set_values_spec y [] (NoDup_nil_2)) as [_ ->].
  rewrite elem_of_nil. tauto.
Qed.

(** ** sort *)

Lemma sort_insert_perm (x : Label) (l : list Label) : sort_insert x l ≡ₚ x :: l.
Proof.
  induction l as [|h t IH]; cbn [sort_insert]; [reflexivity|].
  destruct (String.ltb _ _); [reflexivity|].
  rewrite IH. apply Permutation_swap.
Qed.

Lemma sort_perm (l acc : list Label) :
  fold_left (fun sorted x => sort_insert x sorted) l acc ≡ₚ acc ++ l.
Proof.
  revert acc; induction l as [|x l IH]; intros acc; cbn [fold_left].
  - now rewrite app_nil_r.
  - rewrite IH, sort_insert_perm. cbn. apply Permutation_middle.
Qed.

Lemma sort_insert_sorted (x : Label) (l : list Label) :
  (forall h, h ∈ l -> toString x <> toString h) ->
  Sorted before l -> Sorted before (sort_insert x l).
Proof.
  intros Hx Hs. induction Hs as [|h t Hs IH Hhd]; cbn [sort_insert].
  - repeat constructor.
  - destruct (String.ltb (toString x) (toString h)) eqn:E.
    + constructor; [now constructor|]. now constructor.
    + assert (Hhx : before h x).
      { destruct (before_total x h) as [H|H]; [apply Hx; now left| |assumption].
        unfold before in H. congruence. }
      constructor; [apply IH; intros h' Hh'; apply Hx; now right|].
      destruct Hhd as [|h' t' Hh']; cbn [sort_insert]; [now constructor|].
      destruct (String.ltb (toString x) (toString h')); now constructor.
Qed.

Lemma sort_sorted (l acc : list Label) :
  NoDup (acc ++ l) -> distinct_strings (acc ++ l) -> Sorted before acc ->
  Sorted before (fold_left (fun sorted x => sort_insert x sorted) l acc).
Proof.
  revert acc; induction l as [|x l IH]; intros acc Hnd Hds Hs; cbn [fold_left];
    [assumption|].
  assert (Hp : sort_insert x acc ++ l ≡ₚ acc ++ x :: l).
  { rewrite sort_insert_perm. cbn. apply Permutation_middle. }
  apply IH.
  - now rewrite Hp.
  - apply (distinct_strings_incl (acc ++ x :: l)); [|assumption].
    intros c. now rewrite Hp.
  - apply sort_insert_sorted; [|assumption].
    intros h Hh Heq.
    assert (x = h).
    { apply Hds; [|now apply elem_of_app; left|assumption].
      apply elem_of_app. right. now left. }
    subst h. apply NoDup_app in Hnd as (_ & Hd & _). apply (Hd x Hh). now left.
Qed.

(** ** The catalog: [[...new Set(y)].sort()] *)

Lemma catalog_perm (y : list Label) : sort (Set_values y) ≡ₚ Set_values y.
Proof. unfold sort. now rewrite sort_perm. Qed.

Lemma elem_of_catalog (y : list Label) (c : Label) :
  c ∈ sort (Set_values y) <-> c ∈ y.
Proof. rewrite catalog_perm. apply elem_of_Set_values. Qed.

Lemma NoDup_catalog (y : list Label) : NoDup (sort (Set_values y)).
Proof. rewrite catalog_perm. apply NoDup_Set_values. Qed.

Lemma catalog_nonempty (y : list Label) : y <> [] -> sort (Set_values y) <> [].
Proof.
  destruct y as [|l y]; [congruence|]. intros _ H.
  assert (Hl : l ∈ sort (Set_values (l :: y))) by (apply elem_of_catalog; now left).
  rewrite H in Hl. now apply elem_of_nil in Hl.
Qed.

Lemma catalog_sorted (y : list Label) :
  distinct_strings y -> Sorted before (sort (Set_values y)).
Proof.
  intros Hds. unfold sort. apply sort_sorted; cbn [app].
  - apply NoDup_Set_values.
  - apply (distinct_strings_incl y); [|assumption].
    intros c. apply elem_of_Set_values.
  - constructor.
Qed.

Lemma catalog_unique (y y' : list Label) :
  (forall c, c ∈ y <-> c ∈ y') -> distinct_strings y ->
  sort (Set_values y) = sort (Set_values y').
Proof.
  intros H Hds. apply (Sorted_unique before).
  - now apply catalog_sorted.
  - apply catalog_sorted. apply (distinct_strings_incl y); [|assumption].
    intros c. apply H.
  - apply NoDup_Permutation; try apply NoDup_catalog.
    intros c. now rewrite !elem_of_catalog.
Qed.

End Labels.

End JSFacts.

Import JSFacts.

(* ===================================================================== *)
(** * Tensor operations *)
(* ===================================================================== *)

Module TFFacts.

Lemma map_throwing_Ok {A B} (g : A -> B) (l : list A) :
  map_throwing (fun x => Ok (g x)) l = Ok (map g l).
Proof. induction l as [|x l IH]; cbn; [reflexivity|]. now rewrite IH. Qed.

Lemma map_throwing_ext {A B} (f g : A -> result B) (l : list A) :
  (forall x, x ∈ l -> f x = g x) -> map_throwing f l = map_throwing g l.
Proof.
  induction l as [|x l IH]; intros H; cbn; [reflexivity|].
  rewrite H by (now left). rewrite IH; [reflexivity|].
  intros z Hz. apply H. now right.
Qed.

Lemma broadcast_same {A B C} (f : A -> B -> result C) (a : list A) (b : list B) :
  length a = length b ->
  broadcast f a b = map_throwing (fun xy => f (fst xy) (snd xy)) (zip_with pair a b).
Proof. intros H. unfold broadcast. now rewrite H, Nat.eqb_refl. Qed.

Lemma broadcast_one_r {A B C} (f : A -> B -> result C) (a : list A) (y : B) :
  broadcast f a [y] = map_throwing (fun x => f x y) a.
Proof.
  unfold broadcast. destruct a as [|x [|x' a]]; reflexivity.
Qed.

Lemma broadcast_one_l {A B C} (f : A -> B -> result C) (x : A) (b : list B) :
  broadcast f [x] b = map_throwing (f x) b.
Proof.
  unfold broadcast. destruct b as [|y [|y' b]]; reflexivity.
Qed.

Lemma map_throwing_zip_Ok {A B C} (g : A -> B -> C) (a : list A) (b : list B) :
  map_throwing (fun xy => Ok (g (fst xy) (snd xy))) (zip_with pair a b)
  = Ok (zip_with g a b).
Proof.
  rewrite map_throwing_Ok. f_equal.
  revert b; induction a as [|x a IH]; intros [|y b]; cbn; try reflexivity.
  now rewrite IH.
Qed.

(** A matrix against a scalar. *)
Lemma binary_op_scalar_r (f : number -> number -> number) (a : Tensor2D) (s : float32) :
  binary_op f a (of_scalar s) = Ok (map (map (fun x => kernel2 f x s)) a).
Proof.
  unfold binary_op, of_scalar. rewrite broadcast_one_r.
  rewrite <- map_throwing_Ok. apply map_throwing_ext. intros row _.
  rewrite broadcast_one_r. apply map_throwing_Ok.
Qed.

Lemma binary_op_scalar_l (f : number -> number -> number) (s : float32) (b : Tensor2D) :
  binary_op f (of_scalar s) b = Ok (map (map (fun y => kernel2 f s y)) b).
Proof.
  unfold binary_op, of_scalar. rewrite broadcast_one_l.
  rewrite <- map_throwing_Ok. apply map_throwing_ext. intros row _.
  rewrite broadcast_one_l. apply map_throwing_Ok.
Qed.

(** A matrix against a vector as long as its rows. *)
Lemma binary_op_row_r (f : number -> number -> number) (a : Tensor2D) (v : Tensor1D) :
  Forall (fun row => length row = length v) a ->
  binary_op f a (of_1d v) = Ok (map (fun row => zip_with (kernel2 f) row v) a).
Proof.
  intros Ha. unfold binary_op, of_1d. rewrite broadcast_one_r.
  rewrite <- map_throwing_Ok. apply map_throwing_ext. intros row Hrow.
  rewrite Forall_forall in Ha. rewrite broadcast_same by now apply Ha.
  apply map_throwing_zip_Ok.
Qed.

Lemma binary_op_row_l (f : number -> number -> number) (v : Tensor1D) (b : Tensor2D) :
  Forall (fun row => length row = length v) b ->
  binary_op f (of_1d v) b = Ok (map (fun row => zip_with (kernel2 f) v row) b).
Proof.
  intros Hb. unfold binary_op, of_1d. rewrite broadcast_one_l.
  rewrite <- map_throwing_Ok. apply map_throwing_ext. intros row Hrow.
  rewrite Forall_forall in Hb. rewrite broadcast_same by (symmetry; now apply Hb).
  apply map_throwing_zip_Ok.
Qed.

(** Two matrices of one shape. *)
Lemma binary_op_same (f : number -> number -> number) (a b : Tensor2D) :
  Forall2 (fun ra rb => length ra = length rb) a b ->
  binary_op f a b = Ok (zip_with (zip_with (kernel2 f)) a b).
Proof.
  intros Hab. unfold binary_op.
  rewrite broadcast_same by (eapply Forall2_length; eassumption).
  induction Hab as [|ra rb a b Hr Hab IH]; cbn; [reflexivity|].
  rewrite broadcast_same by assumption. rewrite map_throwing_zip_Ok. cbn.
  now rewrite IH.
Qed.


(** ** Columns *)

Lemma rectangular_rows {A} (t : list (list A)) :
  rectangular t = true <-> t <> [] /\ rows_of_length (length (hd [] t)) t.
Proof.
  unfold rectangular, rows_of_length. destruct t as [|r0 t]; [split; [discriminate|tauto]|].
  rewrite forallb_forall, Forall_forall. cbn [hd]. split.
  - intros H. split; [discriminate|]. intros r Hr.
    apply Nat.eqb_eq, H. now apply list_elem_of_In.
  - intros [_ H] r Hr. apply Nat.eqb_eq, H. now apply list_elem_of_In.
Qed.

Lemma shape_rows (f : nat) (t : Tensor2D) :
  t <> [] -> rows_of_length f t -> shape t = (length t, f).
Proof.
  intros Hne Hr. unfold shape. destruct t as [|r0 t]; [congruence|].
  cbn [hd]. now inversion Hr; subst.
Qed.

Lemma nth_map_in {A B} (g : A -> B) (l : list A) (j : nat) (d : A) (d' : B) :
  (j < length l)%nat -> nth j (map g l) d' = g (nth j l d).
Proof.
  intros Hj. rewrite (nth_indep _ d' (g d)) by now rewrite length_map.
  apply map_nth.
Qed.

Lemma nth_zip_with {A B C} (g : A -> B -> C) (a : list A) (b : list B)
    (j : nat) (da : A) (db : B) (dc : C) :
  (j < length a)%nat -> (j < length b)%nat ->
  nth j (zip_with g a b) dc = g (nth j a da) (nth j b db).
Proof.
  revert b j; induction a as [|x a IH]; intros [|y b] [|j] Ha Hb; cbn in *; try lia.
  - reflexivity.
  - apply IH; lia.
Qed.

Lemma column_map (g : float32 -> float32) (f j : nat) (t : Tensor2D) :
  rows_of_length f t -> (j < f)%nat ->
  column j (map (map g) t) = map g (column j t).
Proof.
  intros Hr Hj. unfold column. rewrite !map_map.
  apply map_ext_in. intros row Hrow.
  apply nth_map_in. unfold rows_of_length in Hr. rewrite Forall_forall in Hr.
  rewrite (Hr row); [assumption|]. now apply list_elem_of_In.
Qed.

Lemma column_zip_with (g : float32 -> float32 -> float32) (f j : nat)
    (t : Tensor2D) (v : Tensor1D) :
  rows_of_length f t -> length v = f -> (j < f)%nat ->
  column j (map (fun row => zip_with g row v) t)
  = map (fun x => g x (nth j v NaN)) (column j t).
Proof.
  intros Hr Hv Hj. unfold column. rewrite !map_map.
  apply map_ext_in. intros row Hrow.
  unfold rows_of_length in Hr. rewrite Forall_forall in Hr.
  apply nth_zip_with; [rewrite (Hr row); [assumption|now apply list_elem_of_In]|lia].
Qed.

Lemma length_column (j : nat) (t : Tensor2D) : length (column j t) = length t.
Proof. apply length_map. Qed.

Lemma rows_of_length_map {A B} (g : A -> B) (f : nat) (t : list (list A)) :
  rows_of_length f t -> rows_of_length f (map (map g) t).
Proof.
  unfold rows_of_length. rewrite !Forall_forall. intros H row Hrow.
  apply list_elem_of_In, in_map_iff in Hrow as (r & <- & Hr).
  rewrite length_map. now apply H, list_elem_of_In.
Qed.

(** ** Moments *)

Lemma mean_0_spec (f : nat) (t : Tensor2D) :
  t <> [] -> rows_of_length f t ->
  mean_0 t = Ok (map (fun j => Spec.sample_mean (column j t)) (seq 0 f)).
Proof.
  intros Hne Hr. unfold mean_0, tf_div. rewrite binary_op_scalar_r. cbn [bind].
  f_equal. unfold sum_0.
  rewrite (shape_rows f); [|now destruct t|now apply rows_of_length_map].
  cbn [snd]. apply map_ext_in. intros j Hj. apply in_seq in Hj.
  rewrite (column_map _ f) by (assumption || lia).
  unfold Spec.sample_mean. now rewrite length_column.
Qed.

Lemma moments_spec (f : nat) (t : Tensor2D) :
  t <> [] -> rows_of_length f t ->
  moments t = Ok (map (fun j => Spec.sample_mean (column j t)) (seq 0 f),
                  map (fun j => Spec.population_variance (column j t)) (seq 0 f)).
Proof.
  intros Hne Hr. unfold moments. rewrite (mean_0_spec f) by assumption. cbn [bind].
  set (mean := map _ (seq 0 f)).
  assert (Hmean : length mean = f) by (unfold mean; now rewrite length_map, length_seq).
  unfold tf_sub. rewrite binary_op_row_r
    by (unfold rows_of_length in Hr; rewrite Hmean; exact Hr).
  cbn [bind]. unfold tf_square, unary_op.
  rewrite (mean_0_spec f).
  - cbn [bind]. do 2 f_equal. apply map_ext_in. intros j Hj. apply in_seq in Hj.
    rewrite (column_map _ f); [| |lia].
    + rewrite (column_zip_with _ f) by (assumption || lia).
      unfold Spec.population_variance. rewrite map_map.
      replace (nth j mean NaN) with (Spec.sample_mean (column j t)); [reflexivity|].
      unfold mean. rewrite (nth_map_in _ _ _ 0%nat) by (rewrite length_seq; lia).
      now rewrite seq_nth by lia.
    + unfold rows_of_length in *. rewrite Forall_forall in *. intros row Hrow.
      apply list_elem_of_In, in_map_iff in Hrow as (r & <- & Hin).
      rewrite length_zip_with, Hmean, (Hr r); [lia|now apply list_elem_of_In].
  - now destruct t.
  - apply rows_of_length_map.
    unfold rows_of_length in *. rewrite Forall_forall in *. intros row Hrow.
    apply list_elem_of_In, in_map_iff in Hrow as (r & <- & Hin).
    rewrite length_zip_with, Hmean, (Hr r); [lia|now apply list_elem_of_In].
Qed.

End TFFacts.

Import TFFacts.

(* ===================================================================== *)
(** * Fitting *)
(* ===================================================================== *)

Module FitFacts.
Import GaussianNB.

Section Labels.
Context {T : Type} {T_eq : EqDecision T} {T_str : ToString T}.
#[local] Abbreviation Label := T.

Lemma validateFitInputs_Ok (X : list (list number)) (y : list Label) :
  validateFitInputs X y = Ok tt <->
  length X = length y /\ X <> [] /\ rows_of_length (Spec.numFeatures X) X
  /\ (0 < Spec.numFeatures X)%nat.
Proof.
  unfold validateFitInputs, Spec.numFeatures.
  destruct X as [|row X]; [split; [discriminate|intros (_ & ? & _); congruence]|].
  destruct y as [|l y]; [split; [discriminate|intros (? & _); discriminate]|].
  destruct (Nat.eqb_spec (length (row :: X)) (length (l :: y))) as [Hlen|Hlen]; cbn [negb].
  2: { split; [discriminate|tauto]. }
  destruct (rectangular (row :: X)) eqn:Hrect; cbn [negb].
  2: { split; [discriminate|]. intros (_ & _ & Hr & _).
       assert (rectangular (row :: X) = true) by (apply rectangular_rows; split; [discriminate|exact Hr]).
       congruence. }
  apply rectangular_rows in Hrect as [_ Hrect]. cbn [hd] in *.
  destruct (Nat.eqb_spec (length row) 0) as [H0|H0].
  - split; [discriminate|]. intros (_ & _ & _ & ?). lia.
  - split; [|reflexivity]. intros _. repeat split; try assumption; try discriminate. lia.
Qed.

(** ** Grouping *)

Lemma zip_same_length {A B} (xs : list A) (ys : list B) :
  length xs = length ys ->
  zip xs ys = map (fun p => (Some (fst p), Some (snd p))) (zip_with pair xs ys).
Proof.
  revert ys; induction xs as [|x xs IH]; intros [|y ys] H; cbn in *; try discriminate;
    [reflexivity|]. f_equal. apply IH. lia.
Qed.

Lemma reduce_Throw {A B} (f : B -> A -> result B) (xs : list A) (e : exn) :
  fold_left (fun acc x => let* b := acc in f b x) xs (Throw e) = Throw e.
Proof. induction xs as [|x xs IH]; cbn; [reflexivity|exact IH]. Qed.

Lemma reduce_cons {A B} (f : B -> A -> result B) (x : A) (xs : list A) (init : B) :
  reduce f (x :: xs) init = let* b := f init x in reduce f xs b.
Proof.
  unfold reduce. cbn [fold_left bind]. destruct (f init x); cbn [bind]; [reflexivity|].
  apply reduce_Throw.
Qed.

(** The callback on a label whose string [groups] does not inherit. *)
Lemma group_step_Ok (groups : gmap string (list (option (list number))))
    (row : list number) (category : Label) :
  toString category ∉ Object_prototype_names ->
  group_step groups (Some row, Some category)
  = Ok (<[toString category :=
            default [] (groups !! toString category) ++ [Some row]]> groups).
Proof.
  intros Hname. cbn [group_step defined bind]. unfold get.
  destruct (groups !! toString category); [reflexivity|].
  now rewrite bool_decide_eq_false_2.
Qed.

(** The callback on a label whose string is the name of an inherited
    property that [groups] does not have as its own. *)
Lemma group_step_Inherited (groups : gmap string (list (option (list number))))
    (row : option (list number)) (category : Label) :
  toString category ∈ Object_prototype_names ->
  groups !! toString category = None ->
  group_step groups (row, Some category) = Throw TypeError.
Proof.
  intros Hname Hown. cbn [group_step defined bind]. unfold get.
  now rewrite Hown, bool_decide_eq_true_2.
Qed.

Lemma reduce_group_step (pairs : list (list number * Label))
    (init : gmap string (list (option (list number)))) :
  no_inherited_name (map snd pairs) ->
  exists groups,
    reduce group_step (map (fun p => (Some (fst p), Some (snd p))) pairs) init = Ok groups
    /\ forall key,
         groups !! key =
         match init !! key, rows_under key pairs with
         | None, [] => None
         | start, rows => Some (default [] start ++ map Some rows)
         end.
Proof.
  unfold no_inherited_name.
  revert init; induction pairs as [|[row category] pairs IH]; intros init Hnames.
  - exists init. split; [reflexivity|]. intros key. cbn.
    destruct (init !! key); cbn; [now rewrite app_nil_r|reflexivity].
  - cbn [map fst snd] in Hnames |- *. apply Forall_cons in Hnames as [Hname Hnames].
    rewrite reduce_cons, group_step_Ok by assumption. cbn [bind].
    destruct (IH (<[toString category := default [] (init !! toString category) ++ [Some row]]> init)
                Hnames) as (groups & -> & Hgroups).
    exists groups. split; [reflexivity|]. intros key. rewrite Hgroups.
    unfold rows_under. rewrite filter_cons. cbn [snd].
    destruct (decide (toString category = key)) as [->|Hne].
    + rewrite lookup_insert_eq. cbn [map fst default].
      destruct (init !! key); cbn; [rewrite <- app_assoc|]; reflexivity.
    + rewrite lookup_insert_ne by assumption. reflexivity.
Qed.

(** The [reduce] on a label whose string is the name of an inherited
    property. *)
Lemma reduce_inherited (pairs : list (list number * Label))
    (init : gmap string (list (option (list number)))) :
  (forall key, key ∈ Object_prototype_names -> init !! key = None) ->
  ~ no_inherited_name (map snd pairs) ->
  reduce group_step (map (fun p => (Some (fst p), Some (snd p))) pairs) init
  = Throw TypeError.
Proof.
  unfold no_inherited_name.
  revert init; induction pairs as [|[row category] pairs IH]; intros init Hown Hnames.
  - destruct Hnames. constructor.
  - cbn [map fst snd] in Hnames |- *. rewrite reduce_cons.
    destruct (decide (toString category ∈ Object_prototype_names)) as [Hin|Hout].
    + rewrite group_step_Inherited; [reflexivity|assumption|now apply Hown].
    + rewrite group_step_Ok by assumption. cbn [bind]. apply IH.
      * intros key Hkey. rewrite lookup_insert_ne; [now apply Hown|].
        intros <-. contradiction.
      * intros H. apply Hnames. now constructor.
Qed.

(** What the object holds under the string of a label. *)
Lemma get_group (groups : gmap string (list (option (list number))))
    (key : string) (rows : list (option (list number))) :
  groups !! key = Some rows -> get groups key = Some (Rows rows).
Proof. intros H. unfold get. now rewrite H. Qed.

Lemma as_matrix_Some (rows : list (list number)) :
  as_matrix (Some (Rows (map Some rows))) = Ok rows.
Proof.
  cbn. induction rows as [|r rows IH]; cbn; [reflexivity|]. now rewrite IH.
Qed.

Lemma class_rows_map (X : list (list number)) (y : list Label) (c : Label) :
  Spec.class_rows X y c
  = map (map fround) (rows_under (toString c) (zip_with pair X y)).
Proof. unfold Spec.class_rows, rows_under. now rewrite map_map. Qed.

(** For labels with different strings, the rows under the string of a
    label are the rows with that label. *)
Lemma class_rows_labelled (X : list (list number)) (y : list Label) (c : Label) :
  distinct_strings y -> c ∈ y ->
  filter (fun p => toString (snd p) = toString c) (zip_with pair X y)
  = filter (fun p => snd p = c) (zip_with pair X y).
Proof.
  intros Hds Hc.
  assert (H : forall pairs : list (list number * Label),
            Forall (fun p => snd p ∈ y) pairs ->
            filter (fun p => toString (snd p) = toString c) pairs
            = filter (fun p => snd p = c) pairs).
  { induction 1 as [|p pairs Hp _ IH]; [reflexivity|].
    rewrite !filter_cons, IH.
    destruct (decide (toString p.2 = toString c)) as [Hs|Hs], (decide (p.2 = c)) as [He|He];
      try reflexivity.
    - destruct He. now apply Hds.
    - destruct Hs. now rewrite He. }
  apply H. rewrite Forall_forall. intros [row l] Hp. cbn [snd].
  exact (elem_of_zip_r row l X y Hp).
Qed.

Lemma filter_label_nonempty (X : list (list number)) (y : list Label) (c : Label) :
  length X = length y -> c ∈ y ->
  filter (fun p => toString (snd p) = toString c) (zip_with pair X y) <> [].
Proof.
  revert y; induction X as [|row X IH]; intros [|l y] Hlen Hc;
    cbn [length zip_with] in *; try discriminate.
  - now apply elem_of_nil in Hc.
  - rewrite filter_cons. cbn [snd].
    destruct (decide (toString l = toString c)) as [|Hne]; [discriminate|].
    apply elem_of_cons in Hc as [->|Hc]; [congruence|]. apply IH; [lia|assumption].
Qed.

Lemma filter_rows_of_length {A} (f : nat) (X : list (list A)) (y : list Label)
    (P : list A * Label -> Prop) `{forall p, Decision (P p)} :
  rows_of_length f X ->
  rows_of_length f (map fst (filter P (zip_with pair X y))).
Proof.
  unfold rows_of_length. rewrite !Forall_forall. intros HX row Hrow.
  apply list_elem_of_In, in_map_iff in Hrow as ([r l] & <- & Hin).
  apply list_elem_of_In, list_elem_of_filter in Hin as [_ Hin].
  apply elem_of_zip_l in Hin. now apply HX.
Qed.

(** ** [fitModel] in closed form *)

Lemma class_moments (X : list (list number)) (y : list Label)
    (groups : gmap string (list (option (list number)))) (c : Label) :
  length X = length y -> rows_of_length (Spec.numFeatures X) X -> c ∈ y ->
  (forall key,
     groups !! key =
     match (∅ : gmap string (list (option (list number)))) !! key,
           rows_under key (zip_with pair X y) with
     | None, [] => None
     | start, rows => Some (default [] start ++ map Some rows)
     end) ->
  (let* values := as_matrix (get groups (toString c)) in
   let* classFeatures := tensor2d values in
   moments classFeatures)
  = Ok (map (fun j => Spec.sample_mean (column j (Spec.class_rows X y c)))
            (seq 0 (Spec.numFeatures X)),
        map (fun j => Spec.population_variance (column j (Spec.class_rows X y c)))
            (seq 0 (Spec.numFeatures X))).
Proof.
  intros Hlen Hrect Hc Hgroups.
  set (rows := rows_under (toString c) (zip_with pair X y)).
  assert (Hne : rows <> []).
  { unfold rows, rows_under. intros H. apply map_eq_nil in H.
    now apply (filter_label_nonempty X y c). }
  assert (Hrows : rows_of_length (Spec.numFeatures X) rows)
    by now apply filter_rows_of_length.
  assert (Hget : get groups (toString c) = Some (Rows (map Some rows))).
  { apply get_group. rewrite Hgroups, lookup_empty. fold rows.
    destruct rows; [congruence|reflexivity]. }
  rewrite Hget, as_matrix_Some. cbn [bind]. unfold tensor2d.
  assert (Hr : rectangular rows = true).
  { apply rectangular_rows. split; [assumption|].
    destruct rows as [|r0 rows']; [congruence|]. cbn [hd].
    inversion Hrows; subst. congruence. }
  rewrite Hr. cbn [bind].
  rewrite class_rows_map. fold rows.
  apply moments_spec.
  - destruct rows; [congruence|discriminate].
  - now apply rows_of_length_map.
Qed.

Lemma per_class_rows (moment : list float32 -> float32)
    (X : list (list number)) (y : list Label) (catalog : list Label) :
  rows_of_length (Spec.numFeatures X) (Spec.per_class moment X y catalog).
Proof.
  unfold rows_of_length, Spec.per_class. rewrite Forall_forall. intros row Hrow.
  apply list_elem_of_In, in_map_iff in Hrow as (c & <- & _).
  now rewrite length_map, length_seq.
Qed.

Lemma length_per_class (moment : list float32 -> float32)
    (X : list (list number)) (y : list Label) (catalog : list Label) :
  length (Spec.per_class moment X y catalog) = length catalog.
Proof. apply length_map. Qed.

Lemma rectangular_per_class (moment : list float32 -> float32)
    (X : list (list number)) (y : list Label) (catalog : list Label) :
  catalog <> [] -> rectangular (Spec.per_class moment X y catalog) = true.
Proof.
  intros Hne. apply rectangular_rows.
  pose proof (per_class_rows moment X y catalog) as Hrows.
  destruct catalog as [|c catalog]; [congruence|].
  split; [discriminate|]. cbn [Spec.per_class map hd] in *.
  now rewrite length_map, length_seq.
Qed.

Theorem fitModel_closed_form (X : list (list number)) (y : list Label) :
  validateFitInputs X y = Ok tt -> no_inherited_name y ->
  fitModel X y
  = Ok {| FitModel.classCategories := sort (Set_values y);
          FitModel.mean := Spec.mean_matrix X y (sort (Set_values y));
          FitModel.variance := Spec.variance_matrix X y (sort (Set_values y)) |}.
Proof.
  intros Hvalid Hnames. apply validateFitInputs_Ok in Hvalid as (Hlen & HX & Hrect & Hf).
  unfold fitModel. rewrite zip_same_length by assumption.
  destruct (reduce_group_step (zip_with pair X y) ∅) as (groups & -> & Hgroups).
  { now rewrite snd_zip by lia. }
  cbn [bind].
  rewrite (map_throwing_ext _
    (fun c => Ok (map (fun j => Spec.sample_mean (column j (Spec.class_rows X y c)))
                      (seq 0 (Spec.numFeatures X)),
                  map (fun j => Spec.population_variance (column j (Spec.class_rows X y c)))
                      (seq 0 (Spec.numFeatures X))))).
  2: { intros c Hc. rewrite elem_of_catalog in Hc. apply class_moments; assumption. }
  rewrite map_throwing_Ok. cbn [bind]. rewrite !map_map. cbn [fst snd].
  assert (Hcat : sort (Set_values y) <> []).
  { apply catalog_nonempty. destruct y; [|discriminate]. destruct X; cbn in *; congruence. }
  unfold stack.
  change (map _ (sort (Set_values y))) with (Spec.mean_matrix X y (sort (Set_values y))) at 1.
  unfold Spec.mean_matrix at 1. rewrite rectangular_per_class by assumption. cbn [bind].
  change (map _ (sort (Set_values y))) with (Spec.variance_matrix X y (sort (Set_values y))) at 1.
  unfold Spec.variance_matrix at 1. rewrite rectangular_per_class by assumption.
  reflexivity.
Qed.

(** A label with the name of an inherited property ends [fitModel]. *)
Theorem fitModel_inherited (X : list (list number)) (y : list Label) :
  length X = length y -> ~ no_inherited_name y ->
  fitModel X y = Throw TypeError.
Proof.
  intros Hlen Hnames. unfold fitModel. rewrite zip_same_length by assumption.
  rewrite reduce_inherited; [reflexivity|intros key _; apply lookup_empty|].
  now rewrite snd_zip by lia.
Qed.

End Labels.

End FitFacts.

Import FitFacts.

(* ===================================================================== *)
(** * Numbers of a single-sample class *)
(* ===================================================================== *)

Module NumberFacts.
Import Rounding.
#[local] Open Scope Z_scope.

Lemma fround_float32 (x : number) : is_float32 (fround x) = true.
Proof.
  destruct x as [s|s| |s m e]; try reflexivity.
  apply binary_round_valid; lia.
Qed.

Lemma widen_number (x : float32) : is_number (widen x) = true.
Proof.
  destruct x as [s|s| |s m e]; try reflexivity.
  apply binary_round_valid; lia.
Qed.

(** A float32 value read as a number: the number, and what storing it
    again gives. *)
Lemma widen_finite (s : bool) (m : positive) (e : Z) :
  is_float32 (S754_finite s m e) = true ->
  exists m' e', widen (S754_finite s m e) = S754_finite s m' e'
                /\ bounded 53 1024 m' e' = true
                /\ fround (S754_finite s m' e') = S754_finite s m e.
Proof.
  intros Hv. cbn [is_float32 valid_binary] in Hv.
  destruct (round_trip_formats 24 128 53 1024 s m e) as (m' & e' & Hw & Hf);
    try lia; [assumption|].
  exists m', e'. split; [exact Hw|]. split; [|exact Hf].
  pose proof (widen_number (S754_finite s m e)) as Hn.
  cbn [widen] in Hn. rewrite Hw in Hn. exact Hn.
Qed.

Theorem fround_widen (x : float32) : is_float32 x = true -> fround (widen x) = x.
Proof.
  destruct x as [s|s| |s m e]; try reflexivity. intros Hv.
  destruct (widen_finite s m e Hv) as (m' & e' & -> & _ & Hf). exact Hf.
Qed.

Lemma widen_one : widen (scalar (of_nat 1)) = S754_finite false 4503599627370496 (-52).
Proof. reflexivity. Qed.

(** [x / 1] on float32 data. *)
Lemma kernel2_div_one (x : float32) :
  is_float32 x = true -> is_finite x = true ->
  kernel2 div x (scalar (of_nat 1)) = x.
Proof.
  intros Hv Hfin. unfold kernel2. rewrite widen_one.
  destruct x as [s|s| |s m e]; try discriminate.
  - cbn. now destruct s.
  - destruct (widen_finite s m e Hv) as (m' & e' & -> & Hb & Hf).
    unfold div. rewrite (SFdiv_one 53 1024) by (try lia; try assumption; reflexivity).
    exact Hf.
Qed.

Lemma reduce_sum_single (x : float32) :
  is_float32 x = true -> is_finite x = true ->
  reduce_sum [x] = if is_zero x then zero else x.
Proof.
  intros Hv Hfin. unfold reduce_sum. cbn [fold_left].
  destruct x as [s|s| |s m e]; try discriminate.
  - cbn. now destruct s.
  - destruct (widen_finite s m e Hv) as (m' & e' & -> & Hb & Hf).
    cbn [add SFadd zero is_zero]. exact Hf.
Qed.

Lemma sample_mean_single (x : float32) :
  is_float32 x = true -> is_finite x = true ->
  Spec.sample_mean [x] = if is_zero x then zero else x.
Proof.
  intros Hv Hfin. unfold Spec.sample_mean. cbn [length map].
  rewrite kernel2_div_one by assumption. now apply reduce_sum_single.
Qed.

Lemma sub_self_finite (s : bool) (m : positive) (e : Z) :
  sub (S754_finite s m e) (S754_finite s m e) = zero.
Proof.
  unfold sub. cbn [SFsub]. rewrite Z.sub_diag. reflexivity.
Qed.

(** The deviation of a single value from its own mean, squared. *)
Lemma squared_deviation_single (x : float32) :
  is_float32 x = true -> is_finite x = true ->
  kernel1 (fun d => mul d d) (kernel2 sub x (Spec.sample_mean [x])) = zero.
Proof.
  intros Hv Hfin. rewrite sample_mean_single by assumption.
  destruct x as [s|s| |s m e]; try discriminate.
  - cbn. now destruct s.
  - cbn [is_zero]. unfold kernel2.
    destruct (widen_finite s m e Hv) as (m' & e' & -> & Hb & Hf).
    rewrite sub_self_finite. reflexivity.
Qed.

Theorem population_variance_single (x : float32) :
  is_float32 x = true -> is_finite x = true ->
  Spec.population_variance [x] = zero.
Proof.
  intros Hv Hfin. unfold Spec.population_variance. cbn [map].
  rewrite squared_deviation_single by assumption.
  now rewrite sample_mean_single.
Qed.

End NumberFacts.

Import NumberFacts.

(* ===================================================================== *)
(** * Prediction and checkpoints *)
(* ===================================================================== *)

Module PredictFacts.
Import GaussianNB.

Section Labels.
Context {T : Type} {T_eq : EqDecision T} {T_str : ToString T}.
#[local] Abbreviation Label := T.
#[local] Abbreviation t := (GaussianNB.t T).

Lemma rows_of_length_Forall2 {A B} (f : nat) (a : list (list A)) (b : list (list B)) :
  rows_of_length f a -> rows_of_length f b -> length a = length b ->
  Forall2 (fun ra rb => length ra = length rb) a b.
Proof.
  intros Ha Hb Hlen. apply Forall2_same_length_lookup_2; [assumption|].
  intros i ra rb Hra Hrb.
  unfold rows_of_length in Ha, Hb.
  rewrite Forall_lookup in Ha. rewrite Forall_lookup in Hb.
  rewrite (Ha i ra Hra), (Hb i rb Hrb). reflexivity.
Qed.

Lemma rows_of_length_zip_with_l {A B C} (g : A -> B -> C) (f : nat)
    (x : list A) (t : list (list B)) :
  length x = f -> rows_of_length f t ->
  rows_of_length f (map (fun row => zip_with g x row) t).
Proof.
  intros Hx. unfold rows_of_length. rewrite !Forall_forall. intros H row Hrow.
  apply list_elem_of_In, in_map_iff in Hrow as (r & <- & Hr).
  rewrite length_zip_with, (H r) by (now apply list_elem_of_In). lia.
Qed.

Lemma rows_of_length_zip_with {A B C} (g : A -> B -> C) (f : nat)
    (a : list (list A)) (b : list (list B)) :
  rows_of_length f a -> rows_of_length f b ->
  rows_of_length f (zip_with (zip_with g) a b).
Proof.
  intros Ha Hb. unfold rows_of_length in Ha, Hb |- *.
  rewrite Forall_lookup in Ha. rewrite Forall_lookup in Hb. rewrite Forall_lookup.
  intros i row Hrow.
  apply lookup_zip_with_Some in Hrow as (ra & rb & -> & Hra & Hrb).
  rewrite length_zip_with, (Ha i ra Hra), (Hb i rb Hrb). lia.
Qed.

Section WithExp.
Variable Math_exp : number -> number.

Lemma row_densities_fused (x mrow vrow : list float32) :
  zip_with (kernel2 mul)
    (map (fun y => kernel2 div (scalar (of_Z 1)) y)
       (map (fun y => kernel2 mul (scalar SQRT_2PI) y) (map (kernel1 Math_sqrt) vrow)))
    (map (kernel1 Math_exp)
       (zip_with (kernel2 div)
          (map (fun e => kernel2 mul e (scalar (of_Z (-1))))
             (map (kernel1 Math_pow_2) (zip_with (kernel2 sub) x mrow)))
          (map (fun v => kernel2 mul v (scalar (of_Z 2))) vrow)))
  = Spec.row_densities Math_exp x mrow vrow.
Proof.
  unfold Spec.row_densities.
  revert mrow vrow; induction x as [|xj x IH]; intros [|m mrow] [|v vrow];
    cbn [zip_with map]; try reflexivity.
  f_equal. apply IH.
Qed.

Lemma probabilityArray_closed_form (f : nat) (M V : Tensor2D) (x : Tensor1D) :
  rows_of_length f M -> rows_of_length f V -> length M = length V -> length x = f ->
  probabilityArray Math_exp M V x = Ok (zip_with (Spec.row_densities Math_exp x) M V).
Proof.
  intros HM HV Hlen Hx. unfold probabilityArray, tf_sub, tf_mul, tf_div, tf_exp,
    tf_pow_2, tf_sqrt, unary_op.
  rewrite binary_op_row_l by (rewrite Hx; exact HM). cbn [bind].
  rewrite binary_op_scalar_r. cbn [bind].
  rewrite binary_op_scalar_r. cbn [bind].
  rewrite binary_op_same.
  2: { apply (rows_of_length_Forall2 f).
       - do 2 apply rows_of_length_map. now apply rows_of_length_zip_with_l.
       - now apply rows_of_length_map.
       - now rewrite !length_map. }
  cbn [bind]. rewrite binary_op_scalar_l. cbn [bind].
  rewrite binary_op_scalar_l. cbn [bind].
  rewrite binary_op_same.
  2: { apply (rows_of_length_Forall2 f).
       - now do 3 apply rows_of_length_map.
       - apply rows_of_length_map. apply rows_of_length_zip_with.
         + do 2 apply rows_of_length_map. now apply rows_of_length_zip_with_l.
         + now apply rows_of_length_map.
       - rewrite !length_map, length_zip_with, !length_map. lia. }
  f_equal. clear HM HV Hlen Hx.
  revert V; induction M as [|mrow M IH]; intros [|vrow V]; cbn [zip_with map]; try reflexivity.
  f_equal; [apply row_densities_fused|apply IH].
Qed.

(** ** argMax *)

Lemma argMax_loop (vals : list number) (max : number) (maxIndex j : nat) :
  let '(_, maxIndex', j') := fold_left argMax_step vals (max, maxIndex, j) in
  j' = (j + length vals)%nat
  /\ (maxIndex' = maxIndex \/ (j <= maxIndex' < j + length vals)%nat).
Proof.
  revert max maxIndex j; induction vals as [|v vals IH]; intros max maxIndex j.
  - cbn. lia.
  - cbn [fold_left argMax_step length]. destruct (gt v max).
    + specialize (IH v j (S j)). destruct (fold_left _ _ _) as [[? ?] ?]. lia.
    + specialize (IH max maxIndex (S j)). destruct (fold_left _ _ _) as [[? ?] ?]. lia.
Qed.

Lemma argMax_lt (t : Tensor1D) : t <> [] -> (argMax t < length t)%nat.
Proof.
  intros Hne. unfold argMax.
  pose proof (argMax_loop (map widen t) (hd NaN (map widen t)) 0 0) as H.
  destruct (fold_left _ _ _) as [[? maxIndex] ?]. cbn [fst snd].
  rewrite length_map in H. destruct t; [congruence|]. cbn [length] in *. lia.
Qed.

Lemma argMax_loop_NaN (vals : list number) (maxIndex j : nat) :
  snd (fst (fold_left argMax_step vals (NaN, maxIndex, j))) = maxIndex.
Proof.
  revert j; induction vals as [|v vals IH]; intros j; [reflexivity|].
  cbn [fold_left argMax_step]. replace (gt v NaN) with false by reflexivity.
  apply IH.
Qed.

(** The loop never leaves a first element that is NaN. *)
Lemma argMax_NaN_first (t : Tensor1D) : argMax (NaN :: t) = 0%nat.
Proof. unfold argMax. cbn [map widen NaN hd]. apply argMax_loop_NaN. Qed.

(** ** singlePredict *)

Lemma singlePredict_mismatch (this : t) (M : Tensor2D) (f : nat) (X : list number) :
  mean this = Some M -> M <> [] -> rows_of_length f M -> length X <> f ->
  singlePredict Math_exp this X
  = Throw (Error (dimension_message (length X) f)).
Proof.
  intros HM Hne Hrows Hlen. unfold singlePredict. rewrite HM. cbn [defined bind].
  rewrite (shape_rows f) by assumption. cbn [snd]. unfold tensor1d.
  rewrite length_map. destruct (Nat.eqb_spec (length X) f); [contradiction|reflexivity].
Qed.

Lemma singlePredict_closed_form (this : t) (categories : list Label)
    (M V : Tensor2D) (f : nat) (X : list number) :
  classCategories this = Some categories ->
  mean this = Some M -> variance this = Some V ->
  M <> [] -> rows_of_length f M -> rows_of_length f V -> length M = length V ->
  length X = f ->
  singlePredict Math_exp this X
  = Ok (categories !! argMax (prod_1 (zip_with (Spec.row_densities Math_exp (tensor1d X)) M V))).
Proof.
  intros Hc HM HV Hne HrM HrV Hlen HX. unfold singlePredict.
  rewrite HM, HV, Hc. cbn [defined bind].
  rewrite (shape_rows f) by assumption. cbn [snd]. unfold tensor1d at 1.
  rewrite length_map, HX, Nat.eqb_refl. cbn [negb]. unfold clone.
  rewrite (probabilityArray_closed_form f); try assumption; [reflexivity|].
  unfold tensor1d. now rewrite length_map.
Qed.

End WithExp.

(** ** Checkpoints *)

Lemma reshape_concat {A} (f : nat) (rows : list (list A)) :
  rows_of_length f rows -> reshape (concat rows) (length rows, f) = rows.
Proof.
  unfold reshape. induction 1 as [|row rows Hrow Hrows IH]; [reflexivity|].
  cbn [length concat]. rewrite <- cons_seq. cbn [map].
  f_equal.
  - rewrite Nat.mul_0_l, drop_0. rewrite take_app_length' by congruence. reflexivity.
  - rewrite <- seq_shift, map_map. rewrite <- IH at 2.
    apply map_ext. intros i. f_equal.
    replace (S i * f)%nat with (length row + i * f)%nat by lia.
    now rewrite drop_app_add'.
Qed.

Lemma map_fround_widen (t : Tensor2D) :
  all_float32 t -> map (map fround) (map (map widen) t) = t.
Proof.
  intros Ht. rewrite map_map. rewrite <- (map_id t) at 2.
  apply map_ext_in. intros row Hrow.
  unfold all_float32 in Ht. rewrite Forall_forall in Ht.
  specialize (Ht row ltac:(now apply list_elem_of_In)).
  rewrite map_map. rewrite <- (map_id row) at 2.
  apply map_ext_in. intros x Hx. rewrite Forall_forall in Ht.
  apply fround_widen, Ht. now apply list_elem_of_In.
Qed.

Lemma concat_map_map {A B} (g : A -> B) (t : list (list A)) :
  map g (concat t) = concat (map (map g) t).
Proof. induction t as [|row t IH]; cbn; [reflexivity|]. now rewrite map_app, IH. Qed.

(** What [toJSON] writes for a tensor, [tf.tensor2d] reads back. *)
Lemma tensor2d_reshape_dataSync (f : nat) (t : Tensor2D) :
  t <> [] -> rows_of_length f t -> all_float32 t ->
  tensor2d (reshape (dataSync t) (shape t)) = Ok t.
Proof.
  intros Hne Hrows Hfl. rewrite (shape_rows f) by assumption.
  unfold dataSync. rewrite concat_map_map.
  rewrite <- (length_map (map widen) t).
  rewrite reshape_concat by now apply rows_of_length_map.
  unfold tensor2d.
  assert (Hr : rectangular (map (map widen) t) = true).
  { apply rectangular_rows. split; [now destruct t|].
    destruct t as [|row t]; [congruence|]. cbn [map hd].
    apply (rows_of_length_map widen) in Hrows. cbn [map] in Hrows.
    inversion Hrows; subst. rewrite length_map in *. congruence. }
  rewrite Hr. now rewrite map_fround_widen.
Qed.

End Labels.

End PredictFacts.

Import PredictFacts.

(* ===================================================================== *)
(** * Densities without spread *)
(* ===================================================================== *)

Module DensityFacts.
#[local] Open Scope Z_scope.

Lemma mul_NaN_r (a : number) : mul a NaN = NaN.
Proof. now destruct a. Qed.

Lemma strict_eq_finite_inv (s1 s2 : bool) (m1 m2 : positive) (e1 e2 : Z) :
  strict_eq (S754_finite s1 m1 e1) (S754_finite s2 m2 e2) = true ->
  s1 = s2 /\ m1 = m2 /\ e1 = e2.
Proof.
  unfold strict_eq, SFeqb. cbn [SFcompare].
  destruct s1, s2; try discriminate;
    destruct (Z.compare e1 e2) eqn:Ee; try discriminate;
    destruct (Pos.compare_cont Eq m1 m2) eqn:Em; try discriminate;
    intros _; apply Z.compare_eq in Ee; apply Pos.compare_eq in Em; auto.
Qed.

Lemma strict_eq_finite_refl (s : bool) (m : positive) (e : Z) :
  strict_eq (S754_finite s m e) (S754_finite s m e) = true.
Proof.
  unfold strict_eq, SFeqb. cbn [SFcompare].
  rewrite Z.compare_refl. fold (Pos.compare m m). rewrite Pos.compare_refl.
  now destruct s.
Qed.

(** The difference of two numbers that compare equal is a zero, or NaN
    when they are the same infinity. *)
Lemma sub_eq (a b : number) :
  strict_eq a b = true -> is_zero (sub a b) = true \/ sub a b = NaN.
Proof.
  destruct a as [sa|sa| |sa ma ea], b as [sb|sb| |sb mb eb];
    try (unfold strict_eq, SFeqb; cbn [SFcompare]; try discriminate;
         try (destruct sa; discriminate); try (destruct sb; discriminate); fail).
  - intros _. left. now destruct sa, sb.
  - destruct sa, sb; try discriminate; intros _; now right.
  - intros H. apply strict_eq_finite_inv in H as (-> & -> & ->).
    left. now rewrite sub_self_finite.
Qed.

Lemma widen_minus_one :
  widen (scalar (of_Z (-1))) = S754_finite true 4503599627370496 (-52).
Proof. reflexivity. Qed.

Lemma widen_two :
  widen (scalar (of_Z 2)) = S754_finite false 4503599627370496 (-51).
Proof. reflexivity. Qed.

Lemma widen_scalar_one :
  widen (scalar (of_Z 1)) = S754_finite false 4503599627370496 (-52).
Proof. reflexivity. Qed.

Lemma widen_SQRT_2PI :
  widen (scalar GaussianNB.SQRT_2PI) = S754_finite false 5644425082437632 (-51).
Proof. vm_compute. reflexivity. Qed.

Section WithExp.
Variable Math_exp : number -> number.
Hypothesis Math_exp_NaN : Math_exp NaN = NaN.

(** [-0 / 0], or [NaN / 0]: the exponent of a class without spread, at
    its mean. *)
Lemma exponent_NaN (x m v : float32) :
  is_zero v = true -> strict_eq (widen x) (widen m) = true ->
  Spec.exponent Math_exp x m v = NaN.
Proof.
  intros Hv Heq. unfold Spec.exponent, kernel2, kernel1.
  rewrite widen_minus_one, widen_two.
  destruct v as [sv| | |]; try discriminate. cbn [widen].
  destruct (sub_eq _ _ Heq) as [Hz| ->].
  - destruct (sub (widen x) (widen m)) as [sd| | |]; try discriminate.
    cbn. fold NaN. now rewrite Math_exp_NaN.
  - cbn. fold NaN. now rewrite Math_exp_NaN.
Qed.

(** [1 / (sqrt(2 pi) * 0)]: the coefficient of a class without spread. *)
Lemma coefficient_infinity (v : float32) :
  is_zero v = true -> is_infinity (Spec.coefficient v) = true.
Proof.
  intros Hv. unfold Spec.coefficient, kernel2, kernel1.
  rewrite widen_scalar_one, widen_SQRT_2PI.
  destruct v as [sv| | |]; try discriminate. reflexivity.
Qed.

Lemma density_NaN (x m v : float32) :
  is_zero v = true -> strict_eq (widen x) (widen m) = true ->
  Spec.density Math_exp x m v = NaN.
Proof.
  intros Hv Heq. unfold Spec.density, kernel2.
  rewrite exponent_NaN by assumption. cbn [widen NaN].
  now rewrite mul_NaN_r.
Qed.

End WithExp.

(** A product with a NaN factor. *)
Lemma prod_loop_NaN (vals : list float32) :
  fold_left (fun acc v => mul acc (widen v)) vals NaN = NaN.
Proof. induction vals as [|v vals IH]; [reflexivity|exact IH]. Qed.

Lemma reduce_prod_NaN (vals : list float32) : NaN ∈ vals -> reduce_prod vals = NaN.
Proof.
  intros Hin. unfold reduce_prod. generalize one as acc.
  induction vals as [|v vals IH]; intros acc; [now apply elem_of_nil in Hin|].
  cbn [fold_left]. apply elem_of_cons in Hin as [<-|Hin].
  - cbn [widen NaN]. rewrite mul_NaN_r. now rewrite prod_loop_NaN.
  - now apply IH.
Qed.

End DensityFacts.

Import DensityFacts.

(* ===================================================================== *)
(** * The fitted instance *)
(* ===================================================================== *)

Module FittedFacts.
Import GaussianNB.

Section Labels.
Context {T : Type} {T_eq : EqDecision T} {T_str : ToString T}.
#[local] Abbreviation Label := T.
#[local] Abbreviation t := (GaussianNB.t T).

(** ** The instance after [fit] *)

Lemma fit_valid (X : list (list number)) (y : list Label) (this : t) :
  validateFitInputs X y = Ok tt -> no_inherited_name y ->
  fit X y this
  = (Ok tt,
     {| classCategories := Some (sort (Set_values y));
        mean := Some (Spec.mean_matrix X y (sort (Set_values y)));
        variance := Some (Spec.variance_matrix X y (sort (Set_values y))) |}).
Proof.
  intros Hv Hnames. unfold fit, seq_method, lift.
  rewrite Hv, (fitModel_closed_form X y Hv Hnames). reflexivity.
Qed.

Lemma fit_Ok_inv (X : list (list number)) (y : list Label) (this this' : t) :
  fit X y this = (Ok tt, this') ->
  validateFitInputs X y = Ok tt /\ no_inherited_name y
  /\ this' = {| classCategories := Some (sort (Set_values y));
                mean := Some (Spec.mean_matrix X y (sort (Set_values y)));
                variance := Some (Spec.variance_matrix X y (sort (Set_values y))) |}.
Proof.
  intros Hfit. destruct (validateFitInputs X y) as [[]|e] eqn:Hv.
  - destruct (decide (Forall (fun c => toString c ∉ Object_prototype_names) y))
      as [Hnames|Hnames].
    + rewrite (fit_valid X y this Hv Hnames) in Hfit.
      split_and!; [reflexivity|exact Hnames|congruence].
    + pose proof Hv as Hv'. apply validateFitInputs_Ok in Hv' as (Hlen & _).
      unfold fit, seq_method, lift in Hfit.
      rewrite Hv, (fitModel_inherited X y Hlen Hnames) in Hfit. discriminate.
  - unfold fit, seq_method, lift in Hfit. rewrite Hv in Hfit. discriminate.
Qed.

Lemma per_class_nonempty (moment : list float32 -> float32)
    (X : list (list number)) (y : list Label) (catalog : list Label) :
  catalog <> [] -> Spec.per_class moment X y catalog <> [].
Proof. destruct catalog; [congruence|discriminate]. Qed.

Lemma per_class_lookup (moment : list float32 -> float32)
    (X : list (list number)) (y : list Label) (catalog : list Label)
    (i : nat) (c : Label) :
  catalog !! i = Some c ->
  Spec.per_class moment X y catalog !! i
  = Some (map (fun j => moment (column j (Spec.class_rows X y c)))
              (seq 0 (Spec.numFeatures X))).
Proof.
  revert i; induction catalog as [|c' catalog IH]; intros [|i] H; try discriminate.
  - now injection H as ->.
  - now apply IH.
Qed.

Lemma sample_mean_float32 (values : list float32) :
  is_float32 (Spec.sample_mean values) = true.
Proof. apply fround_float32. Qed.

Lemma population_variance_float32 (values : list float32) :
  is_float32 (Spec.population_variance values) = true.
Proof. apply fround_float32. Qed.

Lemma per_class_float32 (moment : list float32 -> float32)
    (X : list (list number)) (y : list Label) (catalog : list Label) :
  (forall values, is_float32 (moment values) = true) ->
  all_float32 (Spec.per_class moment X y catalog).
Proof.
  intros Hm. unfold all_float32, Spec.per_class. rewrite Forall_forall. intros row Hrow.
  apply list_elem_of_In, in_map_iff in Hrow as (c & <- & _).
  rewrite Forall_forall. intros x Hx.
  apply list_elem_of_In, in_map_iff in Hx as (j & <- & _). apply Hm.
Qed.

(** What is known of the three fields after a successful [fit]. *)
Lemma fitted_fields (X : list (list number)) (y : list Label) (this this' : t) :
  fit X y this = (Ok tt, this') ->
  exists catalog M V,
    classCategories this' = Some catalog /\ mean this' = Some M /\ variance this' = Some V
    /\ catalog = sort (Set_values y)
    /\ M = Spec.mean_matrix X y catalog /\ V = Spec.variance_matrix X y catalog
    /\ catalog <> [] /\ M <> []
    /\ length M = length catalog /\ length V = length catalog
    /\ rows_of_length (Spec.numFeatures X) M /\ rows_of_length (Spec.numFeatures X) V
    /\ all_float32 M /\ all_float32 V
    /\ (0 < Spec.numFeatures X)%nat.
Proof.
  intros Hfit. apply fit_Ok_inv in Hfit as (Hv & _ & ->).
  pose proof Hv as Hv'. apply validateFitInputs_Ok in Hv' as (Hlen & HX & Hrect & Hf).
  assert (Hcat : sort (Set_values y) <> []).
  { apply catalog_nonempty. destruct y; [|discriminate]. destruct X; cbn in *; congruence. }
  eexists _, _, _. split_and!; try reflexivity; try assumption.
  - now apply per_class_nonempty.
  - apply length_per_class.
  - apply length_per_class.
  - apply per_class_rows.
  - apply per_class_rows.
  - apply per_class_float32, sample_mean_float32.
  - apply per_class_float32, population_variance_float32.
Qed.

(** ** Export and import *)

Lemma toJSON_fromJSON (this other : t) (f g : nat) (M V : Tensor2D) :
  mean this = Some M -> variance this = Some V ->
  M <> [] -> rows_of_length f M -> all_float32 M ->
  V <> [] -> rows_of_length g V -> all_float32 V ->
  exists snapshot, toJSON this = Ok snapshot /\ fromJSON snapshot other = (Ok tt, this).
Proof.
  intros HM HV HneM HrM HfM HneV HrV HfV. unfold toJSON. rewrite HM, HV. cbn [defined bind].
  eexists. split; [reflexivity|].
  unfold fromJSON, seq_method, set_classCategories, lift. cbn [ModelState.classCategories
    ModelState.mean ModelState.variance].
  rewrite (tensor2d_reshape_dataSync f) by assumption.
  unfold set_mean. cbn [classCategories mean variance].
  rewrite (tensor2d_reshape_dataSync g) by assumption.
  unfold set_variance. cbn [classCategories mean variance].
  destruct this as [c m v]. cbn in *. now subst.
Qed.

End Labels.

End FittedFacts.

Import FittedFacts.

(* ===================================================================== *)
(** * The classifier on a fitted instance *)
(* ===================================================================== *)

Module ClassifierFacts.
Import GaussianNB.

Section Labels.
Context {T : Type} {T_eq : EqDecision T} {T_str : ToString T}.
#[local] Abbreviation Label := T.
#[local] Abbreviation t := (GaussianNB.t T).

Lemma fitModel_catalog (X : list (list number)) (y : list Label) (r : FitModel.t T) :
  fitModel X y = Ok r -> FitModel.classCategories r = sort (Set_values y).
Proof.
  unfold fitModel.
  destruct (reduce _ _ _); cbn [bind]; [|discriminate].
  destruct (map_throwing _ _); cbn [bind]; [|discriminate].
  destruct (stack _); cbn [bind]; [|discriminate].
  destruct (stack _); cbn [bind]; [|discriminate].
  now intros [= <-].
Qed.

Lemma lookup_map {A B} (f : A -> B) (l : list A) (i : nat) :
  map f l !! i = f <$> (l !! i).
Proof. exact (list_lookup_fmap f l i). Qed.

Lemma entry_Some {A} (t : list (list A)) (i j : nat) (a : A) :
  Spec.entry t i j = Some a <-> exists row, t !! i = Some row /\ row !! j = Some a.
Proof.
  unfold Spec.entry. destruct (t !! i) as [row|]; split.
  - intros H. now exists row.
  - now intros (row' & [= <-] & H).
  - discriminate.
  - now intros (row' & [=] & _).
Qed.

Lemma row_densities_lookup (Math_exp : number -> number)
    (x mrow vrow : list float32) (j : nat) (xj m v : float32) :
  x !! j = Some xj -> mrow !! j = Some m -> vrow !! j = Some v ->
  Spec.row_densities Math_exp x mrow vrow !! j = Some (Spec.density Math_exp xj m v).
Proof.
  intros Hx Hm Hv. unfold Spec.row_densities.
  apply lookup_zip_with_Some. exists (xj, m), v. split; [reflexivity|]. split; [|assumption].
  apply lookup_zip_with_Some. now exists xj, m.
Qed.

(** What [singlePredict] returns on a fitted instance, for a row of the
    trained length or of another one. *)
Lemma singlePredict_fitted (Math_exp : number -> number)
    (X : list (list number)) (y : list Label) (this this' : t) (row : list number) :
  fit X y this = (Ok tt, this') ->
  exists catalog M V,
    classCategories this' = Some catalog /\ mean this' = Some M /\ variance this' = Some V
    /\ (length row <> Spec.numFeatures X ->
        singlePredict Math_exp this' row
        = Throw (Error (dimension_message (length row) (Spec.numFeatures X))))
    /\ (length row = Spec.numFeatures X ->
        probabilityArray Math_exp M V (tensor1d row)
        = Ok (zip_with (Spec.row_densities Math_exp (tensor1d row)) M V)
        /\ singlePredict Math_exp this' row
           = Ok (catalog !! argMax (prod_1 (zip_with (Spec.row_densities Math_exp (tensor1d row)) M V)))).
Proof.
  intros Hfit.
  destruct (fitted_fields X y this this' Hfit)
    as (c & M & V & Hc & HM & HV & _ & _ & _ & Hne & HMne & HlM & HlV & HrM & HrV & _).
  exists c, M, V. split_and!; try assumption.
  - intros Hlen. now apply (singlePredict_mismatch Math_exp this' M).
  - intros Hlen. split.
    + apply (probabilityArray_closed_form Math_exp (Spec.numFeatures X)); try assumption;
        [congruence|]. unfold tensor1d. now rewrite length_map.
    + apply (singlePredict_closed_form Math_exp this' c M V (Spec.numFeatures X));
        try assumption. congruence.
Qed.

(** A class without spread in feature [j], and a row that sits at its
    mean there. *)
Lemma no_spread_at_mean (Math_exp : number -> number)
    (X : list (list number)) (y : list Label) (this this' : t)
    (M V : Tensor2D) (row : list number) (i j : nat) (m v : float32) (xj : number) :
  Math_exp NaN = NaN ->
  fit X y this = (Ok tt, this') ->
  mean this' = Some M -> variance this' = Some V ->
  length row = Spec.numFeatures X ->
  Spec.entry M i j = Some m -> Spec.entry V i j = Some v -> row !! j = Some xj ->
  is_zero v = true ->
  strict_eq (widen (fround xj)) (widen m) = true ->
  exists P,
    probabilityArray Math_exp M V (tensor1d row) = Ok P
    /\ is_infinity (Spec.coefficient v) = true
    /\ Spec.exponent Math_exp (fround xj) m v = NaN
    /\ Spec.entry P i j = Some NaN
    /\ prod_1 P !! i = Some NaN.
Proof.
  intros Hexp Hfit HM HV Hlen Hm Hv Hx Hzero Heq.
  destruct (singlePredict_fitted Math_exp X y this this' row Hfit)
    as (c & M' & V' & _ & HM' & HV' & _ & Hgood).
  assert (M' = M) by congruence. assert (V' = V) by congruence. subst M' V'.
  destruct (Hgood Hlen) as [HP _]. eexists. split; [exact HP|].
  split; [now apply coefficient_infinity|].
  split; [now apply exponent_NaN|].
  apply entry_Some in Hm as (mrow & HMi & Hm).
  apply entry_Some in Hv as (vrow & HVi & Hv).
  assert (Hrow : zip_with (Spec.row_densities Math_exp (tensor1d row)) M V !! i
                 = Some (Spec.row_densities Math_exp (tensor1d row) mrow vrow)).
  { apply lookup_zip_with_Some. now exists mrow, vrow. }
  assert (Hd : Spec.row_densities Math_exp (tensor1d row) mrow vrow !! j = Some NaN).
  { rewrite <- (density_NaN Math_exp Hexp (fround xj) m v Hzero Heq).
    apply row_densities_lookup; try assumption.
    unfold tensor1d. now rewrite lookup_map, Hx. }
  split.
  - apply entry_Some. eauto.
  - etransitivity; [apply (lookup_map reduce_prod)|]. rewrite Hrow. cbn. f_equal.
    apply reduce_prod_NaN. eapply list_elem_of_lookup_2, Hd.
Qed.

Lemma entry_float32 (t : Tensor2D) (i j : nat) (a : float32) :
  all_float32 t -> Spec.entry t i j = Some a -> is_float32 a = true.
Proof.
  intros Ht Ha. apply entry_Some in Ha as (row & Hrow & Ha).
  unfold all_float32 in Ht. rewrite Forall_lookup in Ht.
  specialize (Ht i row Hrow). rewrite Forall_lookup in Ht. exact (Ht j a Ha).
Qed.

(** A float32 value that is [=== 0] as a number is a zero. *)
Lemma strict_eq_zero (v : float32) :
  is_float32 v = true -> strict_eq (widen v) zero = true -> is_zero v = true.
Proof.
  destruct v as [s|s| |s m e]; try reflexivity; try discriminate.
  - now destruct s.
  - intros Hv. destruct (widen_finite s m e Hv) as (m' & e' & -> & _).
    now destruct s.
Qed.

(** A number that is [===] a float32 value is stored as that value. *)
Lemma strict_eq_stored (x : number) (m : float32) :
  is_float32 m = true -> strict_eq x (widen m) = true ->
  strict_eq (widen (fround x)) (widen m) = true.
Proof.
  intros Hm. destruct m as [s|s| |s mm em].
  - destruct x as [sx|sx| |sx mx ex]; try (intros H; exact H).
    intros H. destruct sx, s; cbv in H; discriminate H.
  - destruct x as [sx|sx| |sx mx ex]; try (intros H; exact H).
    intros H. destruct sx, s; cbv in H; discriminate H.
  - intros H. destruct x as [sx|sx| |sx mx ex]; cbv in H; discriminate H.
  - destruct (widen_finite s mm em Hm) as (m' & e' & Hw & _ & Hf). rewrite Hw.
    destruct x as [sx|sx| |sx mx ex]; try (now destruct sx, s); try discriminate.
    intros Heq. apply strict_eq_finite_inv in Heq as (-> & -> & ->).
    rewrite Hf, Hw. apply strict_eq_finite_refl.
Qed.

Lemma strict_eq_sample_mean_single (x : float32) :
  is_float32 x = true -> is_finite x = true ->
  strict_eq (widen x) (widen (Spec.sample_mean [x])) = true.
Proof.
  intros Hv Hfin. rewrite sample_mean_single by assumption.
  destruct x as [s| | |s m e]; try discriminate.
  - now destruct s.
  - cbn [is_zero]. destruct (widen_finite s m e Hv) as (m' & e' & -> & _).
    apply strict_eq_finite_refl.
Qed.

End Labels.

End ClassifierFacts.

Import ClassifierFacts.

(* ===================================================================== *)
(** * The properties of the classifier *)
(* ===================================================================== *)

Import GaussianNB.

(** C1: after fitting on X = [[1,20],[2,21],[3,22],[4,22]] with
    y = [1,0,1,0], the catalog is [0,1], the mean rows are [3, 21.5] for
    class 0 and [2, 21] for class 1, the variance rows are [1, 0.25] and
    [1, 1], and predict([[1,20]]) returns [1].  The numbers of the
    tensors are exactly these; the prediction is evaluated with the
    reference exponential. *)
Theorem fit_predict_scenario (this : t Z) :
  fit Examples.X Examples.y this = (Ok tt, Examples.fitted)
  /\ classCategories Examples.fitted = Some [0; 1]%Z
  /\ mean Examples.fitted = Some [[ratio 3 1; ratio 43 2]; [ratio 2 1; ratio 21 1]]
  /\ variance Examples.fitted = Some [[ratio 1 1; ratio 1 4]; [ratio 1 1; ratio 1 1]]
  /\ predict Reference.Math_exp [[of_Z 1; of_Z 20]] Examples.fitted
     = (Ok [Some 1%Z], Examples.fitted).
Proof.
  split.
  - rewrite fit_valid; [vm_compute; reflexivity|reflexivity|].
    apply (bool_decide_unpack _). vm_compute. exact I.
  - do 3 (split; [reflexivity|]). vm_compute. reflexivity.
Qed.




(** C3, as stated, fails: for y = [10, 9] the catalog is [10, 9], which is
    not in numeric order; and for the number 1 and the string "1", which
    have one string, the catalog keeps the order in which the two first
    appear in y. *)
Lemma catalog_not_in_numeric_order :
  (fitModel Examples.X_digits Examples.y_digits = Ok Examples.model_digits
   /\ FitModel.classCategories Examples.model_digits = [10; 9]%Z
   /\ ~ Sorted Z.le (FitModel.classCategories Examples.model_digits))
  /\ (fitModel Examples.X_mixed Examples.y_mixed = Ok Examples.model_mixed
      /\ fitModel Examples.X_mixed Examples.y_mixed_swapped = Ok Examples.model_mixed_swapped
      /\ (forall c, c ∈ Examples.y_mixed <-> c ∈ Examples.y_mixed_swapped)
      /\ FitModel.classCategories Examples.model_mixed
         <> FitModel.classCategories Examples.model_mixed_swapped).
Proof.
  split; split_and!; try (vm_compute; reflexivity).
  - cbn. intros H. apply Sorted_inv in H as [_ H]. apply HdRel_inv in H. lia.
  - intros c. unfold Examples.y_mixed, Examples.y_mixed_swapped.
    rewrite !elem_of_cons, !elem_of_nil. tauto.
  - discriminate.
Qed.

(** C3, amended: for every sequence y of labels of which different ones
    have different strings, the catalog produced by fit is the set of
    distinct values of y sorted ascending by the strings of the labels,
    compared code unit by code unit as sort() without a comparator does,
    and it is the same for any two label sequences with the same values,
    whatever the order in which they first appear. *)
Theorem catalog_sorted_by_string {T : Type} {T_eq : EqDecision T} {T_str : ToString T}
    (X X' : list (list number)) (y y' : list T) (r r' : FitModel.t T) :
  fitModel X y = Ok r ->
  fitModel X' y' = Ok r' ->
  (forall c, c ∈ y <-> c ∈ y') ->
  distinct_strings y ->
  Sorted before (FitModel.classCategories r)
  /\ NoDup (FitModel.classCategories r)
  /\ (forall c, c ∈ FitModel.classCategories r <-> c ∈ y)
  /\ FitModel.classCategories r' = FitModel.classCategories r.
Proof.
  intros Hr Hr' Hsame Hds.
  rewrite (fitModel_catalog _ _ _ Hr), (fitModel_catalog _ _ _ Hr').
  split_and!.
  - now apply catalog_sorted.
  - apply NoDup_catalog.
  - apply elem_of_catalog.
  - symmetry. now apply catalog_unique.
Qed.

Lemma catalog_sorted_by_string_witness :
  fitModel Examples.X_digits [10; 9]%Z = Ok Examples.model_digits
  /\ fitModel Examples.X_digits [9; 10]%Z = Ok Examples.model_digits_swapped
  /\ (forall c : Z, c ∈ [10; 9]%Z <-> c ∈ [9; 10]%Z)
  /\ distinct_strings [10; 9]%Z
  /\ Sorted before (FitModel.classCategories Examples.model_digits)
  /\ NoDup (FitModel.classCategories Examples.model_digits)
  /\ (forall c, c ∈ FitModel.classCategories Examples.model_digits <-> c ∈ [10; 9]%Z)
  /\ FitModel.classCategories Examples.model_digits_swapped
     = FitModel.classCategories Examples.model_digits.
Proof.
  assert (H1 : fitModel Examples.X_digits [10; 9]%Z = Ok Examples.model_digits)
    by (vm_compute; reflexivity).
  assert (H2 : fitModel Examples.X_digits [9; 10]%Z = Ok Examples.model_digits_swapped)
    by (vm_compute; reflexivity).
  assert (H3 : forall c : Z, c ∈ [10; 9]%Z <-> c ∈ [9; 10]%Z).
  { intros c. rewrite !elem_of_cons, !elem_of_nil. tauto. }
  assert (H4 : distinct_strings [10; 9]%Z) by apply distinct_strings_number.
  split; [exact H1|]. split; [exact H2|]. split; [exact H3|]. split; [exact H4|].
  exact (catalog_sorted_by_string _ _ _ _ _ _ H1 H2 H3 H4).
Defined.

(** C4: importing the exported snapshot of a fitted classifier gives a
    classifier whose predict returns, on any batch, what the original
    classifier's predict returns. *)
Theorem export_import_same_predictions {T : Type} {T_eq : EqDecision T} {T_str : ToString T}
    (Math_exp : number -> number)
    (X : list (list number)) (y : list T) (this this' other : t T)
    (batch : list (list number)) :
  fit X y this = (Ok tt, this') ->
  exists snapshot restored,
    toJSON this' = Ok snapshot
    /\ fromJSON snapshot other = (Ok tt, restored)
    /\ fst (predict Math_exp batch restored) = fst (predict Math_exp batch this').
Proof.
  intros Hfit.
  destruct (fitted_fields X y this this' Hfit)
    as (c & M & V & Hc & HM & HV & _ & _ & _ & Hne & HMne & HlM & HlV & HrM & HrV & HfM & HfV & _).
  assert (HVne : V <> []) by (destruct V, c; cbn in *; congruence).
  destruct (toJSON_fromJSON this' other _ _ M V HM HV HMne HrM HfM HVne HrV HfV)
    as (snapshot & Hto & Hfrom).
  exists snapshot, this'. auto.
Qed.

Lemma export_import_same_predictions_witness :
  fit Examples.X Examples.y new = (Ok tt, Examples.fitted)
  /\ exists snapshot restored,
       toJSON Examples.fitted = Ok snapshot
       /\ fromJSON snapshot new = (Ok tt, restored)
       /\ fst (predict Reference.Math_exp [[of_Z 1; of_Z 20]] restored)
          = fst (predict Reference.Math_exp [[of_Z 1; of_Z 20]] Examples.fitted).
Proof.
  split; [vm_compute; reflexivity|].
  apply (export_import_same_predictions Reference.Math_exp Examples.X Examples.y
           new Examples.fitted new [[of_Z 1; of_Z 20]]).
  vm_compute. reflexivity.
Defined.

(** C5, as stated, fails, in each of its parts: class 1 has the single
    training row [3], and predicting [3] returns 0; the single training
    row [2^200], stored as Infinity, has the variance NaN; and the
    number 1 and the string "1" have one training row each, and the
    variance 4 of the two rows together. *)
Lemma single_sample_class_not_predicted :
  (fit Examples.X_single Examples.y_single new = (Ok tt, Examples.fitted_single)
   /\ filter (fun p => snd p = 1%Z) (zip_with pair Examples.X_single Examples.y_single)
      = [([of_Z 3], 1%Z)]
   /\ predict Reference.Math_exp [[of_Z 3]] Examples.fitted_single
      = (Ok [Some 0%Z], Examples.fitted_single))
  /\ (fit Examples.X_huge Examples.y_huge new = (Ok tt, Examples.fitted_huge)
      /\ variance Examples.fitted_huge = Some [[NaN]])
  /\ (fit Examples.X_mixed Examples.y_mixed new = (Ok tt, Examples.fitted_mixed)
      /\ filter (fun p => snd p = inl 1%Z) (zip_with pair Examples.X_mixed Examples.y_mixed)
         = [([of_Z 1], inl 1%Z)]
      /\ variance Examples.fitted_mixed = Some [[ratio 4 1]; [ratio 4 1]]
      /\ ratio 4 1 <> zero).
Proof. split; [|split]; split_and!; try (vm_compute; reflexivity). discriminate. Qed.

(** C5, amended: if different labels have different strings and some
    class has exactly one training row, whose features are finite
    float32 numbers, then after fit the variance row of that class is 0
    in every feature; predicting that row gives the class the score NaN,
    and the label of the class is returned when the class is the first
    of the catalog.  ([Math.exp] is any function that maps NaN to NaN, as
    ECMA-262 asks.) *)
Theorem single_sample_class {T : Type} {T_eq : EqDecision T} {T_str : ToString T}
    (Math_exp : number -> number)
    (X : list (list number)) (y : list T) (this this' : t T)
    (catalog : list T) (i : nat) (c : T) (row : list number) :
  Math_exp NaN = NaN ->
  distinct_strings y ->
  fit X y this = (Ok tt, this') ->
  classCategories this' = Some catalog -> catalog !! i = Some c ->
  filter (fun p => snd p = c) (zip_with pair X y) = [(row, c)] ->
  Forall (fun x => is_finite (fround x) = true) row ->
  exists M V P,
    mean this' = Some M /\ variance this' = Some V
    /\ V !! i = Some (replicate (Spec.numFeatures X) zero)
    /\ probabilityArray Math_exp M V (tensor1d row) = Ok P
    /\ prod_1 P !! i = Some NaN
    /\ (i = 0%nat -> singlePredict Math_exp this' row = Ok (Some c)).
Proof.
  intros Hexp Hds Hfit Hcat Hi Hone Hfinite.
  destruct (fitted_fields X y this this' Hfit)
    as (c' & M & V & Hc' & HM & HV & Hsort & HMeq & HVeq & _ & _ & _ & _ & _ & _ & _ & _ & Hf).
  assert (Hcy : c ∈ y).
  { apply elem_of_catalog. rewrite <- Hsort. replace c' with catalog by congruence.
    eapply list_elem_of_lookup_2, Hi. }
  clear Hsort.
  assert (c' = catalog) by congruence. subst c'.
  pose proof (fit_Ok_inv X y this this' Hfit) as (Hvalid & _ & _).
  apply validateFitInputs_Ok in Hvalid as (_ & _ & Hrect & _).
  set (f := Spec.numFeatures X) in *.
  (* the row has the trained length *)
  assert (Hlen : length row = f).
  { assert (Hin : (row, c) ∈ filter (fun p => snd p = c) (zip_with pair X y))
      by (rewrite Hone; now left).
    apply list_elem_of_filter in Hin as [_ Hin]. apply elem_of_zip_l in Hin.
    unfold rows_of_length in Hrect. rewrite Forall_forall in Hrect. now apply Hrect. }
  set (x := tensor1d row).
  assert (Hrows : Spec.class_rows X y c = [x]).
  { unfold Spec.class_rows. now rewrite (class_rows_labelled X y c Hds Hcy), Hone. }
  assert (Hx : forall j, (j < f)%nat ->
               is_float32 (nth j x NaN) = true /\ is_finite (nth j x NaN) = true).
  { intros j Hj. unfold x, tensor1d.
    rewrite (nth_map_in fround row j NaN NaN) by lia. split; [apply fround_float32|].
    rewrite Forall_forall in Hfinite. apply Hfinite, list_elem_of_In, nth_In. lia. }
  assert (HMi : M !! i = Some (map (fun j => Spec.sample_mean (column j [x])) (seq 0 f))).
  { rewrite HMeq. unfold Spec.mean_matrix. rewrite (per_class_lookup _ X y catalog i c Hi).
    now rewrite Hrows. }
  assert (HVi : V !! i = Some (replicate f zero)).
  { rewrite HVeq. unfold Spec.variance_matrix.
    rewrite (per_class_lookup _ X y catalog i c Hi), Hrows. f_equal. symmetry.
    apply replicate_as_Forall. split; [now rewrite length_map, length_seq|].
    rewrite Forall_forall. intros v Hv.
    apply list_elem_of_In, in_map_iff in Hv as (j & <- & Hj). apply in_seq in Hj.
    cbn [column map]. symmetry. apply population_variance_single; apply Hx; lia. }
  (* feature 0 of the row sits at the mean, and there is no spread *)
  destruct row as [|x0 row']; [cbn in Hlen; lia|].
  destruct (Hx 0%nat Hf) as [Hfl Hfi]. cbn [x tensor1d map nth] in Hfl, Hfi.
  destruct (no_spread_at_mean Math_exp X y this this' M V (x0 :: row') i 0
              (Spec.sample_mean [fround x0]) zero x0)
    as (P & HP & _ & _ & _ & Hscore); try assumption; try reflexivity.
  { apply entry_Some. eexists. split; [exact HMi|].
    rewrite lookup_map, lookup_seq_lt by lia. reflexivity. }
  { apply entry_Some. eexists. split; [exact HVi|]. apply lookup_replicate_2. lia. }
  { now apply strict_eq_sample_mean_single. }
  exists M, V, P. split_and!; try assumption.
  intros ->.
  destruct (singlePredict_fitted Math_exp X y this this' (x0 :: row') Hfit)
    as (c' & M' & V' & Hc'' & HM' & HV' & _ & Hgood).
  assert (c' = catalog) by congruence. assert (M' = M) by congruence.
  assert (V' = V) by congruence. subst c' M' V'.
  destruct (Hgood Hlen) as [HP' Hpredict]. rewrite Hpredict.
  replace (zip_with _ M V) with P by congruence.
  destruct (prod_1 P) as [|s scores]; [discriminate|].
  cbn in Hscore. injection Hscore as ->.
  rewrite argMax_NaN_first. now rewrite Hi.
Qed.

Lemma single_sample_class_witness :
  Reference.Math_exp NaN = NaN
  /\ distinct_strings Examples.y_single_first
  /\ fit Examples.X_single Examples.y_single_first new
     = (Ok tt, Examples.fitted_single_first)
  /\ filter (fun p => snd p = 0%Z) (zip_with pair Examples.X_single Examples.y_single_first)
     = [([of_Z 1], 0%Z)]
  /\ exists M V P,
       mean Examples.fitted_single_first = Some M
       /\ variance Examples.fitted_single_first = Some V
       /\ V !! 0%nat = Some (replicate (Spec.numFeatures Examples.X_single) zero)
       /\ probabilityArray Reference.Math_exp M V (tensor1d [of_Z 1]) = Ok P
       /\ prod_1 P !! 0%nat = Some NaN
       /\ (0%nat = 0%nat ->
           singlePredict Reference.Math_exp Examples.fitted_single_first [of_Z 1]
           = Ok (Some 0%Z)).
Proof.
  split; [reflexivity|]. split; [apply distinct_strings_number|].
  split; [vm_compute; reflexivity|]. split; [reflexivity|].
  apply (single_sample_class Reference.Math_exp Examples.X_single Examples.y_single_first
           new Examples.fitted_single_first [0; 1]%Z 0 0%Z [of_Z 1]).
  - reflexivity.
  - apply distinct_strings_number.
  - vm_compute. reflexivity.
  - reflexivity.
  - reflexivity.
  - reflexivity.
  - repeat constructor.
Defined.

(** C6: on a fitted model, predicting a row whose length differs from
    the number of feature columns fails with the error of the class for
    a dimension mismatch, whose message names both lengths; a row of
    that length raises no error and gets a label of the training set. *)
Theorem dimension_check {T : Type} {T_eq : EqDecision T} {T_str : ToString T}
    (Math_exp : number -> number)
    (X : list (list number)) (y : list T) (this this' : t T) (row : list number) :
  fit X y this = (Ok tt, this') ->
  (length row <> Spec.numFeatures X ->
   exists e,
     singlePredict Math_exp this' row = Throw e
     /\ Spec.failure_of e = Some Spec.DimensionMismatch
     /\ e = Error ("Prediction input " +:+ length_to_string (length row)
                   +:+ " length must be equal or less than summary length "
                   +:+ length_to_string (Spec.numFeatures X)))
  /\ (length row = Spec.numFeatures X ->
      exists c, c ∈ y /\ singlePredict Math_exp this' row = Ok (Some c)).
Proof.
  intros Hfit.
  destruct (singlePredict_fitted Math_exp X y this this' row Hfit)
    as (c & M & V & Hc & HM & HV & Hbad & Hgood).
  split; [intros Hlen; eexists; split; [exact (Hbad Hlen)|split; reflexivity]|].
  intros Hlen. destruct (Hgood Hlen) as [_ ->].
  destruct (fitted_fields X y this this' Hfit)
    as (c' & M' & V' & Hc' & HM' & HV' & Hcat & _ & _ & Hne & HMne & HlM & HlV & _).
  assert (Hcc : c' = c) by congruence. assert (M' = M) by congruence.
  assert (V' = V) by congruence. subst M' V'.
  rewrite Hcc in Hcat, Hne, HlM, HlV.
  set (scores := prod_1 _).
  assert (Hlt : (argMax scores < length c)%nat).
  { replace (length c) with (length scores).
    - apply argMax_lt. unfold scores, prod_1. destruct M, V, c; cbn in *; congruence.
    - unfold scores, prod_1. rewrite length_map, length_zip_with, HlM, HlV. lia. }
  apply lookup_lt_is_Some in Hlt as [label Hlabel]. exists label. split.
  - apply elem_of_catalog. rewrite <- Hcat. eapply list_elem_of_lookup_2, Hlabel.
  - now rewrite Hlabel.
Qed.

Lemma dimension_check_witness :
  fit Examples.X Examples.y new = (Ok tt, Examples.fitted)
  /\ (length [of_Z 1] <> Spec.numFeatures Examples.X ->
      exists e,
        singlePredict Reference.Math_exp Examples.fitted [of_Z 1] = Throw e
        /\ Spec.failure_of e = Some Spec.DimensionMismatch
        /\ e = Error ("Prediction input " +:+ length_to_string (length [of_Z 1])
                      +:+ " length must be equal or less than summary length "
                      +:+ length_to_string (Spec.numFeatures Examples.X)))
  /\ (length [of_Z 1] = Spec.numFeatures Examples.X ->
      exists c, c ∈ Examples.y
                /\ singlePredict Reference.Math_exp Examples.fitted [of_Z 1] = Ok (Some c)).
Proof.
  split; [vm_compute; reflexivity|].
  apply (dimension_check Reference.Math_exp Examples.X Examples.y new Examples.fitted
           [of_Z 1]).
  vm_compute. reflexivity.
Defined.

(** C7, as stated, fails: the class has no check for a classifier that was
    never fitted and no error of its own for one.  predict on a new
    classifier ends in the TypeError that the engine raises when
    [this.mean.shape] is read, which is not the Error that the class
    throws itself, and which a classifier restored from a checkpoint
    without catalog ends in as well. *)
Lemma predict_before_fit_is_a_TypeError :
  predict Reference.Math_exp [[of_Z 1; of_Z 20]] (new : t Z) = (Throw TypeError, new)
  /\ (forall message, TypeError <> Error message)
  /\ fromJSON Examples.no_catalog new = (Ok tt, Examples.restored_no_catalog)
  /\ predict Reference.Math_exp [[of_Z 1]] Examples.restored_no_catalog
     = (Throw TypeError, Examples.restored_no_catalog).
Proof. split_and!; try (vm_compute; reflexivity). discriminate. Qed.

(** C7, amended: predict on a classifier that was neither fitted nor
    restored fails.  For every row, singlePredict raises the TypeError
    of reading the shape of the undefined mean; predict on a batch throws
    what the validation of the batch throws, and this TypeError when the
    batch passes it; and the iterator throws it at the first call of
    next(). *)
Theorem predict_before_fit {T : Type} (Math_exp : number -> number)
    (row : list number) (rest : list (list number)) :
  singlePredict Math_exp (new : t T) row = Throw TypeError
  /\ predict Math_exp (row :: rest) (new : t T)
     = (match validateMatrix2D (row :: rest) with
        | Ok _ => Throw TypeError
        | Throw e => Throw e
        end, new)
  /\ next Math_exp (new : t T) (predictIterator (row :: rest))
     = (Throw TypeError, Completed).
Proof.
  split; [reflexivity|]. split; [|reflexivity].
  unfold predict. now destruct (validateMatrix2D (row :: rest)) as [[]|e].
Qed.

(** C8, as stated, fails: a snapshot whose mean has one column and whose
    variance has two is imported without complaint. *)
Lemma import_accepts_mismatched_shapes :
  exists M V,
    fromJSON Examples.mismatched new
    = (Ok tt, {| classCategories := Some [0%Z]; mean := Some M; variance := Some V |})
    /\ shape M <> shape V.
Proof. eexists _, _. split; [vm_compute; reflexivity|]. discriminate. Qed.

(** C8, amended: for every snapshot whose mean and whose variance are each
    a non-empty matrix with rows of one length, import replaces the
    catalog, the mean and the variance of the classifier wholesale by the
    values of the snapshot, the numbers being stored as float32, with no
    recomputation and no validation that relates the mean, the variance
    and the catalog to each other: their shapes need not agree. *)
Theorem import_replaces_wholesale {T : Type} {T_eq : EqDecision T} {T_str : ToString T}
    (modelState : ModelState.t T) (this : t T) :
  rectangular (ModelState.mean modelState) = true ->
  rectangular (ModelState.variance modelState) = true ->
  fromJSON modelState this
  = (Ok tt, {| classCategories := ModelState.classCategories modelState;
               mean := Some (map (map fround) (ModelState.mean modelState));
               variance := Some (map (map fround) (ModelState.variance modelState)) |}).
Proof.
  intros Hm Hv. unfold fromJSON, seq_method, set_classCategories, lift, tensor2d.
  now rewrite Hm, Hv.
Qed.

Lemma import_replaces_wholesale_witness :
  rectangular (ModelState.mean Examples.mismatched) = true
  /\ rectangular (ModelState.variance Examples.mismatched) = true
  /\ fromJSON Examples.mismatched new
     = (Ok tt, {| classCategories := ModelState.classCategories Examples.mismatched;
                  mean := Some (map (map fround) (ModelState.mean Examples.mismatched));
                  variance := Some (map (map fround) (ModelState.variance Examples.mismatched)) |}).
Proof.
  split; [reflexivity|]. split; [reflexivity|].
  apply (import_replaces_wholesale Examples.mismatched new); reflexivity.
Defined.

(** C10: on a fitted model with variance[i][j] = 0 for class i and
    feature j, and a row with row[j] equal to mean[i][j], the coefficient
    of the density is an infinity, its exponent is NaN, the density of
    class i at feature j is NaN, and so is the score of class i.
    ([Math.exp] is any function that maps NaN to NaN, as ECMA-262 asks.) *)
Theorem zero_variance_density_NaN {T : Type} {T_eq : EqDecision T} {T_str : ToString T}
    (Math_exp : number -> number)
    (X : list (list number)) (y : list T) (this this' : t T)
    (M V : Tensor2D) (row : list number) (i j : nat) (m v : float32) (xj : number) :
  Math_exp NaN = NaN ->
  fit X y this = (Ok tt, this') ->
  mean this' = Some M -> variance this' = Some V ->
  length row = Spec.numFeatures X ->
  Spec.entry M i j = Some m -> Spec.entry V i j = Some v -> row !! j = Some xj ->
  strict_eq (widen v) zero = true ->
  strict_eq xj (widen m) = true ->
  exists P,
    probabilityArray Math_exp M V (tensor1d row) = Ok P
    /\ is_infinity (Spec.coefficient v) = true
    /\ Spec.exponent Math_exp (fround xj) m v = NaN
    /\ Spec.entry P i j = Some NaN
    /\ prod_1 P !! i = Some NaN.
Proof.
  intros Hexp Hfit HM HV Hlen Hm Hv Hx Hzero Heq.
  destruct (fitted_fields X y this this' Hfit)
    as (c & M' & V' & _ & HM' & HV' & _ & _ & _ & _ & _ & _ & _ & _ & _ & HfM & HfV & _).
  assert (M' = M) by congruence. assert (V' = V) by congruence. subst M' V'.
  apply (no_spread_at_mean Math_exp X y this this' M V row i j m v xj); try assumption.
  - apply strict_eq_zero; [|assumption]. exact (entry_float32 V i j v HfV Hv).
  - apply strict_eq_stored; [|assumption]. exact (entry_float32 M i j m HfM Hm).
Qed.

Lemma zero_variance_density_NaN_witness :
  Reference.Math_exp NaN = NaN
  /\ fit Examples.X_single Examples.y_single new = (Ok tt, Examples.fitted_single)
  /\ Spec.entry [[ratio 3 2]; [ratio 3 1]] 1 0 = Some (ratio 3 1)
  /\ Spec.entry [[ratio 1 4]; [zero]] 1 0 = Some zero
  /\ strict_eq (widen zero) zero = true
  /\ strict_eq (of_Z 3) (widen (ratio 3 1)) = true
  /\ exists P,
       probabilityArray Reference.Math_exp [[ratio 3 2]; [ratio 3 1]] [[ratio 1 4]; [zero]]
         (tensor1d [of_Z 3]) = Ok P
       /\ is_infinity (Spec.coefficient zero) = true
       /\ Spec.exponent Reference.Math_exp (fround (of_Z 3)) (ratio 3 1) zero = NaN
       /\ Spec.entry P 1 0 = Some NaN
       /\ prod_1 P !! 1%nat = Some NaN.
Proof.
  split; [reflexivity|]. split; [vm_compute; reflexivity|].
  split; [reflexivity|]. split; [reflexivity|]. split; [reflexivity|].
  split; [vm_compute; reflexivity|].
  apply (zero_variance_density_NaN Reference.Math_exp Examples.X_single Examples.y_single
           new Examples.fitted_single [[ratio 3 2]; [ratio 3 1]] [[ratio 1 4]; [zero]]
           [of_Z 3] 1 0 (ratio 3 1) zero (of_Z 3));
    try reflexivity; vm_compute; reflexivity.
Defined.

(* ===================================================================== *)
(** * Batches and the iterator *)
(* ===================================================================== *)

Module BatchFacts.
Import GaussianNB.

Section Labels.
Context {T : Type} {T_eq : EqDecision T} {T_str : ToString T}.
#[local] Abbreviation Label := T.
#[local] Abbreviation t := (GaussianNB.t T).

Lemma map_throwing_app_Throw {A B} (f : A -> result B) (before after : list A)
    (bad : A) (ys : list B) (e : exn) :
  map_throwing f before = Ok ys -> f bad = Throw e ->
  map_throwing f (before ++ bad :: after) = Throw e.
Proof.
  revert ys; induction before as [|x before IH]; intros ys Hb Hbad; cbn [app map_throwing].
  - now rewrite Hbad.
  - cbn [map_throwing] in Hb. destruct (f x) as [y|]; [|discriminate]. cbn [bind] in Hb |- *.
    destruct (map_throwing f before) as [ys'|]; [|discriminate].
    now rewrite (IH ys' eq_refl Hbad).
Qed.

(** The label of a row of the trained length. *)
Lemma singlePredict_label (Math_exp : number -> number)
    (X : list (list number)) (y : list Label) (this this' : t) (row : list number) :
  fit X y this = (Ok tt, this') -> length row = Spec.numFeatures X ->
  exists c, c ∈ y /\ singlePredict Math_exp this' row = Ok (Some c).
Proof.
  intros Hfit Hlen.
  destruct (singlePredict_fitted Math_exp X y this this' row Hfit)
    as (c & M & V & Hc & HM & HV & _ & Hgood).
  destruct (Hgood Hlen) as [_ ->].
  destruct (fitted_fields X y this this' Hfit)
    as (c' & M' & V' & Hc' & HM' & HV' & Hcat & _ & _ & Hne & HMne & HlM & HlV & _).
  assert (Hcc : c' = c) by congruence. assert (M' = M) by congruence.
  assert (V' = V) by congruence. subst M' V'.
  rewrite Hcc in Hcat, Hne, HlM, HlV.
  set (scores := prod_1 _).
  assert (Hlt : (argMax scores < length c)%nat).
  { replace (length c) with (length scores).
    - apply argMax_lt. unfold scores, prod_1. destruct M, V, c; cbn in *; congruence.
    - unfold scores, prod_1. rewrite length_map, length_zip_with, HlM, HlV. lia. }
  apply lookup_lt_is_Some in Hlt as [label Hlabel]. exists label. split.
  - apply elem_of_catalog. rewrite <- Hcat. eapply list_elem_of_lookup_2, Hlabel.
  - now rewrite Hlabel.
Qed.

Lemma map_throwing_labels (Math_exp : number -> number)
    (X : list (list number)) (y : list Label) (this this' : t)
    (batch : list (list number)) :
  fit X y this = (Ok tt, this') ->
  Forall (fun row => length row = Spec.numFeatures X) batch ->
  exists labels,
    map_throwing (singlePredict Math_exp this') batch = Ok (map Some labels)
    /\ length labels = length batch
    /\ Forall (fun c => c ∈ y) labels.
Proof.
  intros Hfit. induction 1 as [|row batch Hrow _ (labels & Hl & Hlen & Hin)].
  - exists []. now split_and!.
  - destruct (singlePredict_label Math_exp X y this this' row Hfit Hrow) as (c & Hc & Hp).
    exists (c :: labels). cbn [map_throwing map length]. rewrite Hp, Hl. cbn [bind].
    split_and!; [reflexivity|now rewrite Hlen|now constructor].
Qed.

Lemma map_throwing_Forall2 {A B} (f : A -> result B) (xs : list A) (ys : list B) :
  map_throwing f xs = Ok ys <-> Forall2 (fun x y => f x = Ok y) xs ys.
Proof.
  split.
  - revert ys; induction xs as [|x xs IH]; intros ys; cbn [map_throwing].
    + intros [= <-]. constructor.
    + destruct (f x) as [y|] eqn:Hy; [|discriminate]. cbn [bind].
      destruct (map_throwing f xs) as [ys'|]; [|discriminate]. cbn [bind].
      intros [= <-]. constructor; [assumption|now apply IH].
  - induction 1 as [|x y xs ys Hxy _ IH]; cbn [map_throwing]; [reflexivity|].
    now rewrite Hxy, IH.
Qed.

End Labels.

End BatchFacts.

Import BatchFacts.

Module IteratorFacts.
Import GaussianNB.

Section Labels.
Context {T : Type} {T_eq : EqDecision T} {T_str : ToString T}.
#[local] Abbreviation Label := T.
#[local] Abbreviation t := (GaussianNB.t T).

Section Iterator.
Variable Math_exp : number -> number.
Variable this : t.

Lemma calls_Completed (n : nat) :
  calls Math_exp this n Completed = replicate n (Ok None).
Proof. induction n as [|n IH]; [reflexivity|]. cbn [calls next replicate]. now rewrite IH. Qed.

Lemma calls_exhausted (n : nat) :
  calls Math_exp this n (Suspended []) = replicate n (Ok None).
Proof.
  destruct n as [|n]; [reflexivity|].
  cbn [calls next predictIterator_next replicate]. now rewrite calls_Completed.
Qed.

Lemma calls_yield (X : list (list number)) (labels : list (option Label))
    (rest : list (list number)) (n : nat) :
  Forall2 (fun row l => singlePredict Math_exp this row = Ok l) X labels ->
  calls Math_exp this (length X + n) (Suspended (X ++ rest))
  = map (fun l => Ok (Some l)) labels ++ calls Math_exp this n (Suspended rest).
Proof.
  induction 1 as [|row l X labels Hrow _ IH]; [reflexivity|].
  cbn [length Nat.add app calls next predictIterator_next map]. rewrite Hrow.
  now rewrite IH.
Qed.

End Iterator.

End Labels.

End IteratorFacts.

Import IteratorFacts.

(* ===================================================================== *)
(** * Checkpoints that were not exported *)
(* ===================================================================== *)

Module CheckpointFacts.
Import GaussianNB.

Section Labels.
Context {T : Type} {T_eq : EqDecision T} {T_str : ToString T}.
#[local] Abbreviation Label := T.
#[local] Abbreviation t := (GaussianNB.t T).

Lemma tensor2d_Ok_inv (values : list (list number)) (t : Tensor2D) :
  tensor2d values = Ok t ->
  t = map (map fround) values /\ values <> []
  /\ rows_of_length (length (hd [] values)) values.
Proof.
  unfold tensor2d. destruct (rectangular values) eqn:Hr; [|discriminate].
  intros [= <-]. apply rectangular_rows in Hr as [Hne Hrows]. auto.
Qed.

(** The numbers that [toJSON] writes for a tensor made by [tf.tensor2d]. *)
Lemma reshape_dataSync_tensor2d (values : list (list number)) (t : Tensor2D) :
  tensor2d values = Ok t ->
  reshape (dataSync t) (shape t) = map (map (fun x => widen (fround x))) values.
Proof.
  intros H. apply tensor2d_Ok_inv in H as (-> & Hne & Hrows).
  set (f := length (hd [] values)) in *.
  rewrite (shape_rows f).
  - unfold dataSync. rewrite concat_map_map.
    rewrite <- (length_map (map widen)).
    rewrite reshape_concat by now do 2 apply rows_of_length_map.
    rewrite map_map. apply map_ext. intros row. now rewrite map_map.
  - now destruct values.
  - now apply rows_of_length_map.
Qed.

Lemma fromJSON_Ok_inv (s : ModelState.t T) (this this' : t) :
  fromJSON s this = (Ok tt, this') ->
  exists M V,
    tensor2d (ModelState.mean s) = Ok M /\ tensor2d (ModelState.variance s) = Ok V
    /\ this' = {| classCategories := ModelState.classCategories s;
                  mean := Some M; variance := Some V |}.
Proof.
  unfold fromJSON, seq_method, set_classCategories, lift, set_mean, set_variance.
  destruct (tensor2d (ModelState.mean s)) as [M|]; [|discriminate].
  destruct (tensor2d (ModelState.variance s)) as [V|]; [|discriminate].
  cbn. intros [= <-]. now exists M, V.
Qed.

Lemma map_map_id {A} (g : A -> A) (t : list (list A)) :
  Forall (Forall (fun x => g x = x)) t -> map (map g) t = t.
Proof.
  induction 1 as [|row t Hrow _ IH]; [reflexivity|]. cbn [map]. f_equal; [|exact IH].
  induction Hrow as [|x row Hx _ IHrow]; [reflexivity|]. cbn [map]. now rewrite Hx, IHrow.
Qed.

Lemma reshape_dataSync (f : nat) (t : Tensor2D) :
  t <> [] -> rows_of_length f t ->
  reshape (dataSync t) (shape t) = map (map widen) t.
Proof.
  intros Hne Hrows. rewrite (shape_rows f) by assumption.
  unfold dataSync. rewrite concat_map_map.
  rewrite <- (length_map (map widen) t).
  apply reshape_concat. now apply rows_of_length_map.
Qed.

End Labels.

End CheckpointFacts.

Import CheckpointFacts.

(* ===================================================================== *)
(** * Rows without a label *)
(* ===================================================================== *)

Module GroupFacts.
Import GaussianNB.

Section Labels.
Context {T : Type} {T_eq : EqDecision T} {T_str : ToString T}.
#[local] Abbreviation Label := T.
#[local] Abbreviation t := (GaussianNB.t T).

Lemma reduce_missing_label (X : list (list number)) (y : list Label)
    (init : gmap string (list (option (list number)))) :
  (length y < length X)%nat ->
  reduce group_step (zip X y) init = Throw TypeError.
Proof.
  revert y init; induction X as [|row X IH]; intros y init Hlen; [cbn in Hlen; lia|].
  destruct y as [|c y].
  - cbn [zip map]. rewrite reduce_cons. cbn [group_step defined bind].
    reflexivity.
  - cbn [zip]. rewrite reduce_cons. cbn [group_step defined bind].
    cbn [length] in Hlen.
    destruct (get init (toString c)) as [[rows|]|]; cbn [bind];
      [apply IH; lia|reflexivity|apply IH; lia].
Qed.

End Labels.

End GroupFacts.

Import GroupFacts.

(* ===================================================================== *)
(** * The order and the signs of numbers *)
(* ===================================================================== *)

Module OrderFacts.
#[local] Open Scope Z_scope.

Lemma SFltb_finite (s1 s2 : bool) (m1 m2 : positive) (e1 e2 : Z) :
  SFltb (S754_finite s1 m1 e1) (S754_finite s2 m2 e2) = true <->
  (s1 = true /\ s2 = false)
  \/ (s1 = false /\ s2 = false /\ (e1 < e2 \/ (e1 = e2 /\ Zpos m1 < Zpos m2)))
  \/ (s1 = true /\ s2 = true /\ (e2 < e1 \/ (e1 = e2 /\ Zpos m2 < Zpos m1))).
Proof.
  unfold SFltb. cbn [SFcompare]. change (Pos.compare_cont Eq m1 m2) with (Pos.compare m1 m2).
  destruct s1, s2; destruct (Z.compare_spec e1 e2); destruct (Pos.compare_spec m1 m2);
    cbn [CompOpp]; split; intros H'; try discriminate; try reflexivity;
    try (exfalso; intuition (try discriminate; try lia); fail);
    intuition (try discriminate; try lia).
Qed.

Ltac finite_order :=
  repeat match goal with
  | H : SFltb (S754_finite _ _ _) (S754_finite _ _ _) = true |- _ =>
      apply SFltb_finite in H
  | H : SFltb (S754_finite _ _ _) (S754_finite _ _ _) = false |- _ =>
      apply not_true_iff_false in H; rewrite SFltb_finite in H
  | |- SFltb (S754_finite _ _ _) (S754_finite _ _ _) = true =>
      apply SFltb_finite
  | |- SFltb (S754_finite _ _ _) (S754_finite _ _ _) = false =>
      apply not_true_iff_false; rewrite SFltb_finite
  end.

Ltac order_cases :=
  unfold gt in *; finite_order;
  repeat match goal with s : bool |- _ => destruct s end;
  try (cbv in *; congruence);
  try (intuition (try discriminate; try congruence; try lia); fail).

Lemma gt_irrefl (a : number) : gt a a = false.
Proof. destruct a; order_cases. Qed.

(** [w <= m < v] gives [w < v]. *)
Lemma gt_le_lt (v m w : number) :
  gt v m = true -> gt w m = false -> w <> NaN -> gt v w = true.
Proof. unfold NaN. destruct v, m, w; intros H1 H2 H3; order_cases. Qed.

Lemma gt_asym (a b : number) : gt a b = true -> gt b a = false.
Proof. destruct a, b; intros H; order_cases. Qed.

Lemma gt_NaN_l (a : number) : gt NaN a = false.
Proof. now destruct a. Qed.

End OrderFacts.

Import OrderFacts.

Module SignFacts.
Import Rounding.
#[local] Open Scope Z_scope.

Lemma binary_round_aux_sign (prec emax : Z) (s : bool) (mx ex : Z) lx :
  0 <= mx -> sign (binary_round_aux prec emax s mx ex lx) = Some s.
Proof.
  intros Hm. unfold binary_round_aux, shr_fexp at 1.
  destruct (shr_spec mx ex (fexp prec emax (Zdigits2 mx + ex) - ex) lx Hm)
    as (mrs & -> & Hmrs).
  set (m2 := round_nearest_even (shr_m mrs) (loc_of_shr_record mrs)).
  assert (H1 : 0 <= shr_m mrs) by (rewrite Hmrs; apply Z.div_pos; lia).
  assert (H2 : 0 <= m2).
  { pose proof (round_nearest_even_range (shr_m mrs) (loc_of_shr_record mrs)) as Hr.
    unfold m2. lia. }
  unfold shr_fexp.
  match goal with |- context [shr (shr_record_of_loc m2 loc_Exact) ?e ?n] =>
    destruct (shr_spec m2 e n loc_Exact H2) as (mrs' & -> & Hmrs') end.
  assert (H3 : 0 <= shr_m mrs') by (rewrite Hmrs'; apply Z.div_pos; lia).
  destruct (shr_m mrs') as [|p|p]; [reflexivity| |lia].
  now destruct (_ <=? _).
Qed.

Lemma binary_round_sign (prec emax : Z) (s : bool) (m : positive) (e : Z) :
  sign (binary_round prec emax s m e) = Some s.
Proof.
  unfold binary_round. destruct (shl_align _ _ _) as [mz ez].
  now apply binary_round_aux_sign.
Qed.

Lemma fround_sign (x : number) : sign (fround x) = sign x.
Proof. destruct x; try reflexivity. apply binary_round_sign. Qed.

Lemma widen_sign (x : float32) : sign (widen x) = sign x.
Proof. destruct x; try reflexivity. apply binary_round_sign. Qed.

Lemma sign_None (x : spec_float) : sign x = None <-> x = NaN.
Proof. unfold NaN. destruct x; split; intros H; try discriminate; reflexivity. Qed.

Lemma widen_NaN (x : float32) : widen x = NaN <-> x = NaN.
Proof. now rewrite <- !sign_None, widen_sign. Qed.

(** The sign of a product with a finite factor. *)
Lemma mul_finite_sign (x : number) (s : bool) (m : positive) (e : Z) :
  sign (mul x (S754_finite s m e)) = (fun sx => xorb sx s) <$> sign x.
Proof.
  destruct x as [sx|sx| |sx mx ex]; try reflexivity.
  unfold mul. cbn [SFmul]. rewrite binary_round_aux_sign by lia. reflexivity.
Qed.

(** A square is not negative. *)
Lemma mul_self_sign (x : number) : sign (mul x x) <> Some true.
Proof.
  destruct x as [sx|sx| |sx mx ex]; try (now destruct sx); try discriminate.
  unfold mul. cbn [SFmul]. rewrite binary_round_aux_sign by lia. now destruct sx.
Qed.

Lemma div_core_nonneg (prec emax : Z) (m1 m2 : positive) (e1 e2 : Z) :
  0 <= fst (fst (SFdiv_core_binary prec emax (Zpos m1) e1 (Zpos m2) e2)).
Proof.
  unfold SFdiv_core_binary.
  set (s := _ - _ - _).
  set (m' := match s with Z0 => Zpos m1 | Zpos _ => Z.shiftl (Zpos m1) s | Zneg _ => 0 end).
  assert (Hm' : 0 <= m').
  { unfold m'. destruct s; try lia. apply Z.shiftl_nonneg. lia. }
  pose proof (Z.div_pos m' (Zpos m2) Hm' ltac:(lia)) as Hq.
  unfold Z.div in Hq. destruct (Z.div_eucl m' (Zpos m2)) as [q r]. exact Hq.
Qed.

(** A quotient of two numbers that are not negative. *)
Lemma div_sign (x y : number) :
  sign x <> Some true -> sign y = Some false -> sign (div x y) <> Some true.
Proof.
  destruct x as [sx|sx| |sx mx ex], y as [sy|sy| |sy my ey]; cbn [sign];
    intros Hx Hy; try discriminate; injection Hy as ->;
    try (destruct sx; [congruence|discriminate]).
  unfold div. cbn [SFdiv].
  pose proof (div_core_nonneg 53 1024 mx my ex ey) as Hq.
  destruct (SFdiv_core_binary _ _ _ _ _ _) as [[mz ez] lz]. cbn [fst] in Hq.
  rewrite binary_round_aux_sign by assumption. destruct sx; [congruence|discriminate].
Qed.

(** A sum of two numbers that are not negative. *)
Lemma add_sign (x y : number) :
  sign x <> Some true -> sign y <> Some true -> sign (add x y) <> Some true.
Proof.
  destruct x as [sx|sx| |sx mx ex], y as [sy|sy| |sy my ey]; cbn [sign];
    intros Hx Hy; try discriminate;
    try (destruct sx; [congruence|]); try (destruct sy; [congruence|]);
    try discriminate.
  unfold add. cbn [SFadd]. unfold cond_Zopp, binary_normalize.
  rewrite <- Pos2Z.inj_add. rewrite binary_round_sign. discriminate.
Qed.

Lemma of_nat_sign (n : nat) : sign (of_nat n) = Some false.
Proof.
  unfold of_nat, of_Z, binary_normalize. destruct (Z.of_nat n) eqn:Hn; try lia.
  - reflexivity.
  - apply binary_round_sign.
Qed.

Lemma reduce_sum_sign (vals : list float32) :
  Forall (fun v => sign v <> Some true) vals -> sign (reduce_sum vals) <> Some true.
Proof.
  intros H. unfold reduce_sum. rewrite fround_sign.
  assert (Hz : sign zero <> Some true) by discriminate. revert Hz. generalize zero as acc.
  induction H as [|v vals Hv _ IH]; intros acc Hacc; [exact Hacc|].
  cbn [fold_left]. apply IH, add_sign; [exact Hacc|now rewrite widen_sign].
Qed.

Lemma sample_mean_sign (values : list float32) :
  Forall (fun v => sign v <> Some true) values ->
  sign (Spec.sample_mean values) <> Some true.
Proof.
  intros H. unfold Spec.sample_mean. apply reduce_sum_sign.
  rewrite Forall_map. eapply Forall_impl; [exact H|]. intros v Hv. cbn beta.
  unfold kernel2. rewrite fround_sign. apply div_sign; [now rewrite widen_sign|].
  unfold scalar. now rewrite widen_sign, fround_sign, of_nat_sign.
Qed.

(** A variance is NaN, or it is not negative, and it is not [-0]. *)
Lemma population_variance_sign (values : list float32) :
  sign (Spec.population_variance values) <> Some true.
Proof.
  unfold Spec.population_variance. apply sample_mean_sign.
  rewrite Forall_map. apply Forall_true. intros v. cbn beta.
  unfold kernel1. rewrite fround_sign. apply mul_self_sign.
Qed.

End SignFacts.

Import SignFacts.

(* ===================================================================== *)
(** * The class that is selected *)
(* ===================================================================== *)

Module SelectionFacts.

(** The loop of the argMax kernel, [pre] being the values that it has
    seen: the maximum is not NaN, no value seen is greater, and every
    value seen before it is smaller, or NaN. *)
Lemma argMax_loop_first_max (vals pre : list number) (max : number) (maxIndex : nat) :
  max <> NaN -> pre !! maxIndex = Some max ->
  (forall k v, pre !! k = Some v -> gt v max = false) ->
  (forall k v, pre !! k = Some v -> (k < maxIndex)%nat -> v = NaN \/ gt max v = true) ->
  let '(max', maxIndex', _) := fold_left argMax_step vals (max, maxIndex, length pre) in
  max' <> NaN /\ (pre ++ vals) !! maxIndex' = Some max'
  /\ (forall k v, (pre ++ vals) !! k = Some v -> gt v max' = false)
  /\ (forall k v, (pre ++ vals) !! k = Some v -> (k < maxIndex')%nat ->
        v = NaN \/ gt max' v = true).
Proof.
  revert pre max maxIndex; induction vals as [|x vals IH]; intros pre max maxIndex Hn Hmax Hle Hlt.
  - cbn [fold_left]. rewrite app_nil_r. auto.
  - cbn [fold_left argMax_step].
    replace (pre ++ x :: vals) with ((pre ++ [x]) ++ vals) by (now rewrite <- app_assoc).
    replace (S (length pre)) with (length (pre ++ [x])) by (rewrite length_app; cbn; lia).
    destruct (gt x max) eqn:Hx.
    + assert (Hxn : x <> NaN) by (intros ->; now rewrite gt_NaN_l in Hx).
      apply IH.
      * exact Hxn.
      * rewrite lookup_app_r by lia. now rewrite Nat.sub_diag.
      * intros k v Hk. apply lookup_app_Some in Hk as [Hk|[_ Hk]].
        -- specialize (Hle k v Hk).
           destruct (gt v x) eqn:Hvx; [|reflexivity].
           assert (Hvn : v <> NaN) by (intros ->; now rewrite gt_NaN_l in Hvx).
           pose proof (gt_le_lt x max v Hx Hle Hvn) as Hxv.
           apply gt_asym in Hxv. congruence.
        -- apply list_lookup_singleton_Some in Hk as [_ <-]. apply gt_irrefl.
      * intros k v Hk Hlt'. apply lookup_app_Some in Hk as [Hk|[Hge _]]; [|lia].
        specialize (Hle k v Hk).
        destruct (sign v) eqn:Hsv; [right|left; now apply sign_None].
        apply (gt_le_lt x max v); try assumption.
        intros Hv. apply sign_None in Hv. congruence.
    + apply IH.
      * exact Hn.
      * rewrite lookup_app_l; [exact Hmax|]. now apply lookup_lt_Some in Hmax.
      * intros k v Hk. apply lookup_app_Some in Hk as [Hk|[_ Hk]].
        -- now apply (Hle k).
        -- now apply list_lookup_singleton_Some in Hk as [_ <-].
      * intros k v Hk Hlt'. apply lookup_app_Some in Hk as [Hk|[Hge _]].
        -- now apply (Hlt k).
        -- apply lookup_lt_Some in Hmax. lia.
Qed.

(** The index that [argMax] selects among scores whose first one is not
    NaN. *)
Lemma argMax_first_max (t : Tensor1D) (s0 : float32) :
  t !! 0%nat = Some s0 -> s0 <> NaN ->
  exists s,
    t !! argMax t = Some s /\ s <> NaN
    /\ (forall k v, t !! k = Some v -> gt (widen v) (widen s) = false)
    /\ (forall k v, t !! k = Some v -> (k < argMax t)%nat ->
          v = NaN \/ gt (widen s) (widen v) = true).
Proof.
  intros H0 Hn. destruct t as [|s0' t]; [discriminate|]. injection H0 as ->.
  unfold argMax. cbn [map hd fold_left argMax_step]. rewrite gt_irrefl.
  assert (Hw : widen s0 <> NaN) by now rewrite widen_NaN.
  pose proof (argMax_loop_first_max (map widen t) [widen s0] (widen s0) 0 Hw eq_refl) as H.
  cbn [length] in H.
  destruct (fold_left argMax_step (map widen t) (widen s0, 0%nat, 1%nat)) as [[max' i] j].
  cbn [fst snd]. destruct H as (Hmax & Hi & Hle & Hlt).
  - intros [|k] v Hk; [|discriminate]. injection Hk as <-. apply gt_irrefl.
  - intros k v _ Hk. lia.
  - change ([widen s0] ++ map widen t) with (map widen (s0 :: t)) in *.
    rewrite lookup_map in Hi.
    destruct ((s0 :: t) !! i) as [s|] eqn:Hs; [|discriminate]. injection Hi as <-.
    exists s. split; [exact Hs|]. split; [now rewrite <- widen_NaN|]. split.
    + intros k v Hk. apply (Hle k). rewrite lookup_map.
      unfold Tensor1D, float32, number in *. now rewrite Hk.
    + intros k v Hk Hki. rewrite <- (widen_NaN v). apply (Hlt k); [|exact Hki].
      rewrite lookup_map. unfold Tensor1D, float32, number in *. now rewrite Hk.
Qed.

End SelectionFacts.

Import SelectionFacts.

Module SpreadFacts.

Lemma coefficient_zero : Spec.coefficient zero = S754_infinity false.
Proof. vm_compute. reflexivity. Qed.

Lemma twice_zero : kernel2 mul zero (scalar (of_Z 2)) = zero.
Proof. vm_compute. reflexivity. Qed.

(** [-(x - m)^2], as the kernels compute it: NaN, or negative, or [-0]. *)
Lemma minus_square_sign (x m : float32) :
  sign (kernel2 mul (kernel1 Math_pow_2 (kernel2 sub x m)) (scalar (of_Z (-1))))
  <> Some false.
Proof.
  unfold kernel2 at 1. rewrite fround_sign, widen_minus_one, mul_finite_sign, widen_sign.
  unfold kernel1. rewrite fround_sign.
  pose proof (mul_self_sign (widen (kernel2 sub x m))) as H. unfold Math_pow_2.
  destruct (sign (mul _ _)) as [[]|]; cbn; congruence.
Qed.

Section WithExp.
Variable Math_exp : number -> number.
Hypothesis Math_exp_NaN : Math_exp NaN = NaN.
Hypothesis Math_exp_minus_infinity : Math_exp (S754_infinity true) = zero.

(** Without spread the exponent is [exp(-Infinity)] or [exp(NaN)], and
    [Infinity * 0] is NaN as well. *)
Lemma density_no_spread (x m : float32) : Spec.density Math_exp x m zero = NaN.
Proof.
  unfold Spec.density. rewrite coefficient_zero. unfold Spec.exponent. rewrite twice_zero.
  pose proof (minus_square_sign x m) as Hs.
  set (n := kernel2 mul (kernel1 Math_pow_2 (kernel2 sub x m)) (scalar (of_Z (-1)))) in *.
  unfold kernel2 at 2. rewrite <- widen_sign in Hs.
  destruct (widen n) as [s|s| |s mn en]; cbn [sign] in Hs.
  - destruct s; [|congruence].
    change (fround (div (S754_zero true) (widen zero))) with NaN.
    unfold kernel1. change (widen NaN) with NaN. now rewrite Math_exp_NaN.
  - destruct s; [|congruence].
    change (fround (div (S754_infinity true) (widen zero))) with (S754_infinity true).
    unfold kernel1. change (widen (S754_infinity true)) with (S754_infinity true).
    now rewrite Math_exp_minus_infinity.
  - change (fround (div S754_nan (widen zero))) with NaN.
    unfold kernel1. change (widen NaN) with NaN. now rewrite Math_exp_NaN.
  - destruct s; [|congruence].
    change (fround (div (S754_finite true mn en) (widen zero))) with (S754_infinity true).
    unfold kernel1. change (widen (S754_infinity true)) with (S754_infinity true).
    now rewrite Math_exp_minus_infinity.
Qed.

End WithExp.

(** The density of a feature that is NaN. *)
Lemma density_NaN_feature (Math_exp : number -> number) (m v : float32) :
  Math_exp NaN = NaN -> Spec.density Math_exp NaN m v = NaN.
Proof.
  intros Hexp. unfold Spec.density, Spec.exponent.
  replace (kernel2 sub NaN m) with NaN by reflexivity.
  replace (kernel1 Math_pow_2 NaN) with NaN by reflexivity.
  replace (kernel2 mul NaN (scalar (of_Z (-1)))) with NaN by reflexivity.
  replace (kernel2 div NaN (kernel2 mul v (scalar (of_Z 2)))) with NaN by reflexivity.
  unfold kernel1. change (widen NaN) with NaN. rewrite Hexp.
  unfold kernel2. change (widen (fround NaN)) with NaN. now rewrite mul_NaN_r.
Qed.

End SpreadFacts.

Import SpreadFacts.

Module ScoreFacts.
Import GaussianNB.

Section Labels.
Context {T : Type} {T_eq : EqDecision T} {T_str : ToString T}.
#[local] Abbreviation Label := T.
#[local] Abbreviation t := (GaussianNB.t T).

Lemma per_class_Forall (Pr : float32 -> Prop) (moment : list float32 -> float32)
    (X : list (list number)) (y : list Label) (catalog : list Label) :
  (forall values, Pr (moment values)) ->
  Forall (Forall Pr) (Spec.per_class moment X y catalog).
Proof.
  intros Hm. unfold Spec.per_class. rewrite Forall_map. apply Forall_true. intros c.
  rewrite Forall_map. apply Forall_true. intros j. apply Hm.
Qed.

Lemma entry_Forall {A} (Pr : A -> Prop) (t : list (list A)) (i j : nat) (a : A) :
  Forall (Forall Pr) t -> Spec.entry t i j = Some a -> Pr a.
Proof.
  intros Ht Ha. apply entry_Some in Ha as (row & Hrow & Ha).
  rewrite Forall_lookup in Ht. specialize (Ht i row Hrow).
  rewrite Forall_lookup in Ht. exact (Ht j a Ha).
Qed.

(** An entry of the variance of a fitted instance is NaN, or it is not
    negative, and it is not [-0]. *)
Lemma variance_entry_sign (X : list (list number)) (y : list Label) (this this' : t)
    (V : Tensor2D) (i j : nat) (v : float32) :
  fit X y this = (Ok tt, this') -> variance this' = Some V ->
  Spec.entry V i j = Some v -> sign v <> Some true.
Proof.
  intros Hfit HV Hv. apply fit_Ok_inv in Hfit as (_ & _ & ->). cbn [variance] in HV.
  injection HV as <-. revert Hv. apply (entry_Forall (fun v => sign v <> Some true)).
  apply (per_class_Forall (fun v => sign v <> Some true)), population_variance_sign.
Qed.

(** A variance that is [=== 0] is [+0]. *)
Lemma variance_entry_zero (X : list (list number)) (y : list Label) (this this' : t)
    (V : Tensor2D) (i j : nat) (v : float32) :
  fit X y this = (Ok tt, this') -> variance this' = Some V ->
  Spec.entry V i j = Some v -> strict_eq (widen v) zero = true -> v = zero.
Proof.
  intros Hfit HV Hv Hz.
  pose proof (variance_entry_sign X y this this' V i j v Hfit HV Hv) as Hs.
  destruct (fitted_fields X y this this' Hfit)
    as (c & M' & V' & _ & _ & HV' & _ & _ & _ & _ & _ & _ & _ & _ & _ & _ & HfV & _).
  assert (V' = V) by congruence. subst V'.
  pose proof (strict_eq_zero v (entry_float32 V i j v HfV Hv) Hz) as Hzero.
  destruct v as [[]| | |]; try discriminate; [now cbn in Hs|reflexivity].
Qed.

Lemma rows_of_length_entry {A} (f : nat) (t : list (list A)) (i j : nat) :
  rows_of_length f t -> (i < length t)%nat -> (j < f)%nat ->
  exists a, Spec.entry t i j = Some a.
Proof.
  intros Hrows Hi Hj. apply lookup_lt_is_Some in Hi as [row Hrow].
  unfold rows_of_length in Hrows. rewrite Forall_lookup in Hrows.
  pose proof (Hrows i row Hrow) as Hlen.
  assert (Hj' : (j < length row)%nat) by lia.
  apply lookup_lt_is_Some in Hj' as [a Ha]. exists a. apply entry_Some. eauto.
Qed.

Lemma entry_bounds {A} (f : nat) (t : list (list A)) (i j : nat) (a : A) :
  rows_of_length f t -> Spec.entry t i j = Some a -> (i < length t)%nat /\ (j < f)%nat.
Proof.
  intros Hrows Ha. apply entry_Some in Ha as (row & Hrow & Ha).
  unfold rows_of_length in Hrows. rewrite Forall_lookup in Hrows.
  rewrite <- (Hrows i row Hrow). split; eapply lookup_lt_Some; eauto.
Qed.

Section WithExp.
Variable Math_exp : number -> number.

(** An entry of the tensor of densities. *)
Lemma densities_entry (x : Tensor1D) (M V : Tensor2D) (i j : nat) (xj m v : float32) :
  x !! j = Some xj -> Spec.entry M i j = Some m -> Spec.entry V i j = Some v ->
  Spec.entry (zip_with (Spec.row_densities Math_exp x) M V) i j
  = Some (Spec.density Math_exp xj m v).
Proof.
  intros Hx Hm Hv.
  apply entry_Some in Hm as (mrow & HMi & Hm). apply entry_Some in Hv as (vrow & HVi & Hv).
  apply entry_Some. exists (Spec.row_densities Math_exp x mrow vrow). split.
  - apply lookup_zip_with_Some. now exists mrow, vrow.
  - now apply row_densities_lookup.
Qed.

Lemma densities_rows (f : nat) (x : Tensor1D) (M V : Tensor2D) :
  length x = f -> rows_of_length f M -> rows_of_length f V ->
  rows_of_length f (zip_with (Spec.row_densities Math_exp x) M V).
Proof.
  intros Hx HM HV. unfold rows_of_length in *.
  rewrite Forall_lookup in HM. rewrite Forall_lookup in HV. rewrite Forall_lookup.
  intros i row Hrow. apply lookup_zip_with_Some in Hrow as (mrow & vrow & -> & Hm & Hv).
  unfold Spec.row_densities. rewrite !length_zip_with, (HM i mrow Hm), (HV i vrow Hv). lia.
Qed.

(** The score of a class without spread in some feature. *)
Lemma score_no_spread (X : list (list number)) (y : list Label) (this this' : t)
    (M V : Tensor2D) (row : list number) (i j : nat) (v : float32) :
  Math_exp NaN = NaN -> Math_exp (S754_infinity true) = zero ->
  fit X y this = (Ok tt, this') ->
  mean this' = Some M -> variance this' = Some V ->
  length row = Spec.numFeatures X ->
  Spec.entry V i j = Some v -> strict_eq (widen v) zero = true ->
  Spec.entry (zip_with (Spec.row_densities Math_exp (tensor1d row)) M V) i j = Some NaN
  /\ prod_1 (zip_with (Spec.row_densities Math_exp (tensor1d row)) M V) !! i = Some NaN.
Proof.
  intros Hnan Hinf Hfit HM HV Hlen Hv Hz.
  pose proof (variance_entry_zero X y this this' V i j v Hfit HV Hv Hz) as ->.
  destruct (fitted_fields X y this this' Hfit)
    as (c & M' & V' & _ & HM' & HV' & _ & _ & _ & _ & _ & HlM & HlV & HrM & HrV & _).
  assert (M' = M) by congruence. assert (V' = V) by congruence. subst M' V'.
  destruct (entry_bounds _ V i j zero HrV Hv) as [Hi Hj].
  destruct (rows_of_length_entry _ M i j HrM ltac:(lia) Hj) as [m Hm].
  assert (Hx : exists xj, tensor1d row !! j = Some xj).
  { apply lookup_lt_is_Some. unfold tensor1d. rewrite length_map. lia. }
  destruct Hx as [xj Hx].
  pose proof (densities_entry (tensor1d row) M V i j xj m zero Hx Hm Hv) as Hd.
  rewrite density_no_spread in Hd by assumption. split; [exact Hd|].
  apply entry_Some in Hd as (prow & Hprow & Hnan').
  unfold prod_1. etransitivity; [apply (lookup_map reduce_prod)|].
  unfold Tensor2D, Tensor1D, float32 in *. rewrite Hprow. cbn. f_equal.
  apply reduce_prod_NaN. eapply list_elem_of_lookup_2, Hnan'.
Qed.

End WithExp.

(** What a fitted instance returns for a row of the trained length, by
    the scores of the classes. *)
Lemma singlePredict_scores (Math_exp : number -> number)
    (X : list (list number)) (y : list Label) (this this' : t)
    (catalog : list Label) (M V P : Tensor2D) (row : list number) :
  fit X y this = (Ok tt, this') ->
  classCategories this' = Some catalog -> mean this' = Some M -> variance this' = Some V ->
  length row = Spec.numFeatures X ->
  probabilityArray Math_exp M V (tensor1d row) = Ok P ->
  P = zip_with (Spec.row_densities Math_exp (tensor1d row)) M V
  /\ length (prod_1 P) = length catalog /\ catalog <> []
  /\ singlePredict Math_exp this' row = Ok (catalog !! argMax (prod_1 P)).
Proof.
  intros Hfit Hc HM HV Hlen HP.
  destruct (singlePredict_fitted Math_exp X y this this' row Hfit)
    as (c' & M' & V' & Hc' & HM' & HV' & _ & Hgood).
  assert (c' = catalog) by congruence. assert (M' = M) by congruence.
  assert (V' = V) by congruence. subst c' M' V'.
  destruct (Hgood Hlen) as [HP' Hpredict].
  assert (P = zip_with (Spec.row_densities Math_exp (tensor1d row)) M V) by congruence.
  subst P.
  destruct (fitted_fields X y this this' Hfit)
    as (c' & M' & V' & Hc'' & HM'' & HV'' & _ & _ & _ & Hne & _ & HlM & HlV & _).
  assert (c' = catalog) by congruence. assert (M' = M) by congruence.
  assert (V' = V) by congruence. subst c' M' V'.
  split_and!; try assumption; [reflexivity|].
  unfold prod_1. rewrite length_map, length_zip_with. lia.
Qed.

End Labels.

End ScoreFacts.

Import ScoreFacts.

(* ===================================================================== *)
(** * Further properties of the classifier *)
(* ===================================================================== *)

(** X1: fit is all or nothing, and it starts afresh.  Whether it throws,
    and what, does not depend on the instance; when it throws, no field
    has been assigned; when it returns, the three fields are what a fit
    on any other instance would have left. *)
Theorem fit_all_or_nothing {T : Type} {T_eq : EqDecision T} {T_str : ToString T}
    (X : list (list number)) (y : list T) (this other : t T) :
  fst (fit X y this) = fst (fit X y other)
  /\ match fit X y this with
     | (Ok _, this') => this' = snd (fit X y other)
     | (Throw _, this') => this' = this
     end.
Proof.
  unfold fit, seq_method, lift.
  destruct (validateFitInputs X y) as [[]|e]; [|now split].
  destruct (fitModel X y) as [r|e]; now split.
Qed.

(** X2: on a fitted instance, a batch that passes the validation and
    whose rows all have the trained length gets one label per row, in
    order, and every label is a label of the training set: predict
    returns no [undefined] and leaves the instance as it is. *)
Theorem predict_one_label_per_row {T : Type} {T_eq : EqDecision T} {T_str : ToString T}
    (Math_exp : number -> number)
    (X : list (list number)) (y : list T) (this this' : t T)
    (batch : list (list number)) :
  fit X y this = (Ok tt, this') ->
  validateMatrix2D batch = Ok tt ->
  Forall (fun row => length row = Spec.numFeatures X) batch ->
  exists labels,
    predict Math_exp batch this' = (Ok (map Some labels), this')
    /\ length labels = length batch
    /\ Forall (fun c => c ∈ y) labels.
Proof.
  intros Hfit Hv Hrows. unfold predict. rewrite Hv. cbn [bind].
  destruct (map_throwing_labels Math_exp X y this this' batch Hfit Hrows)
    as (labels & -> & Hlen & Hin).
  now exists labels.
Qed.

Lemma predict_one_label_per_row_witness :
  fit Examples.X Examples.y new = (Ok tt, Examples.fitted)
  /\ validateMatrix2D [[of_Z 1; of_Z 20]; [of_Z 4; of_Z 22]] = Ok tt
  /\ Forall (fun row => length row = Spec.numFeatures Examples.X)
       [[of_Z 1; of_Z 20]; [of_Z 4; of_Z 22]]
  /\ exists labels,
       predict Reference.Math_exp [[of_Z 1; of_Z 20]; [of_Z 4; of_Z 22]] Examples.fitted
       = (Ok (map Some labels), Examples.fitted)
       /\ length labels = length [[of_Z 1; of_Z 20]; [of_Z 4; of_Z 22]]
       /\ Forall (fun c => c ∈ Examples.y) labels.
Proof.
  assert (H1 : fit Examples.X Examples.y new = (Ok tt, Examples.fitted))
    by (vm_compute; reflexivity).
  assert (H3 : Forall (fun row => length row = Spec.numFeatures Examples.X)
                 [[of_Z 1; of_Z 20]; [of_Z 4; of_Z 22]]) by (repeat constructor).
  split; [exact H1|]. split; [reflexivity|]. split; [exact H3|].
  exact (predict_one_label_per_row Reference.Math_exp Examples.X Examples.y new
           Examples.fitted [[of_Z 1; of_Z 20]; [of_Z 4; of_Z 22]] H1 eq_refl H3).
Defined.

(** X4: when predict returns labels for a batch, the iterator over the
    same rows yields exactly these labels, one at each call of next(),
    and reports that it is done at every call after them. *)
Theorem iterator_yields_labels_of_predict {T : Type} {T_eq : EqDecision T} {T_str : ToString T}
    (Math_exp : number -> number)
    (this : t T) (X : list (list number)) (labels : list (option T)) (k : nat) :
  fst (predict Math_exp X this) = Ok labels ->
  calls Math_exp this (length X + k) (predictIterator X)
  = map (fun l => Ok (Some l)) labels ++ replicate k (Ok None).
Proof.
  unfold predict. cbn [fst]. destruct (validateMatrix2D X); cbn [bind]; [|discriminate].
  intros H. apply map_throwing_Forall2 in H.
  unfold predictIterator. rewrite <- (app_nil_r X) at 2.
  rewrite (calls_yield Math_exp this X labels [] k H). now rewrite calls_exhausted.
Qed.

Lemma iterator_yields_labels_of_predict_witness :
  fst (predict Reference.Math_exp [[of_Z 1; of_Z 20]; [of_Z 4; of_Z 22]] Examples.fitted)
  = Ok [Some 1%Z; Some 0%Z]
  /\ calls Reference.Math_exp Examples.fitted
       (length [[of_Z 1; of_Z 20]; [of_Z 4; of_Z 22]] + 2)
       (predictIterator [[of_Z 1; of_Z 20]; [of_Z 4; of_Z 22]])
     = map (fun l => Ok (Some l)) [Some 1%Z; Some 0%Z] ++ replicate 2 (Ok None).
Proof.
  assert (H1 : fst (predict Reference.Math_exp [[of_Z 1; of_Z 20]; [of_Z 4; of_Z 22]]
                      Examples.fitted) = Ok [Some 1%Z; Some 0%Z])
    by (vm_compute; reflexivity).
  split; [exact H1|].
  exact (iterator_yields_labels_of_predict Reference.Math_exp Examples.fitted _ _ 2 H1).
Defined.

(** X5: the iterator runs no check ahead.  Over rows of which one makes
    singlePredict throw, it yields the labels of the rows before that
    one, throws at the call that reaches it, and is done from then on:
    the rows after it are never read.  predict throws on the same rows
    and returns no label. *)
Theorem iterator_fails_at_the_row {T : Type} {T_eq : EqDecision T} {T_str : ToString T}
    (Math_exp : number -> number)
    (this : t T) (before after : list (list number)) (bad : list number)
    (labels : list (option T)) (e : exn) (k : nat) :
  Forall2 (fun row l => singlePredict Math_exp this row = Ok l) before labels ->
  singlePredict Math_exp this bad = Throw e ->
  calls Math_exp this (length before + S k) (predictIterator (before ++ bad :: after))
  = map (fun l => Ok (Some l)) labels ++ Throw e :: replicate k (Ok None)
  /\ exists e', predict Math_exp (before ++ bad :: after) this = (Throw e', this).
Proof.
  intros Hb Hbad. split.
  - unfold predictIterator. rewrite (calls_yield Math_exp this before labels _ _ Hb).
    f_equal. cbn [calls next predictIterator_next]. rewrite Hbad.
    now rewrite calls_Completed.
  - unfold predict. destruct (validateMatrix2D _) as [[]|e']; cbn [bind]; [|now exists e'].
    exists e. apply map_throwing_Forall2 in Hb.
    now rewrite (map_throwing_app_Throw _ _ _ _ _ _ Hb Hbad).
Qed.

Lemma iterator_fails_at_the_row_witness :
  Forall2 (fun row l => singlePredict Reference.Math_exp Examples.fitted row = Ok l)
    [[of_Z 1; of_Z 20]] [Some 1%Z]
  /\ singlePredict Reference.Math_exp Examples.fitted [of_Z 1]
     = Throw (Error (dimension_message 1 2))
  /\ calls Reference.Math_exp Examples.fitted (length [[of_Z 1; of_Z 20]] + 2)
       (predictIterator ([[of_Z 1; of_Z 20]] ++ [of_Z 1] :: [[of_Z 4; of_Z 22]]))
     = map (fun l => Ok (Some l)) [Some 1%Z]
       ++ Throw (Error (dimension_message 1 2)) :: replicate 1 (Ok None)
  /\ exists e',
       predict Reference.Math_exp ([[of_Z 1; of_Z 20]] ++ [of_Z 1] :: [[of_Z 4; of_Z 22]])
         Examples.fitted
       = (Throw e', Examples.fitted).
Proof.
  assert (H1 : Forall2 (fun row l => singlePredict Reference.Math_exp Examples.fitted row = Ok l)
                 [[of_Z 1; of_Z 20]] [Some 1%Z])
    by (repeat constructor; vm_compute; reflexivity).
  assert (H2 : singlePredict Reference.Math_exp Examples.fitted [of_Z 1]
               = Throw (Error (dimension_message 1 2))) by (vm_compute; reflexivity).
  split; [exact H1|]. split; [exact H2|].
  exact (iterator_fails_at_the_row Reference.Math_exp Examples.fitted _
           [[of_Z 4; of_Z 22]] _ _ _ 1 H1 H2).
Defined.

(** X6: exporting what was imported gives the checkpoint back with
    every number rounded to float32: the catalog as it was, the
    matrices row by row.  A checkpoint whose numbers are float32 values
    comes back unchanged. *)
Theorem import_then_export {T : Type} {T_eq : EqDecision T} {T_str : ToString T}
    (s : ModelState.t T) (this this' : t T) :
  fromJSON s this = (Ok tt, this') ->
  toJSON this'
  = Ok {| ModelState.classCategories := ModelState.classCategories s;
          ModelState.mean := map (map (fun x => widen (fround x))) (ModelState.mean s);
          ModelState.variance := map (map (fun x => widen (fround x))) (ModelState.variance s) |}
  /\ (Forall (Forall (fun x => widen (fround x) = x)) (ModelState.mean s) ->
      Forall (Forall (fun x => widen (fround x) = x)) (ModelState.variance s) ->
      toJSON this' = Ok s).
Proof.
  intros H. apply fromJSON_Ok_inv in H as (M & V & HM & HV & ->).
  assert (Hexport : toJSON {| classCategories := ModelState.classCategories s;
                              mean := Some M; variance := Some V |}
          = Ok {| ModelState.classCategories := ModelState.classCategories s;
                  ModelState.mean := map (map (fun x => widen (fround x))) (ModelState.mean s);
                  ModelState.variance := map (map (fun x => widen (fround x))) (ModelState.variance s) |}).
  { unfold toJSON. cbn [mean variance classCategories defined bind].
    now rewrite (reshape_dataSync_tensor2d _ _ HM), (reshape_dataSync_tensor2d _ _ HV). }
  split; [exact Hexport|].
  intros Hm Hv. rewrite Hexport. rewrite (map_map_id _ _ Hm), (map_map_id _ _ Hv).
  now destruct s.
Qed.

Lemma import_then_export_witness :
  fromJSON Examples.mismatched new = (Ok tt, {| classCategories := Some [0%Z];
        mean := Some [[fround (of_Z 1)]];
        variance := Some [[fround (of_Z 1); fround (of_Z 2)]] |})
  /\ toJSON ({| classCategories := Some [0%Z];
        mean := Some [[fround (of_Z 1)]];
        variance := Some [[fround (of_Z 1); fround (of_Z 2)]] |})
     = Ok {| ModelState.classCategories := ModelState.classCategories Examples.mismatched;
             ModelState.mean :=
               map (map (fun x => widen (fround x))) (ModelState.mean Examples.mismatched);
             ModelState.variance :=
               map (map (fun x => widen (fround x))) (ModelState.variance Examples.mismatched) |}
  /\ (Forall (Forall (fun x => widen (fround x) = x)) (ModelState.mean Examples.mismatched) ->
      Forall (Forall (fun x => widen (fround x) = x)) (ModelState.variance Examples.mismatched) ->
      toJSON ({| classCategories := Some [0%Z];
        mean := Some [[fround (of_Z 1)]];
        variance := Some [[fround (of_Z 1); fround (of_Z 2)]] |}) = Ok Examples.mismatched).
Proof.
  assert (H1 : fromJSON Examples.mismatched new
               = (Ok tt, {| classCategories := Some [0%Z];
        mean := Some [[fround (of_Z 1)]];
        variance := Some [[fround (of_Z 1); fround (of_Z 2)]] |})) by reflexivity.
  split; [exact H1|].
  exact (import_then_export Examples.mismatched new _ H1).
Defined.

(** X7: an import that throws is not rolled back.  The catalog is
    assigned before the matrices are built, so the instance has the
    catalog of the checkpoint afterwards, its old variance, and its old
    mean, or the new mean when it was the variance that was refused. *)
Theorem failed_import_is_not_rolled_back {T : Type} {T_eq : EqDecision T} {T_str : ToString T}
    (s : ModelState.t T) (this this' : t T) (e : exn) :
  fromJSON s this = (Throw e, this') ->
  classCategories this' = ModelState.classCategories s
  /\ variance this' = variance this
  /\ ((tensor2d (ModelState.mean s) = Throw e /\ mean this' = mean this)
      \/ (tensor2d (ModelState.variance s) = Throw e
          /\ tensor2d (ModelState.mean s) = Ok (map (map fround) (ModelState.mean s))
          /\ mean this' = Some (map (map fround) (ModelState.mean s)))).
Proof.
  unfold fromJSON, seq_method, set_classCategories, lift, set_mean, set_variance.
  destruct (tensor2d (ModelState.mean s)) as [M|e1] eqn:HM.
  - destruct (tensor2d (ModelState.variance s)) as [V|e2]; [discriminate|].
    cbn. intros [= <- <-]. cbn. split_and!; try reflexivity. right.
    apply tensor2d_Ok_inv in HM as (-> & _). auto.
  - cbn. intros [= <- <-]. cbn. auto.
Qed.

Lemma failed_import_is_not_rolled_back_witness :
  fromJSON Examples.no_mean Examples.fitted
  = (Throw TensorError,
     {| classCategories := Some [7; 8]%Z;
        mean := mean Examples.fitted; variance := variance Examples.fitted |})
  /\ classCategories {| classCategories := Some [7; 8]%Z;
                        mean := mean Examples.fitted; variance := variance Examples.fitted |}
     = ModelState.classCategories Examples.no_mean
  /\ variance {| classCategories := Some [7; 8]%Z;
                 mean := mean Examples.fitted; variance := variance Examples.fitted |}
     = variance Examples.fitted
  /\ ((tensor2d (ModelState.mean Examples.no_mean) = Throw TensorError
       /\ mean {| classCategories := Some [7; 8]%Z;
                  mean := mean Examples.fitted; variance := variance Examples.fitted |}
          = mean Examples.fitted)
      \/ (tensor2d (ModelState.variance Examples.no_mean) = Throw TensorError
          /\ tensor2d (ModelState.mean Examples.no_mean)
             = Ok (map (map fround) (ModelState.mean Examples.no_mean))
          /\ mean {| classCategories := Some [7; 8]%Z;
                     mean := mean Examples.fitted; variance := variance Examples.fitted |}
             = Some (map (map fround) (ModelState.mean Examples.no_mean)))).
Proof.
  assert (H1 : fromJSON Examples.no_mean Examples.fitted
               = (Throw TensorError,
                  {| classCategories := Some [7; 8]%Z;
                     mean := mean Examples.fitted; variance := variance Examples.fitted |}))
    by reflexivity.
  split; [exact H1|].
  exact (failed_import_is_not_rolled_back Examples.no_mean Examples.fitted _ _ H1).
Defined.

(** X8: import does not look at the catalog.  For a checkpoint whose
    mean and variance have one shape, and a row of that length,
    singlePredict selects an index below the number of rows of the
    mean and returns the catalog entry there, [undefined] when the
    catalog has none; without a catalog it throws a TypeError. *)
Theorem import_does_not_check_catalog {T : Type} {T_eq : EqDecision T} {T_str : ToString T}
    (Math_exp : number -> number)
    (s : ModelState.t T) (this this' : t T) (row : list number) :
  fromJSON s this = (Ok tt, this') ->
  shape (map (map fround) (ModelState.variance s)) = shape (map (map fround) (ModelState.mean s)) ->
  length row = snd (shape (map (map fround) (ModelState.mean s))) ->
  match ModelState.classCategories s with
  | None => singlePredict Math_exp this' row = Throw TypeError
  | Some catalog =>
      exists i, (i < length (ModelState.mean s))%nat
                /\ singlePredict Math_exp this' row = Ok (catalog !! i)
  end.
Proof.
  intros H Hshape Hrow. apply fromJSON_Ok_inv in H as (M & V & HM & HV & ->).
  apply tensor2d_Ok_inv in HM as (-> & HneM & HrM).
  apply tensor2d_Ok_inv in HV as (-> & HneV & HrV).
  set (M := map (map fround) (ModelState.mean s)) in *.
  set (V := map (map fround) (ModelState.variance s)) in *.
  set (f := length (hd [] (ModelState.mean s))) in *.
  assert (HM : rows_of_length f M) by now apply rows_of_length_map.
  assert (HMne : M <> []) by (unfold M; now destruct (ModelState.mean s)).
  assert (HVne : V <> []) by (unfold V; now destruct (ModelState.variance s)).
  rewrite (shape_rows f M HMne HM) in Hshape, Hrow. cbn [snd] in Hrow.
  assert (HV : rows_of_length f V).
  { apply (rows_of_length_map fround) in HrV. fold V in HrV.
    rewrite (shape_rows _ V HVne HrV) in Hshape. injection Hshape as _ <-. exact HrV. }
  rewrite (shape_rows f V HVne HV) in Hshape. injection Hshape as Hlen.
  set (scores := prod_1 (zip_with (Spec.row_densities Math_exp (tensor1d row)) M V)).
  assert (Hlt : (argMax scores < length (ModelState.mean s))%nat).
  { replace (length (ModelState.mean s)) with (length scores).
    - apply argMax_lt. unfold scores, prod_1. destruct M, V; cbn in *; congruence.
    - unfold scores, prod_1. rewrite length_map, length_zip_with, Hlen. unfold M.
      rewrite length_map. lia. }
  destruct (ModelState.classCategories s) as [catalog|] eqn:Hcat.
  - exists (argMax scores). split; [exact Hlt|].
    apply (singlePredict_closed_form Math_exp _ catalog M V f); auto.
  - unfold singlePredict. cbn [mean variance classCategories defined bind].
    rewrite (shape_rows f M HMne HM). cbn [snd]. unfold tensor1d at 1.
    rewrite length_map, Hrow, Nat.eqb_refl. cbn [negb]. unfold clone.
    rewrite (probabilityArray_closed_form Math_exp f); auto.
    unfold tensor1d. now rewrite length_map.
Qed.

Lemma import_does_not_check_catalog_witness :
  fromJSON Examples.no_labels new = (Ok tt, Examples.restored_no_labels)
  /\ shape (map (map fround) (ModelState.variance Examples.no_labels))
     = shape (map (map fround) (ModelState.mean Examples.no_labels))
  /\ length [of_Z 1] = snd (shape (map (map fround) (ModelState.mean Examples.no_labels)))
  /\ match ModelState.classCategories Examples.no_labels with
     | None =>
         singlePredict Reference.Math_exp Examples.restored_no_labels [of_Z 1]
         = Throw TypeError
     | Some catalog =>
         exists i, (i < length (ModelState.mean Examples.no_labels))%nat
                   /\ singlePredict Reference.Math_exp Examples.restored_no_labels
                        [of_Z 1]
                      = Ok (catalog !! i)
     end.
Proof.
  assert (H1 : fromJSON Examples.no_labels new
               = (Ok tt, Examples.restored_no_labels)) by reflexivity.
  split; [exact H1|]. split; [reflexivity|]. split; [reflexivity|].
  exact (import_does_not_check_catalog Reference.Math_exp Examples.no_labels new _
           [of_Z 1] H1 eq_refl eq_refl).
Defined.

(** X9: fitModel on more rows than labels throws a TypeError: lodash's
    zip pads the labels with [undefined], and the grouping calls
    toString on it. *)
Theorem fitModel_missing_label {T : Type} {T_eq : EqDecision T} {T_str : ToString T}
    (X : list (list number)) (y : list T) :
  (length y < length X)%nat -> fitModel X y = Throw TypeError.
Proof.
  intros Hlen. unfold fitModel. now rewrite reduce_missing_label.
Qed.

Lemma fitModel_missing_label_witness :
  (length [1%Z; 0%Z] < length Examples.X)%nat
  /\ fitModel Examples.X [1%Z; 0%Z] = Throw TypeError.
Proof.
  assert (H1 : (length [1%Z; 0%Z] < length Examples.X)%nat) by (cbn; lia).
  split; [exact H1|]. exact (fitModel_missing_label Examples.X [1%Z; 0%Z] H1).
Defined.

(** X10: no entry of the variance of a fitted instance is negative, and
    none is [-0]: an entry is NaN or has its sign bit clear, so the
    comparison [v < 0] is false for it. *)
Theorem variance_never_negative {T : Type} {T_eq : EqDecision T} {T_str : ToString T}
    (X : list (list number)) (y : list T) (this this' : t T)
    (V : Tensor2D) (i j : nat) (v : float32) :
  fit X y this = (Ok tt, this') -> variance this' = Some V ->
  Spec.entry V i j = Some v ->
  sign v <> Some true /\ gt zero (widen v) = false.
Proof.
  intros Hfit HV Hv.
  pose proof (variance_entry_sign X y this this' V i j v Hfit HV Hv) as Hs.
  split; [exact Hs|]. rewrite <- widen_sign in Hs.
  destruct (widen v) as [[]|[]| |[] ? ?]; cbn in Hs; congruence || reflexivity.
Qed.

Lemma variance_never_negative_witness :
  fit Examples.X Examples.y new = (Ok tt, Examples.fitted)
  /\ variance Examples.fitted = Some [[ratio 1 1; ratio 1 4]; [ratio 1 1; ratio 1 1]]
  /\ Spec.entry [[ratio 1 1; ratio 1 4]; [ratio 1 1; ratio 1 1]] 0 1 = Some (ratio 1 4)
  /\ sign (ratio 1 4) <> Some true /\ gt zero (widen (ratio 1 4)) = false.
Proof.
  assert (H1 : fit Examples.X Examples.y new = (Ok tt, Examples.fitted))
    by (vm_compute; reflexivity).
  split; [exact H1|]. split; [reflexivity|]. split; [reflexivity|].
  exact (variance_never_negative Examples.X Examples.y new Examples.fitted _ 0 1 _
           H1 eq_refl eq_refl).
Defined.

(** X11: on a fitted instance and a row of the trained length, the
    tensor that singlePredict builds has one row per class and one
    column per feature, its entry for class i and feature j is the
    Gaussian density
    [1 / (sqrt(2 pi) * sqrt(v)) * exp(-(x - m)^2 / (2 * v))] of the
    feature, stored as float32, under the mean and the variance of the
    class, and the label returned is the one at the argMax of the row
    products. *)
Theorem scores_are_products_of_densities {T : Type} {T_eq : EqDecision T} {T_str : ToString T}
    (Math_exp : number -> number)
    (X : list (list number)) (y : list T) (this this' : t T)
    (catalog : list T) (M V : Tensor2D) (row : list number) :
  fit X y this = (Ok tt, this') ->
  classCategories this' = Some catalog -> mean this' = Some M -> variance this' = Some V ->
  length row = Spec.numFeatures X ->
  exists P,
    probabilityArray Math_exp M V (tensor1d row) = Ok P
    /\ shape P = (length catalog, Spec.numFeatures X)
    /\ (forall i j xj m v,
          row !! j = Some xj -> Spec.entry M i j = Some m -> Spec.entry V i j = Some v ->
          Spec.entry P i j = Some (Spec.density Math_exp (fround xj) m v))
    /\ singlePredict Math_exp this' row = Ok (catalog !! argMax (map reduce_prod P)).
Proof.
  intros Hfit Hc HM HV Hlen.
  destruct (singlePredict_fitted Math_exp X y this this' row Hfit)
    as (c' & M' & V' & Hc' & HM' & HV' & _ & Hgood).
  assert (c' = catalog) by congruence. assert (M' = M) by congruence.
  assert (V' = V) by congruence. subst c' M' V'.
  destruct (Hgood Hlen) as [HP Hpredict].
  destruct (fitted_fields X y this this' Hfit)
    as (c' & M' & V' & Hc'' & HM'' & HV'' & _ & _ & _ & Hne & _ & HlM & HlV & HrM & HrV & _).
  assert (c' = catalog) by congruence. assert (M' = M) by congruence.
  assert (V' = V) by congruence. subst c' M' V'.
  eexists. split; [exact HP|]. split_and!.
  - rewrite (shape_rows (Spec.numFeatures X)).
    + rewrite length_zip_with. f_equal. lia.
    + intros H. apply (f_equal length) in H. rewrite length_zip_with in H.
      destruct catalog; [congruence|]. cbn in *. lia.
    + apply densities_rows; try assumption. unfold tensor1d. now rewrite length_map.
  - intros i j xj m v Hx Hm Hv. apply densities_entry; try assumption.
    unfold tensor1d. etransitivity; [apply (lookup_map fround)|]. now rewrite Hx.
  - exact Hpredict.
Qed.

Lemma scores_are_products_of_densities_witness :
  fit Examples.X Examples.y new = (Ok tt, Examples.fitted)
  /\ classCategories Examples.fitted = Some [0; 1]%Z
  /\ mean Examples.fitted = Some [[ratio 3 1; ratio 43 2]; [ratio 2 1; ratio 21 1]]
  /\ variance Examples.fitted = Some [[ratio 1 1; ratio 1 4]; [ratio 1 1; ratio 1 1]]
  /\ length [of_Z 1; of_Z 20] = Spec.numFeatures Examples.X
  /\ exists P,
       probabilityArray Reference.Math_exp
         [[ratio 3 1; ratio 43 2]; [ratio 2 1; ratio 21 1]]
         [[ratio 1 1; ratio 1 4]; [ratio 1 1; ratio 1 1]] (tensor1d [of_Z 1; of_Z 20]) = Ok P
       /\ shape P = (length [0; 1]%Z, Spec.numFeatures Examples.X)
       /\ (forall i j xj m v,
             [of_Z 1; of_Z 20] !! j = Some xj ->
             Spec.entry [[ratio 3 1; ratio 43 2]; [ratio 2 1; ratio 21 1]] i j = Some m ->
             Spec.entry [[ratio 1 1; ratio 1 4]; [ratio 1 1; ratio 1 1]] i j = Some v ->
             Spec.entry P i j = Some (Spec.density Reference.Math_exp (fround xj) m v))
       /\ singlePredict Reference.Math_exp Examples.fitted [of_Z 1; of_Z 20]
          = Ok ([0; 1]%Z !! argMax (map reduce_prod P)).
Proof.
  assert (H1 : fit Examples.X Examples.y new = (Ok tt, Examples.fitted))
    by (vm_compute; reflexivity).
  split; [exact H1|]. do 4 (split; [reflexivity|]).
  exact (scores_are_products_of_densities Reference.Math_exp Examples.X Examples.y new
           Examples.fitted _ _ _ [of_Z 1; of_Z 20] H1 eq_refl eq_refl eq_refl eq_refl).
Defined.

(** X12: on a fitted instance and a row of the trained length, when the
    score of the first class is not NaN, the class that is returned
    has a score that is not NaN, no class has a greater score, and
    every class before it in the catalog has a smaller score or the
    score NaN: ties go to the first class. *)
Theorem predicts_first_maximum {T : Type} {T_eq : EqDecision T} {T_str : ToString T}
    (Math_exp : number -> number)
    (X : list (list number)) (y : list T) (this this' : t T)
    (catalog : list T) (M V P : Tensor2D) (row : list number) :
  fit X y this = (Ok tt, this') ->
  classCategories this' = Some catalog -> mean this' = Some M -> variance this' = Some V ->
  length row = Spec.numFeatures X ->
  probabilityArray Math_exp M V (tensor1d row) = Ok P ->
  prod_1 P !! 0%nat <> Some NaN ->
  exists i c s,
    singlePredict Math_exp this' row = Ok (Some c)
    /\ catalog !! i = Some c /\ prod_1 P !! i = Some s /\ s <> NaN
    /\ (forall k v, prod_1 P !! k = Some v -> gt (widen v) (widen s) = false)
    /\ (forall k v, prod_1 P !! k = Some v -> (k < i)%nat ->
          v = NaN \/ gt (widen s) (widen v) = true).
Proof.
  intros Hfit Hc HM HV Hlen HP H0.
  destruct (singlePredict_scores Math_exp X y this this' catalog M V P row
              Hfit Hc HM HV Hlen HP) as (_ & Hl & Hne & Hpredict).
  destruct (prod_1 P !! 0%nat) as [s0|] eqn:Hs0.
  2: { apply lookup_ge_None in Hs0. destruct catalog; [congruence|].
       cbn [length] in Hl. unfold Tensor1D, float32, number in *. lia. }
  destruct (argMax_first_max (prod_1 P) s0 Hs0 ltac:(congruence))
    as (s & Hs & Hn & Hle & Hlt).
  assert (Hi : (argMax (prod_1 P) < length catalog)%nat)
    by (rewrite <- Hl; eapply lookup_lt_Some, Hs).
  apply lookup_lt_is_Some in Hi as [c Hci].
  exists (argMax (prod_1 P)), c, s. rewrite Hpredict, Hci. split_and!; auto.
Qed.

Lemma predicts_first_maximum_witness :
  fit Examples.X Examples.y new = (Ok tt, Examples.fitted)
  /\ probabilityArray Reference.Math_exp
       [[ratio 3 1; ratio 43 2]; [ratio 2 1; ratio 21 1]]
       [[ratio 1 1; ratio 1 4]; [ratio 1 1; ratio 1 1]] (tensor1d [of_Z 1; of_Z 20])
     = Ok (zip_with (Spec.row_densities Reference.Math_exp (tensor1d [of_Z 1; of_Z 20]))
             [[ratio 3 1; ratio 43 2]; [ratio 2 1; ratio 21 1]]
             [[ratio 1 1; ratio 1 4]; [ratio 1 1; ratio 1 1]])
  /\ prod_1 (zip_with (Spec.row_densities Reference.Math_exp (tensor1d [of_Z 1; of_Z 20]))
               [[ratio 3 1; ratio 43 2]; [ratio 2 1; ratio 21 1]]
               [[ratio 1 1; ratio 1 4]; [ratio 1 1; ratio 1 1]]) !! 0%nat <> Some NaN
  /\ exists i c s,
       singlePredict Reference.Math_exp Examples.fitted [of_Z 1; of_Z 20] = Ok (Some c)
       /\ [0; 1]%Z !! i = Some c
       /\ prod_1 (zip_with (Spec.row_densities Reference.Math_exp (tensor1d [of_Z 1; of_Z 20]))
                    [[ratio 3 1; ratio 43 2]; [ratio 2 1; ratio 21 1]]
                    [[ratio 1 1; ratio 1 4]; [ratio 1 1; ratio 1 1]]) !! i = Some s
       /\ s <> NaN
       /\ (forall k v,
             prod_1 (zip_with (Spec.row_densities Reference.Math_exp (tensor1d [of_Z 1; of_Z 20]))
                       [[ratio 3 1; ratio 43 2]; [ratio 2 1; ratio 21 1]]
                       [[ratio 1 1; ratio 1 4]; [ratio 1 1; ratio 1 1]]) !! k = Some v ->
             gt (widen v) (widen s) = false)
       /\ (forall k v,
             prod_1 (zip_with (Spec.row_densities Reference.Math_exp (tensor1d [of_Z 1; of_Z 20]))
                       [[ratio 3 1; ratio 43 2]; [ratio 2 1; ratio 21 1]]
                       [[ratio 1 1; ratio 1 4]; [ratio 1 1; ratio 1 1]]) !! k = Some v ->
             (k < i)%nat -> v = NaN \/ gt (widen s) (widen v) = true).
Proof.
  assert (H1 : fit Examples.X Examples.y new = (Ok tt, Examples.fitted))
    by (vm_compute; reflexivity).
  assert (H2 : probabilityArray Reference.Math_exp
                 [[ratio 3 1; ratio 43 2]; [ratio 2 1; ratio 21 1]]
                 [[ratio 1 1; ratio 1 4]; [ratio 1 1; ratio 1 1]] (tensor1d [of_Z 1; of_Z 20])
               = Ok (zip_with (Spec.row_densities Reference.Math_exp (tensor1d [of_Z 1; of_Z 20]))
                       [[ratio 3 1; ratio 43 2]; [ratio 2 1; ratio 21 1]]
                       [[ratio 1 1; ratio 1 4]; [ratio 1 1; ratio 1 1]]))
    by (vm_compute; reflexivity).
  assert (H3 : prod_1 (zip_with (Spec.row_densities Reference.Math_exp
                                   (tensor1d [of_Z 1; of_Z 20]))
                         [[ratio 3 1; ratio 43 2]; [ratio 2 1; ratio 21 1]]
                         [[ratio 1 1; ratio 1 4]; [ratio 1 1; ratio 1 1]]) !! 0%nat
               <> Some NaN)
    by (vm_compute; discriminate).
  split; [exact H1|]. split; [exact H2|]. split; [exact H3|].
  exact (predicts_first_maximum Reference.Math_exp Examples.X Examples.y new Examples.fitted
           [0; 1]%Z _ _ _ [of_Z 1; of_Z 20] H1 eq_refl eq_refl eq_refl eq_refl H2 H3).
Defined.

(** X13: on a fitted instance and a row of the trained length, when
    the score of the first class is NaN, the first class of the
    catalog is returned, whatever the scores of the others. *)
Theorem first_class_wins_with_NaN {T : Type} {T_eq : EqDecision T} {T_str : ToString T}
    (Math_exp : number -> number)
    (X : list (list number)) (y : list T) (this this' : t T)
    (catalog : list T) (M V P : Tensor2D) (row : list number) :
  fit X y this = (Ok tt, this') ->
  classCategories this' = Some catalog -> mean this' = Some M -> variance this' = Some V ->
  length row = Spec.numFeatures X ->
  probabilityArray Math_exp M V (tensor1d row) = Ok P ->
  prod_1 P !! 0%nat = Some NaN ->
  singlePredict Math_exp this' row = Ok (catalog !! 0%nat).
Proof.
  intros Hfit Hc HM HV Hlen HP H0.
  destruct (singlePredict_scores Math_exp X y this this' catalog M V P row
              Hfit Hc HM HV Hlen HP) as (_ & _ & _ & ->).
  destruct (prod_1 P) as [|s scores]; [discriminate|]. injection H0 as ->.
  now rewrite argMax_NaN_first.
Qed.

Lemma first_class_wins_with_NaN_witness :
  fit Examples.X_single Examples.y_single_first new = (Ok tt, Examples.fitted_single_first)
  /\ probabilityArray Reference.Math_exp [[ratio 1 1]; [ratio 5 2]] [[zero]; [ratio 1 4]]
       (tensor1d [of_Z 3])
     = Ok (zip_with (Spec.row_densities Reference.Math_exp (tensor1d [of_Z 3]))
             [[ratio 1 1]; [ratio 5 2]] [[zero]; [ratio 1 4]])
  /\ prod_1 (zip_with (Spec.row_densities Reference.Math_exp (tensor1d [of_Z 3]))
               [[ratio 1 1]; [ratio 5 2]] [[zero]; [ratio 1 4]]) !! 0%nat = Some NaN
  /\ singlePredict Reference.Math_exp Examples.fitted_single_first [of_Z 3]
     = Ok ([0; 1]%Z !! 0%nat).
Proof.
  assert (H1 : fit Examples.X_single Examples.y_single_first new
               = (Ok tt, Examples.fitted_single_first)) by (vm_compute; reflexivity).
  assert (H2 : probabilityArray Reference.Math_exp [[ratio 1 1]; [ratio 5 2]]
                 [[zero]; [ratio 1 4]] (tensor1d [of_Z 3])
               = Ok (zip_with (Spec.row_densities Reference.Math_exp (tensor1d [of_Z 3]))
                       [[ratio 1 1]; [ratio 5 2]] [[zero]; [ratio 1 4]]))
    by (vm_compute; reflexivity).
  assert (H3 : prod_1 (zip_with (Spec.row_densities Reference.Math_exp (tensor1d [of_Z 3]))
                         [[ratio 1 1]; [ratio 5 2]] [[zero]; [ratio 1 4]]) !! 0%nat
               = Some NaN) by (vm_compute; reflexivity).
  split; [exact H1|]. split; [exact H2|]. split; [exact H3|].
  exact (first_class_wins_with_NaN Reference.Math_exp Examples.X_single
           Examples.y_single_first new Examples.fitted_single_first [0; 1]%Z _ _ _
           [of_Z 3] H1 eq_refl eq_refl eq_refl eq_refl H2 H3).
Defined.

(** X14: on a fitted instance, a class whose variance is 0 in some
    feature has the density NaN in that feature and the score NaN for
    every row of the trained length, not only for the rows that sit at
    its mean: away from the mean the exponent is exp(-Infinity) = 0, and
    Infinity * 0 is NaN.  ([Math.exp] is any function with the values
    that ECMA-262 fixes at NaN and at -Infinity.) *)
Theorem zero_variance_any_row {T : Type} {T_eq : EqDecision T} {T_str : ToString T}
    (Math_exp : number -> number)
    (X : list (list number)) (y : list T) (this this' : t T)
    (M V : Tensor2D) (row : list number) (i j : nat) (v : float32) :
  Math_exp NaN = NaN -> Math_exp (S754_infinity true) = zero ->
  fit X y this = (Ok tt, this') ->
  mean this' = Some M -> variance this' = Some V ->
  length row = Spec.numFeatures X ->
  Spec.entry V i j = Some v -> strict_eq (widen v) zero = true ->
  exists P,
    probabilityArray Math_exp M V (tensor1d row) = Ok P
    /\ Spec.entry P i j = Some NaN
    /\ prod_1 P !! i = Some NaN.
Proof.
  intros Hnan Hinf Hfit HM HV Hlen Hv Hz.
  destruct (singlePredict_fitted Math_exp X y this this' row Hfit)
    as (c' & M' & V' & _ & HM' & HV' & _ & Hgood).
  assert (M' = M) by congruence. assert (V' = V) by congruence. subst M' V'.
  destruct (Hgood Hlen) as [HP _]. eexists. split; [exact HP|].
  exact (score_no_spread Math_exp X y this this' M V row i j v
           Hnan Hinf Hfit HM HV Hlen Hv Hz).
Qed.

Lemma zero_variance_any_row_witness :
  Reference.Math_exp NaN = NaN
  /\ Reference.Math_exp (S754_infinity true) = zero
  /\ fit Examples.X_single Examples.y_single new = (Ok tt, Examples.fitted_single)
  /\ length [of_Z 2] = Spec.numFeatures Examples.X_single
  /\ Spec.entry [[ratio 1 4]; [zero]] 1 0 = Some zero
  /\ strict_eq (widen zero) zero = true
  /\ exists P,
       probabilityArray Reference.Math_exp [[ratio 3 2]; [ratio 3 1]] [[ratio 1 4]; [zero]]
         (tensor1d [of_Z 2]) = Ok P
       /\ Spec.entry P 1 0 = Some NaN
       /\ prod_1 P !! 1%nat = Some NaN.
Proof.
  assert (H1 : fit Examples.X_single Examples.y_single new = (Ok tt, Examples.fitted_single))
    by (vm_compute; reflexivity).
  split; [reflexivity|]. split; [reflexivity|]. split; [exact H1|].
  split; [reflexivity|]. split; [reflexivity|]. split; [reflexivity|].
  exact (zero_variance_any_row Reference.Math_exp Examples.X_single Examples.y_single new
           Examples.fitted_single [[ratio 3 2]; [ratio 3 1]] [[ratio 1 4]; [zero]] [of_Z 2]
           1 0 zero eq_refl eq_refl H1 eq_refl eq_refl eq_refl eq_refl eq_refl).
Defined.

(** X15: on a fitted instance, a class whose variance is 0 in some
    feature is returned for every row of the trained length when it is
    the first class of the catalog, and for no row when it is not. *)
Theorem zero_variance_class_selection {T : Type} {T_eq : EqDecision T} {T_str : ToString T}
    (Math_exp : number -> number)
    (X : list (list number)) (y : list T) (this this' : t T)
    (catalog : list T) (V : Tensor2D) (row : list number)
    (i j : nat) (c : T) (v : float32) :
  Math_exp NaN = NaN -> Math_exp (S754_infinity true) = zero ->
  fit X y this = (Ok tt, this') ->
  classCategories this' = Some catalog -> variance this' = Some V ->
  length row = Spec.numFeatures X ->
  catalog !! i = Some c ->
  Spec.entry V i j = Some v -> strict_eq (widen v) zero = true ->
  (i = 0%nat -> singlePredict Math_exp this' row = Ok (Some c))
  /\ (i <> 0%nat ->
      exists c', singlePredict Math_exp this' row = Ok (Some c') /\ c' <> c).
Proof.
  intros Hnan Hinf Hfit Hc HV Hlen Hi Hv Hz.
  destruct (fitted_fields X y this this' Hfit)
    as (c' & M & V' & Hc' & HM & HV' & Hcat & _).
  assert (Hnd : NoDup catalog).
  { replace catalog with c' by congruence. rewrite Hcat. apply NoDup_catalog. }
  clear Hcat.
  assert (c' = catalog) by congruence. assert (V' = V) by congruence. subst c' V'.
  destruct (singlePredict_fitted Math_exp X y this this' row Hfit)
    as (c' & M' & V' & _ & HM' & HV'' & _ & Hgood).
  assert (M' = M) by congruence. assert (V' = V) by congruence. subst M' V'.
  destruct (Hgood Hlen) as [HP _].
  destruct (singlePredict_scores Math_exp X y this this' catalog M V _ row
              Hfit Hc HM HV Hlen HP) as (_ & Hl & Hne & Hpredict).
  destruct (score_no_spread Math_exp X y this this' M V row i j v
              Hnan Hinf Hfit HM HV Hlen Hv Hz) as [_ Hscore].
  set (scores := prod_1 _) in *.
  split.
  - intros ->. rewrite Hpredict.
    destruct scores as [|s scores']; [discriminate|]. injection Hscore as ->.
    now rewrite argMax_NaN_first, Hi.
  - intros Hi0.
    assert (Hsel : argMax scores <> i).
    { destruct (scores !! 0%nat) as [s0|] eqn:Hs0.
      2: { apply lookup_ge_None in Hs0. destruct catalog; [congruence|].
           cbn [length] in Hl. unfold Tensor1D, float32, number in *. lia. }
      destruct (sign s0) eqn:Hsign.
      - destruct (argMax_first_max scores s0 Hs0) as (s & Hs & Hn & _).
        { intros ->. discriminate. }
        intros Heq. rewrite Heq in Hs. congruence.
      - apply sign_None in Hsign. subst s0.
        destruct scores as [|s scores']; [discriminate|]. injection Hs0 as ->.
        rewrite argMax_NaN_first. congruence. }
    assert (Hlt : (argMax scores < length catalog)%nat).
    { rewrite <- Hl. apply argMax_lt. intros H. now rewrite H in Hscore. }
    apply lookup_lt_is_Some in Hlt as [other Hother].
    exists other. rewrite Hpredict. split; [now rewrite Hother|].
    intros ->. apply Hsel. exact (NoDup_lookup catalog _ _ c Hnd Hother Hi).
Qed.

Lemma zero_variance_class_selection_witness :
  Reference.Math_exp NaN = NaN
  /\ Reference.Math_exp (S754_infinity true) = zero
  /\ fit Examples.X_single Examples.y_single new = (Ok tt, Examples.fitted_single)
  /\ length [of_Z 3] = Spec.numFeatures Examples.X_single
  /\ [0; 1]%Z !! 1%nat = Some 1%Z
  /\ Spec.entry [[ratio 1 4]; [zero]] 1 0 = Some zero
  /\ strict_eq (widen zero) zero = true
  /\ (1%nat = 0%nat ->
      singlePredict Reference.Math_exp Examples.fitted_single [of_Z 3] = Ok (Some 1%Z))
  /\ (1%nat <> 0%nat ->
      exists c', singlePredict Reference.Math_exp Examples.fitted_single [of_Z 3] = Ok (Some c')
                 /\ c' <> 1%Z).
Proof.
  assert (H1 : fit Examples.X_single Examples.y_single new = (Ok tt, Examples.fitted_single))
    by (vm_compute; reflexivity).
  split; [reflexivity|]. split; [reflexivity|]. split; [exact H1|].
  split; [reflexivity|]. split; [reflexivity|]. split; [reflexivity|]. split; [reflexivity|].
  exact (zero_variance_class_selection Reference.Math_exp Examples.X_single Examples.y_single
           new Examples.fitted_single [0; 1]%Z [[ratio 1 4]; [zero]] [of_Z 3] 1 0 1%Z zero
           eq_refl eq_refl H1 eq_refl eq_refl eq_refl eq_refl eq_refl eq_refl).
Defined.

(** X16: on a fitted instance toJSON does not throw, and what it
    returns is what model() shows: the catalog, and the mean and the
    variance as nested arrays of the float32 values, one row per class
    and one number per feature. *)
Theorem export_of_fitted_model {T : Type} {T_eq : EqDecision T} {T_str : ToString T}
    (X : list (list number)) (y : list T) (this this' : t T)
    (catalog : list T) (M V : Tensor2D) :
  fit X y this = (Ok tt, this') ->
  model this' = (Some catalog, Some M, Some V) ->
  toJSON this'
  = Ok {| ModelState.classCategories := Some catalog;
          ModelState.mean := map (map widen) M;
          ModelState.variance := map (map widen) V |}
  /\ length (map (map widen) M) = length catalog
  /\ length (map (map widen) V) = length catalog
  /\ rows_of_length (Spec.numFeatures X) (map (map widen) M)
  /\ rows_of_length (Spec.numFeatures X) (map (map widen) V).
Proof.
  intros Hfit Hmodel. unfold model in Hmodel. injection Hmodel as Hc HM HV.
  destruct (fitted_fields X y this this' Hfit)
    as (c' & M' & V' & Hc' & HM' & HV' & _ & _ & _ & Hne & HMne & HlM & HlV & HrM & HrV & _).
  assert (c' = catalog) by congruence. assert (M' = M) by congruence.
  assert (V' = V) by congruence. subst c' M' V'.
  assert (HVne : V <> []) by (destruct V, catalog; cbn in *; congruence).
  split_and!.
  - unfold toJSON. rewrite Hc, HM, HV. cbn [defined bind].
    now rewrite (reshape_dataSync _ M HMne HrM), (reshape_dataSync _ V HVne HrV).
  - now rewrite length_map.
  - now rewrite length_map.
  - now apply rows_of_length_map.
  - now apply rows_of_length_map.
Qed.

Lemma export_of_fitted_model_witness :
  fit Examples.X Examples.y new = (Ok tt, Examples.fitted)
  /\ model Examples.fitted
     = (Some [0; 1]%Z, Some [[ratio 3 1; ratio 43 2]; [ratio 2 1; ratio 21 1]],
        Some [[ratio 1 1; ratio 1 4]; [ratio 1 1; ratio 1 1]])
  /\ toJSON Examples.fitted
     = Ok {| ModelState.classCategories := Some [0; 1]%Z;
             ModelState.mean :=
               map (map widen) [[ratio 3 1; ratio 43 2]; [ratio 2 1; ratio 21 1]];
             ModelState.variance :=
               map (map widen) [[ratio 1 1; ratio 1 4]; [ratio 1 1; ratio 1 1]] |}
  /\ length (map (map widen) [[ratio 3 1; ratio 43 2]; [ratio 2 1; ratio 21 1]])
     = length [0; 1]%Z
  /\ length (map (map widen) [[ratio 1 1; ratio 1 4]; [ratio 1 1; ratio 1 1]])
     = length [0; 1]%Z
  /\ rows_of_length (Spec.numFeatures Examples.X)
       (map (map widen) [[ratio 3 1; ratio 43 2]; [ratio 2 1; ratio 21 1]])
  /\ rows_of_length (Spec.numFeatures Examples.X)
       (map (map widen) [[ratio 1 1; ratio 1 4]; [ratio 1 1; ratio 1 1]]).
Proof.
  assert (H1 : fit Examples.X Examples.y new = (Ok tt, Examples.fitted))
    by (vm_compute; reflexivity).
  split; [exact H1|]. split; [reflexivity|].
  exact (export_of_fitted_model Examples.X Examples.y new Examples.fitted _ _ _ H1 eq_refl).
Defined.

(** X17: on a fitted instance, a row of the trained length with a
    feature that is NaN gets the first class of the catalog. *)
Theorem row_with_NaN_gets_first_class {T : Type} {T_eq : EqDecision T} {T_str : ToString T}
    (Math_exp : number -> number)
    (X : list (list number)) (y : list T) (this this' : t T)
    (catalog : list T) (row : list number) (j : nat) :
  Math_exp NaN = NaN ->
  fit X y this = (Ok tt, this') ->
  classCategories this' = Some catalog ->
  length row = Spec.numFeatures X ->
  row !! j = Some NaN ->
  exists c, catalog !! 0%nat = Some c /\ singlePredict Math_exp this' row = Ok (Some c).
Proof.
  intros Hexp Hfit Hc Hlen Hj.
  destruct (fitted_fields X y this this' Hfit)
    as (c' & M & V & Hc' & HM & HV & _ & _ & _ & Hne & HMne & HlM & HlV & HrM & HrV & _).
  assert (c' = catalog) by congruence. subst c'.
  destruct (singlePredict_fitted Math_exp X y this this' row Hfit)
    as (c' & M' & V' & _ & HM' & HV' & _ & Hgood).
  assert (M' = M) by congruence. assert (V' = V) by congruence. subst M' V'.
  destruct (Hgood Hlen) as [HP _].
  destruct (singlePredict_scores Math_exp X y this this' catalog M V _ row
              Hfit Hc HM HV Hlen HP) as (_ & Hl & _ & ->).
  assert (Hjf : (j < Spec.numFeatures X)%nat) by (rewrite <- Hlen; eapply lookup_lt_Some, Hj).
  assert (H0 : (0 < length catalog)%nat) by (destruct catalog; [congruence|cbn; lia]).
  destruct (rows_of_length_entry _ M 0 j HrM ltac:(lia) Hjf) as [m Hm].
  destruct (rows_of_length_entry _ V 0 j HrV ltac:(lia) Hjf) as [v Hv].
  assert (Hx : tensor1d row !! j = Some NaN).
  { unfold tensor1d. etransitivity; [apply (lookup_map fround)|]. now rewrite Hj. }
  pose proof (densities_entry Math_exp (tensor1d row) M V 0 j NaN m v Hx Hm Hv) as Hd.
  rewrite density_NaN_feature in Hd by assumption.
  apply entry_Some in Hd as (prow & Hprow & Hnan).
  set (P := zip_with _ M V) in *.
  assert (Hscore : prod_1 P = NaN :: tl (prod_1 P)).
  { unfold prod_1. destruct P as [|p0 P']; [discriminate|]. injection Hprow as ->.
    cbn [map tl]. f_equal. apply reduce_prod_NaN. eapply list_elem_of_lookup_2, Hnan. }
  rewrite Hscore, argMax_NaN_first.
  destruct catalog as [|c catalog']; [congruence|]. now exists c.
Qed.

Lemma row_with_NaN_gets_first_class_witness :
  Reference.Math_exp NaN = NaN
  /\ fit Examples.X Examples.y new = (Ok tt, Examples.fitted)
  /\ length [NaN; of_Z 20] = Spec.numFeatures Examples.X
  /\ [NaN; of_Z 20] !! 0%nat = Some NaN
  /\ exists c, [0; 1]%Z !! 0%nat = Some c
               /\ singlePredict Reference.Math_exp Examples.fitted [NaN; of_Z 20] = Ok (Some c).
Proof.
  assert (H1 : fit Examples.X Examples.y new = (Ok tt, Examples.fitted))
    by (vm_compute; reflexivity).
  split; [reflexivity|]. split; [exact H1|]. split; [reflexivity|]. split; [reflexivity|].
  exact (row_with_NaN_gets_first_class Reference.Math_exp Examples.X Examples.y new
           Examples.fitted [0; 1]%Z [NaN; of_Z 20] 0 eq_refl H1 eq_refl eq_refl eq_refl).
Defined.
